(** * Activity tracker: sampling, merging, idle detection and persistence

    A shallow embedding of [activity_tracker/tracker/activity_tracker.py]
    and of the parts of [activity_tracker/config/config_manager.py] it
    calls, followed by the properties of the sampling-and-merging engine.

    Modelling conventions.
    - A Python [str] is a [string]; the model is exact on ASCII text
      (every character below 128).  Characters from 128 on are carried
      around unchanged.
    - [time.time()] is a rational number of seconds ([Q]); a callback
      and a pass of the loop read the clock once.
    - The attributes of the tracker object are the fields of one record,
      passed explicitly; what the tracker prints is a list of messages,
      newest last.
    - The files under the configuration directory are a finite map from
      paths to file contents. *)

From Stdlib Require Import String Ascii ZArith QArith Lqa Lia List Bool.
From Stdlib Require Import DecimalString DecimalZ DecimalPos DecimalFacts.
From stdpp Require Import base option list strings gmap.
Import ListNotations.

Set Warnings "-register-all".

(** Text is built by appending: let [simpl] compute appends of literals. *)
#[local] Arguments String.append !s1 s2 : simpl nomatch.

Local Open Scope string_scope.
Local Open Scope Z_scope.
Local Open Scope list_scope.

(** ** Python string operations *)

Module Str.

(** [c.lower()] for one ASCII character. *)
Definition lower_char (c : ascii) : ascii :=
  let n := N_of_ascii c in
  if ((65 <=? n) && (n <=? 90))%N then ascii_of_N (n + 32) else c.

(** [s.lower()] *)
Fixpoint lower (s : string) : string :=
  match s with
  | EmptyString => EmptyString
  | String c rest => String (lower_char c) (lower rest)
  end.

(** [s.startswith(p)] *)
Fixpoint startswith (p s : string) : bool :=
  match p, s with
  | EmptyString, _ => true
  | String _ _, EmptyString => false
  | String a p', String b s' => Ascii.eqb a b && startswith p' s'
  end.

(** [needle in hay]: the needle starts at some position of the hay. *)
Fixpoint contains (needle hay : string) : bool :=
  startswith needle hay
  || match hay with
     | EmptyString => false
     | String _ rest => contains needle rest
     end.

(** [s[n:]] *)
Fixpoint drop (n : nat) (s : string) : string :=
  match n, s with
  | O, _ => s
  | S _, EmptyString => EmptyString
  | S k, String _ rest => drop k rest
  end.

(** [s.replace(old, '')] for a non-empty [old]: the text is scanned from
    the left; where [old] starts, its characters are skipped ([skip] counts
    the ones still to drop), every other character is kept. *)
Fixpoint remove_from (old : string) (skip : nat) (s : string) : string :=
  match s with
  | EmptyString => EmptyString
  | String c rest =>
      match skip with
      | S k => remove_from old k rest
      | O =>
          if startswith old s
          then remove_from old (Nat.pred (String.length old)) rest
          else String c (remove_from old 0 rest)
      end
  end.

Definition typing_suffix : string := " (typing)".

(** [title.replace(' (typing)', '')] *)
Definition strip_typing (title : string) : string :=
  remove_from typing_suffix 0 title.

(** The needle occurs somewhere in the hay. *)
Definition occurs (needle hay : string) : Prop :=
  exists pre post, hay = pre +:+ needle +:+ post.

End Str.

(** ** Configuration ([config_manager.py]) *)

Record config := {
  track_applications : bool;
  track_documents : bool;
  ignored_apps : list string;
  (** a JSON object: the pairs are kept in the order of the file *)
  categories : list (string * list string);
  (** [None]: the key is missing from the configuration *)
  sampling_interval_opt : option Z
}.

Module ConfigManager.

Definition DEFAULT_CONFIG : config := {|
  track_applications := true;
  track_documents := true;
  ignored_apps := ["explorer.exe"; "Finder"; "SystemUI"];
  categories :=
    [ ("Coding", ["vscode"; "pycharm"; "intellij"; "sublime_text"; "vim";
                  "atom"; "code"]);
      ("Communication", ["outlook"; "thunderbird"; "slack"; "teams";
                         "discord"; "zoom"]);
      ("Browsing", ["chrome"; "firefox"; "safari"; "edge"]);
      ("Documents", ["word"; "excel"; "powerpoint"; "acrobat"; "pdf"]);
      ("Terminal", ["terminal"; "cmd"; "powershell"; "iterm2";
                    "gnome-terminal"; "konsole"]);
      ("Design", ["photoshop"; "illustrator"; "figma"; "sketch"; "gimp"]);
      ("Media", ["vlc"; "spotify"; "itunes"; "windows media player"]);
      ("Other", []) ];
  sampling_interval_opt := Some 30
|}.

(** [self.config.get('sampling_interval', 30)] *)
Definition get_sampling_interval (cfg : config) : Z :=
  default 30 (sampling_interval_opt cfg).

(** [os.path.join(self.config_path, f'activity_{date_str}.json')] *)
Definition get_log_path (config_path date_str : string) : string :=
  config_path +:+ "/activity_" +:+ date_str +:+ ".json".

End ConfigManager.

(** ** Window observations ([WindowTracker.get_active_window_info]) *)

Record window_info := {
  w_app : string;
  w_title : string;
  w_pid : option Z
}.

(** ** Classification ([ActivityTracker.categorize_activity]) *)

(** [any(app.lower() in app_name for app in apps)] *)
Definition any_keyword_in (apps : list string) (app_name : string) : bool :=
  existsb (fun app => Str.contains (Str.lower app) app_name) apps.

(** The loop [for category, apps in config['categories'].items()]: the
    first category with a keyword in the application name is returned. *)
Fixpoint first_category (cats : list (string * list string))
    (app_name : string) : option string :=
  match cats with
  | [] => None
  | (category, apps) :: rest =>
      if any_keyword_in apps app_name then Some category
      else first_category rest app_name
  end.

Definition source_extensions : list string :=
  [".py"; ".js"; ".html"; ".css"; ".java"; ".go"; ".c"; ".cpp"].

(** The three tests on the lower-cased window title and the default. *)
Definition title_category (title : string) : string :=
  if Str.contains "email" title || Str.contains "mail" title
  then "Communication"
  else if Str.contains "document" title || Str.contains ".doc" title
          || Str.contains ".txt" title
  then "Documents"
  else if Str.contains "code" title || Str.contains "script" title
          || existsb (fun ext => Str.contains ext title) source_extensions
  then "Coding"
  else "Other".

Definition categorize_activity (cfg : config) (info : option window_info)
    : string :=
  match info with
  | None => "Idle"
  | Some w =>
      let app_name := Str.lower (w_app w) in
      let title := Str.lower (w_title w) in
      if existsb (String.eqb app_name) (map Str.lower (ignored_apps cfg))
      then "System"
      else match first_category (categories cfg) app_name with
           | Some category => category
           | None => title_category title
           end
  end.

(** ** JSON text ([json.dump] with [indent=4], [json.load]) *)

Module Json.

(** The values the tracker reads and writes.  Numbers are the integers;
    an object keeps its members in order, as a Python [dict] does. *)
Inductive value :=
| Null
| Bool (b : bool)
| Int (z : Z)
| Str (s : string)
| Arr (items : list value)
| Obj (members : list (string * value)).

Definition hex_digit (n : N) : ascii :=
  if (n <? 10)%N then ascii_of_N (48 + n) else ascii_of_N (87 + n).

(** One character of a string literal, as [ensure_ascii=True] writes it:
    the quote and the backslash are escaped, the five short escapes are
    used, every other character outside [' '..'~'] becomes [\u00xx]. *)
Definition escape_char (c : ascii) : string :=
  let n := N_of_ascii c in
  if (n =? 34)%N then String (ascii_of_N 92) (String (ascii_of_N 34) EmptyString)
  else if (n =? 92)%N then "\\"
  else if (n =? 10)%N then "\n"
  else if (n =? 13)%N then "\r"
  else if (n =? 9)%N then "\t"
  else if (n =? 8)%N then "\b"
  else if (n =? 12)%N then "\f"
  else if ((32 <=? n) && (n <=? 126))%N then String c EmptyString
  else "\u00" +:+ String (hex_digit (n / 16)) (String (hex_digit (n mod 16)) EmptyString).

Fixpoint escape (s : string) : string :=
  match s with
  | EmptyString => EmptyString
  | String c rest => escape_char c +:+ escape rest
  end.

Definition quote : string := String (ascii_of_N 34) EmptyString.

Definition dump_string (s : string) : string := quote +:+ escape s +:+ quote.

Definition dump_int (z : Z) : string := NilZero.string_of_int (Z.to_int z).

Fixpoint spaces (n : nat) : string :=
  match n with
  | O => EmptyString
  | S k => String " " (spaces k)
  end.

Definition newline : string := String (ascii_of_N 10) EmptyString.

(** A line break followed by the indentation of the nesting level. *)
Definition newline_indent (level : nat) : string :=
  newline +:+ spaces (4 * level).

(** The items after the first one, each after its separator. *)
Definition separated {A} (item : A -> string) (separator : string)
    : list A -> string :=
  fix more (l : list A) : string :=
    match l with
    | [] => EmptyString
    | y :: ys => separator +:+ item y +:+ more ys
    end.

(** The text of a value that starts at nesting level [level]. *)
Fixpoint dump (level : nat) (v : value) : string :=
  match v with
  | Null => "null"
  | Bool true => "true"
  | Bool false => "false"
  | Int z => dump_int z
  | Str s => dump_string s
  | Arr [] => "[]"
  | Arr (x :: xs) =>
      "[" +:+ newline_indent (S level) +:+ dump (S level) x
      +:+ separated (dump (S level)) ("," +:+ newline_indent (S level)) xs
      +:+ newline_indent level +:+ "]"
  | Obj [] => "{}"
  | Obj ((k, x) :: xs) =>
      "{" +:+ newline_indent (S level) +:+ dump_string k +:+ ": "
      +:+ dump (S level) x
      +:+ separated
            (fun member =>
               let '(k', y) := member in
               dump_string k' +:+ ": " +:+ dump (S level) y)
            ("," +:+ newline_indent (S level)) xs
      +:+ newline_indent level +:+ "}"
  end.

(** What decoding a text gives: a value, the [JSONDecodeError] of the
    library, or no answer of this model (an integer followed by a point
    or an exponent mark, [NaN], [Infinity], an escaped character from
    256 on). *)
Inductive outcome (A : Type) :=
| Parsed (a : A)
| Invalid
| Unsupported.
Arguments Parsed {A} a.
Arguments Invalid {A}.
Arguments Unsupported {A}.

Definition bind {A B} (m : outcome A) (f : A -> outcome B) : outcome B :=
  match m with
  | Parsed a => f a
  | Invalid => Invalid
  | Unsupported => Unsupported
  end.

Notation "'let!' p ':=' m 'in' k" := (bind m (fun p => k))
  (at level 10, p pattern, m at level 100, k at level 200).

Definition is_ws (c : ascii) : bool :=
  let n := N_of_ascii c in
  ((n =? 32) || (n =? 9) || (n =? 10) || (n =? 13))%N.

Fixpoint skip_ws (s : string) : string :=
  match s with
  | EmptyString => EmptyString
  | String c rest => if is_ws c then skip_ws rest else s
  end.

Definition hex_value (c : ascii) : option N :=
  let n := N_of_ascii c in
  if ((48 <=? n) && (n <=? 57))%N then Some (n - 48)%N
  else if ((97 <=? n) && (n <=? 102))%N then Some (n - 87)%N
  else if ((65 <=? n) && (n <=? 70))%N then Some (n - 55)%N
  else None.

Definition hex4 (a b c d : ascii) : option N :=
  match hex_value a, hex_value b, hex_value c, hex_value d with
  | Some x, Some y, Some z, Some w => Some (((x * 16 + y) * 16 + z) * 16 + w)%N
  | _, _, _, _ => None
  end.

(** The character a one-letter escape stands for. *)
Definition short_escape (e : ascii) : option ascii :=
  let n := N_of_ascii e in
  if (n =? 34)%N then Some e
  else if (n =? 92)%N then Some e
  else if (n =? 47)%N then Some e
  else if (n =? 98)%N then Some (ascii_of_N 8)
  else if (n =? 102)%N then Some (ascii_of_N 12)
  else if (n =? 110)%N then Some (ascii_of_N 10)
  else if (n =? 114)%N then Some (ascii_of_N 13)
  else if (n =? 116)%N then Some (ascii_of_N 9)
  else None.

Definition cons_char (c : ascii) (m : outcome (string * string))
    : outcome (string * string) :=
  let! (s, rest) := m in Parsed (String c s, rest).

(** The rest of a string literal, after its opening quote: the decoded
    characters and the text after the closing quote. *)
Fixpoint parse_string (s : string) : outcome (string * string) :=
  match s with
  | EmptyString => Invalid
  | String c rest =>
      let n := N_of_ascii c in
      if (n =? 34)%N then Parsed (EmptyString, rest)
      else if (n =? 92)%N then
        match rest with
        | EmptyString => Invalid
        | String e rest1 =>
            if (N_of_ascii e =? 117)%N then
              match rest1 with
              | String h1 (String h2 (String h3 (String h4 rest2))) =>
                  match hex4 h1 h2 h3 h4 with
                  | Some code =>
                      if (code <? 256)%N
                      then cons_char (ascii_of_N code) (parse_string rest2)
                      else Unsupported
                  | None => Invalid
                  end
              | _ => Invalid
              end
            else
              match short_escape e with
              | Some c' => cons_char c' (parse_string rest1)
              | None => Invalid
              end
        end
      else if (n <? 32)%N then Invalid
      else cons_char c (parse_string rest)
  end.

Definition digit_of_char (c : ascii) : option (Decimal.uint -> Decimal.uint) :=
  let n := N_of_ascii c in
  if (n =? 48)%N then Some Decimal.D0
  else if (n =? 49)%N then Some Decimal.D1
  else if (n =? 50)%N then Some Decimal.D2
  else if (n =? 51)%N then Some Decimal.D3
  else if (n =? 52)%N then Some Decimal.D4
  else if (n =? 53)%N then Some Decimal.D5
  else if (n =? 54)%N then Some Decimal.D6
  else if (n =? 55)%N then Some Decimal.D7
  else if (n =? 56)%N then Some Decimal.D8
  else if (n =? 57)%N then Some Decimal.D9
  else None.

(** The longest run of digits at the start of the text. *)
Fixpoint read_digits (s : string) : Decimal.uint * string :=
  match s with
  | EmptyString => (Decimal.Nil, EmptyString)
  | String c rest =>
      match digit_of_char c with
      | Some d => let '(ds, rest') := read_digits rest in (d ds, rest')
      | None => (Decimal.Nil, s)
      end
  end.

(** The integer is complete unless a fraction or an exponent follows. *)
Definition finish_number (negative : bool) (d : Decimal.uint) (rest : string)
    : outcome (value * string) :=
  let z := Z.of_int (if negative then Decimal.Neg d else Decimal.Pos d) in
  match rest with
  | String c _ =>
      let n := N_of_ascii c in
      if ((n =? 46) || (n =? 101) || (n =? 69))%N then Unsupported
      else Parsed (Int z, rest)
  | EmptyString => Parsed (Int z, rest)
  end.

(** A number: an optional minus sign, then [0] or a run of digits that
    does not start with [0]. *)
Definition parse_number (s : string) : outcome (value * string) :=
  let '(negative, body) :=
    match s with
    | String c rest => if (N_of_ascii c =? 45)%N then (true, rest) else (false, s)
    | EmptyString => (false, s)
    end in
  match body with
  | String c rest =>
      if (N_of_ascii c =? 48)%N
      then finish_number negative (Decimal.D0 Decimal.Nil) rest
      else
        match read_digits body with
        | (Decimal.Nil, _) => Invalid
        | (d, rest') => finish_number negative d rest'
        end
  | EmptyString => Invalid
  end.

(** [d[k] = v] on a [dict] kept as the list of its items. *)
Fixpoint dict_set (k : string) (v : value) (d : list (string * value))
    : list (string * value) :=
  match d with
  | [] => [(k, v)]
  | (k', v') :: rest =>
      if String.eqb k k' then (k, v) :: rest else (k', v') :: dict_set k v rest
  end.

(** [dict(pairs)]: a repeated key keeps its first place and its last
    value. *)
Definition dict_of_pairs (pairs : list (string * value)) : list (string * value) :=
  fold_left (fun d kv => dict_set (fst kv) (snd kv) d) pairs [].

(** The decoder.  The text of a value starts at the first character
    (the callers skip the white space before it); the result is the
    value and the text after it.  [fuel] bounds the nesting. *)
Fixpoint parse_value (fuel : nat) (s : string) : outcome (value * string) :=
  match fuel with
  | O => Invalid
  | S fuel =>
      match s with
      | EmptyString => Invalid
      | String c rest =>
          let n := N_of_ascii c in
          if (n =? 34)%N then
            let! (str, rest') := parse_string rest in Parsed (Str str, rest')
          else if (n =? 123)%N then
            match rest with
            | String c1 rest1 =>
                if (N_of_ascii c1 =? 34)%N then
                  let! (pairs, rest') := parse_members fuel rest1 in
                  Parsed (Obj (dict_of_pairs pairs), rest')
                else
                  match skip_ws rest with
                  | String c2 rest2 =>
                      if (N_of_ascii c2 =? 125)%N then Parsed (Obj [], rest2)
                      else if (N_of_ascii c2 =? 34)%N then
                        let! (pairs, rest') := parse_members fuel rest2 in
                        Parsed (Obj (dict_of_pairs pairs), rest')
                      else Invalid
                  | EmptyString => Invalid
                  end
            | EmptyString => Invalid
            end
          else if (n =? 91)%N then
            match skip_ws rest with
            | String c1 rest1 =>
                if (N_of_ascii c1 =? 93)%N then Parsed (Arr [], rest1)
                else
                  let! (items, rest') := parse_items fuel (skip_ws rest) in
                  Parsed (Arr items, rest')
            | EmptyString => Invalid
            end
          else if (n =? 110)%N then
            if Str.startswith "null" s then Parsed (Null, Str.drop 4 s)
            else Invalid
          else if (n =? 116)%N then
            if Str.startswith "true" s then Parsed (Bool true, Str.drop 4 s)
            else Invalid
          else if (n =? 102)%N then
            if Str.startswith "false" s then Parsed (Bool false, Str.drop 5 s)
            else Invalid
          else if (n =? 78)%N then
            if Str.startswith "NaN" s then Unsupported else Invalid
          else if (n =? 73)%N then
            if Str.startswith "Infinity" s then Unsupported else Invalid
          else if Str.startswith "-Infinity" s then Unsupported
          else parse_number s
      end
  end

(** The items of an array after its first bracket, up to and including
    the closing bracket. *)
with parse_items (fuel : nat) (s : string) : outcome (list value * string) :=
  match fuel with
  | O => Invalid
  | S fuel =>
      let! (v, rest) := parse_value fuel s in
      match skip_ws rest with
      | String c rest1 =>
          if (N_of_ascii c =? 93)%N then Parsed ([v], rest1)
          else if (N_of_ascii c =? 44)%N then
            let! (vs, rest') := parse_items fuel (skip_ws rest1) in
            Parsed (v :: vs, rest')
          else Invalid
      | EmptyString => Invalid
      end
  end

(** The members of an object after the opening quote of a key, up to
    and including the closing brace. *)
with parse_members (fuel : nat) (s : string)
    : outcome (list (string * value) * string) :=
  match fuel with
  | O => Invalid
  | S fuel =>
      let! (k, rest) := parse_string s in
      match skip_ws rest with
      | String c rest1 =>
          if (N_of_ascii c =? 58)%N then
            let! (v, rest2) := parse_value fuel (skip_ws rest1) in
            match skip_ws rest2 with
            | String c3 rest3 =>
                if (N_of_ascii c3 =? 125)%N then Parsed ([(k, v)], rest3)
                else if (N_of_ascii c3 =? 44)%N then
                  match skip_ws rest3 with
                  | String c4 rest4 =>
                      if (N_of_ascii c4 =? 34)%N then
                        let! (kvs, rest') := parse_members fuel rest4 in
                        Parsed ((k, v) :: kvs, rest')
                      else Invalid
                  | EmptyString => Invalid
                  end
                else Invalid
            | EmptyString => Invalid
            end
          else Invalid
      | EmptyString => Invalid
      end
  end.

(** [json.loads]: one value, with white space around it and nothing
    else.  The decoder gets twice the length of the text as fuel. *)
Definition loads (text : string) : outcome value :=
  let! (v, rest) := parse_value (2 * String.length text + 2) (skip_ws text) in
  match skip_ws rest with
  | EmptyString => Parsed v
  | String _ _ => Invalid
  end.

End Json.

(** ** The tracker object ([ActivityTracker]) *)

(** One entry of the day's timeline: the [dict] built by
    [log_current_activity], with its keys in the order of the literal.
    [a_is_typing] is [None] when the key is absent (an idle entry). *)
Record activity := {
  a_timestamp : string;
  a_app : string;
  a_title : string;
  a_category : string;
  a_duration : Z;
  a_is_typing : option bool
}.

(** The lines the tracker prints. *)
Inductive message :=
| Started_typing
| No_longer_idle_keyboard
| Keyboard_monitoring_started
| Keyboard_monitoring_failed
| Stopped_typing (elapsed : Q)
| Logging_as_idle
| Current_window_info (info : option window_info)
| No_window_info
| Active_window (app title : string) (typing : bool)
| Now_idle (idle_duration : Q)
| Mouse_movement (current previous : string)
| No_longer_idle_mouse
| Mouse_error
| Window_changed
| No_longer_idle_window
| Window_error
| Tracking_error.

(** The attributes of the tracker, the files of the configuration
    directory and the text printed so far. *)
Record tracker := {
  config_path : string;
  cfg : config;
  today_date : string;
  activities : list activity;
  current_activity : option activity;
  sampling_interval : Z;
  _last_mouse_pos : option string;
  _last_window_title : option string;
  is_typing : bool;
  last_keypress_time : Q;
  keyboard_listener : bool;
  last_activity_time : Q;
  is_idle : bool;
  files : gmap string string;
  stdout : list message
}.

Definition typing_inactivity_threshold : Q := 2.
Definition idle_threshold : Q := 30.

Definition set_activities (v : list activity) (t : tracker) : tracker :=
  {| config_path := config_path t; cfg := cfg t; today_date := today_date t;
     activities := v; current_activity := current_activity t;
     sampling_interval := sampling_interval t;
     _last_mouse_pos := _last_mouse_pos t;
     _last_window_title := _last_window_title t;
     is_typing := is_typing t; last_keypress_time := last_keypress_time t;
     keyboard_listener := keyboard_listener t;
     last_activity_time := last_activity_time t; is_idle := is_idle t;
     files := files t; stdout := stdout t |}.

Definition set_current_activity (v : option activity) (t : tracker) : tracker :=
  {| config_path := config_path t; cfg := cfg t; today_date := today_date t;
     activities := activities t; current_activity := v;
     sampling_interval := sampling_interval t;
     _last_mouse_pos := _last_mouse_pos t;
     _last_window_title := _last_window_title t;
     is_typing := is_typing t; last_keypress_time := last_keypress_time t;
     keyboard_listener := keyboard_listener t;
     last_activity_time := last_activity_time t; is_idle := is_idle t;
     files := files t; stdout := stdout t |}.

Definition set_last_mouse_pos (v : option string) (t : tracker) : tracker :=
  {| config_path := config_path t; cfg := cfg t; today_date := today_date t;
     activities := activities t; current_activity := current_activity t;
     sampling_interval := sampling_interval t;
     _last_mouse_pos := v;
     _last_window_title := _last_window_title t;
     is_typing := is_typing t; last_keypress_time := last_keypress_time t;
     keyboard_listener := keyboard_listener t;
     last_activity_time := last_activity_time t; is_idle := is_idle t;
     files := files t; stdout := stdout t |}.

Definition set_last_window_title (v : option string) (t : tracker) : tracker :=
  {| config_path := config_path t; cfg := cfg t; today_date := today_date t;
     activities := activities t; current_activity := current_activity t;
     sampling_interval := sampling_interval t;
     _last_mouse_pos := _last_mouse_pos t;
     _last_window_title := v;
     is_typing := is_typing t; last_keypress_time := last_keypress_time t;
     keyboard_listener := keyboard_listener t;
     last_activity_time := last_activity_time t; is_idle := is_idle t;
     files := files t; stdout := stdout t |}.

Definition set_is_typing (v : bool) (t : tracker) : tracker :=
  {| config_path := config_path t; cfg := cfg t; today_date := today_date t;
     activities := activities t; current_activity := current_activity t;
     sampling_interval := sampling_interval t;
     _last_mouse_pos := _last_mouse_pos t;
     _last_window_title := _last_window_title t;
     is_typing := v; last_keypress_time := last_keypress_time t;
     keyboard_listener := keyboard_listener t;
     last_activity_time := last_activity_time t; is_idle := is_idle t;
     files := files t; stdout := stdout t |}.

Definition set_last_keypress_time (v : Q) (t : tracker) : tracker :=
  {| config_path := config_path t; cfg := cfg t; today_date := today_date t;
     activities := activities t; current_activity := current_activity t;
     sampling_interval := sampling_interval t;
     _last_mouse_pos := _last_mouse_pos t;
     _last_window_title := _last_window_title t;
     is_typing := is_typing t; last_keypress_time := v;
     keyboard_listener := keyboard_listener t;
     last_activity_time := last_activity_time t; is_idle := is_idle t;
     files := files t; stdout := stdout t |}.

Definition set_keyboard_listener (v : bool) (t : tracker) : tracker :=
  {| config_path := config_path t; cfg := cfg t; today_date := today_date t;
     activities := activities t; current_activity := current_activity t;
     sampling_interval := sampling_interval t;
     _last_mouse_pos := _last_mouse_pos t;
     _last_window_title := _last_window_title t;
     is_typing := is_typing t; last_keypress_time := last_keypress_time t;
     keyboard_listener := v;
     last_activity_time := last_activity_time t; is_idle := is_idle t;
     files := files t; stdout := stdout t |}.

Definition set_last_activity_time (v : Q) (t : tracker) : tracker :=
  {| config_path := config_path t; cfg := cfg t; today_date := today_date t;
     activities := activities t; current_activity := current_activity t;
     sampling_interval := sampling_interval t;
     _last_mouse_pos := _last_mouse_pos t;
     _last_window_title := _last_window_title t;
     is_typing := is_typing t; last_keypress_time := last_keypress_time t;
     keyboard_listener := keyboard_listener t;
     last_activity_time := v; is_idle := is_idle t;
     files := files t; stdout := stdout t |}.

Definition set_is_idle (v : bool) (t : tracker) : tracker :=
  {| config_path := config_path t; cfg := cfg t; today_date := today_date t;
     activities := activities t; current_activity := current_activity t;
     sampling_interval := sampling_interval t;
     _last_mouse_pos := _last_mouse_pos t;
     _last_window_title := _last_window_title t;
     is_typing := is_typing t; last_keypress_time := last_keypress_time t;
     keyboard_listener := keyboard_listener t;
     last_activity_time := last_activity_time t; is_idle := v;
     files := files t; stdout := stdout t |}.

Definition set_files (v : gmap string string) (t : tracker) : tracker :=
  {| config_path := config_path t; cfg := cfg t; today_date := today_date t;
     activities := activities t; current_activity := current_activity t;
     sampling_interval := sampling_interval t;
     _last_mouse_pos := _last_mouse_pos t;
     _last_window_title := _last_window_title t;
     is_typing := is_typing t; last_keypress_time := last_keypress_time t;
     keyboard_listener := keyboard_listener t;
     last_activity_time := last_activity_time t; is_idle := is_idle t;
     files := v; stdout := stdout t |}.

(** [print(...)] *)
Definition print (m : message) (t : tracker) : tracker :=
  {| config_path := config_path t; cfg := cfg t; today_date := today_date t;
     activities := activities t; current_activity := current_activity t;
     sampling_interval := sampling_interval t;
     _last_mouse_pos := _last_mouse_pos t;
     _last_window_title := _last_window_title t;
     is_typing := is_typing t; last_keypress_time := last_keypress_time t;
     keyboard_listener := keyboard_listener t;
     last_activity_time := last_activity_time t; is_idle := is_idle t;
     files := files t; stdout := stdout t ++ [m] |}.

(** *** Keyboard monitoring *)

(** [_on_key_press], called by the listener at time [now]. *)
Definition _on_key_press (now : Q) (t : tracker) : tracker :=
  let t := set_last_keypress_time now t in
  let t := set_last_activity_time now t in
  let t := if negb (is_typing t)
           then print Started_typing (set_is_typing true t) else t in
  if is_idle t
  then print No_longer_idle_keyboard (set_is_idle false t) else t.

(** [_start_keyboard_monitoring]; [starts] tells whether
    [keyboard.Listener(...).start()] returns or raises.  The exception is
    caught, the listener is then [None]. *)
Definition _start_keyboard_monitoring (starts : bool) (t : tracker) : tracker :=
  if starts
  then print Keyboard_monitoring_started (set_keyboard_listener true t)
  else set_keyboard_listener false (print Keyboard_monitoring_failed t).

Definition _stop_keyboard_monitoring (t : tracker) : tracker :=
  if keyboard_listener t then set_keyboard_listener false t else t.

(** [_check_typing_status] at time [now]: the returned flag and the
    tracker after the call. *)
Definition _check_typing_status (now : Q) (t : tracker) : bool * tracker :=
  if negb (keyboard_listener t) then (false, t)
  else
    let elapsed := (now - last_keypress_time t)%Q in
    let t := if is_typing t && negb (Qle_bool elapsed typing_inactivity_threshold)
             then print (Stopped_typing elapsed) (set_is_typing false t)
             else t in
    (is_typing t, t).

(** *** Persistence *)

Definition activity_to_json (a : activity) : Json.value :=
  Json.Obj
    ([ ("timestamp", Json.Str (a_timestamp a));
       ("app", Json.Str (a_app a));
       ("title", Json.Str (a_title a));
       ("category", Json.Str (a_category a));
       ("duration", Json.Int (a_duration a)) ]
     ++ match a_is_typing a with
        | Some b => [ ("is_typing", Json.Bool b) ]
        | None => []
        end).

Definition timeline_to_json (l : list activity) : Json.value :=
  Json.Arr (map activity_to_json l).

(** The text [json.dump(self.activities, f, indent=4)] writes. *)
Definition timeline_text (l : list activity) : string :=
  Json.dump 0 (timeline_to_json l).

Definition today_log (t : tracker) : string :=
  ConfigManager.get_log_path (config_path t) (today_date t).

(** [_save_activities]: the day's file is overwritten. *)
Definition _save_activities (t : tracker) : tracker :=
  set_files (<[today_log t := timeline_text (activities t)]> (files t)) t.

(** How a call ends: with a value, with an exception that reaches the
    caller, or on a day file outside this model (JSON that is not an
    array of entries with the keys above). *)
Inductive exn := JSONDecodeError.

Inductive result (A : Type) :=
| Returns (a : A)
| Raises (e : exn)
| Not_modelled.
Arguments Returns {A} a.
Arguments Raises {A} e.
Arguments Not_modelled {A}.

Definition as_str (v : Json.value) : option string :=
  match v with Json.Str s => Some s | _ => None end.

Definition as_int (v : Json.value) : option Z :=
  match v with Json.Int z => Some z | _ => None end.

Definition as_bool (v : Json.value) : option bool :=
  match v with Json.Bool b => Some b | _ => None end.

(** The value of a member whose key is [k]. *)
Definition member (k : string) (m : string * Json.value) : option Json.value :=
  if String.eqb (fst m) k then Some (snd m) else None.

(** The entry a decoded object stands for. *)
Definition activity_of_json (v : Json.value) : option activity :=
  match v with
  | Json.Obj (m1 :: m2 :: m3 :: m4 :: m5 :: rest) =>
      timestamp ← member "timestamp" m1 ≫= as_str;
      app ← member "app" m2 ≫= as_str;
      title ← member "title" m3 ≫= as_str;
      category ← member "category" m4 ≫= as_str;
      duration ← member "duration" m5 ≫= as_int;
      typing ← match rest with
               | [] => Some None
               | [m6] => Some <$> (member "is_typing" m6 ≫= as_bool)
               | _ => None
               end;
      Some {| a_timestamp := timestamp; a_app := app; a_title := title;
              a_category := category; a_duration := duration;
              a_is_typing := typing |}
  | _ => None
  end.

Definition timeline_of_json (v : Json.value) : option (list activity) :=
  match v with
  | Json.Arr items => mapM activity_of_json items
  | _ => None
  end.

(** [_load_today_activities]: nothing is read when the file does not
    exist; [json.load] is not guarded, what it raises reaches the
    caller. *)
Definition _load_today_activities (t : tracker) : result tracker :=
  match files t !! today_log t with
  | None => Returns t
  | Some text =>
      match Json.loads text with
      | Json.Parsed v =>
          match timeline_of_json v with
          | Some l => Returns (set_activities l t)
          | None => Not_modelled
          end
      | Json.Invalid => Raises JSONDecodeError
      | Json.Unsupported => Not_modelled
      end
  end.

(** The attributes as [__init__] sets them, the day's file not yet
    read and the listener not yet started. *)
Definition blank (directory : string) (conf : config) (today : string)
    (now : Q) (disk : gmap string string) : tracker :=
  {| config_path := directory; cfg := conf; today_date := today;
     activities := []; current_activity := None;
     sampling_interval := ConfigManager.get_sampling_interval conf;
     _last_mouse_pos := None; _last_window_title := None;
     is_typing := false; last_keypress_time := now;
     keyboard_listener := false;
     last_activity_time := now; is_idle := false;
     files := disk; stdout := [] |}.

(** [__init__], given the directory and the configuration that
    [ConfigManager] found, the date and the clock, and whether the
    keyboard listener starts. *)
Definition init (directory : string) (conf : config) (today : string)
    (now : Q) (listener_starts : bool) (disk : gmap string string)
    : result tracker :=
  match _load_today_activities (blank directory conf today now disk) with
  | Returns t => Returns (_start_keyboard_monitoring listener_starts t)
  | Raises e => Raises e
  | Not_modelled => Not_modelled
  end.

(** *** One sample *)

Definition idle_activity (timestamp : string) (interval : Z) : activity :=
  {| a_timestamp := timestamp; a_app := "Idle"; a_title := "User inactive";
     a_category := "Idle"; a_duration := interval; a_is_typing := None |}.

(** The first half of [log_current_activity]: the entry for this sample.
    [probe] is what [WindowTracker.get_active_window_info()] returns. *)
Definition build_activity (timestamp : string) (now : Q)
    (probe : option window_info) (t : tracker) : activity * tracker :=
  if is_idle t
  then (idle_activity timestamp (sampling_interval t), print Logging_as_idle t)
  else
    let t := print (Current_window_info probe) t in
    match probe with
    | None =>
        (idle_activity timestamp (sampling_interval t), print No_window_info t)
    | Some w =>
        let category := categorize_activity (cfg t) (Some w) in
        let '(typing, t) := _check_typing_status now t in
        let title_suffix := if typing then " (typing)" else "" in
        ({| a_timestamp := timestamp; a_app := w_app w;
            a_title := w_title w +:+ title_suffix;
            a_category := category;
            a_duration := sampling_interval t;
            a_is_typing := Some typing |},
         print (Active_window (w_app w) (w_title w) typing) t)
    end.

(** The comparison of [log_current_activity]: same application and same
    title once the typing marker is removed from both. *)
Definition is_same_activity (current new : activity) : bool :=
  String.eqb (a_app current) (a_app new)
  && String.eqb (Str.strip_typing (a_title current))
                (Str.strip_typing (a_title new)).

(** What the merge does to [self.activities[-1]]. *)
Definition extend (interval : Z) (new last : activity) : activity :=
  {| a_timestamp := a_timestamp last;
     a_app := a_app last;
     a_title := match a_is_typing new with
                | Some _ => a_title new
                | None => a_title last
                end;
     a_category := a_category last;
     a_duration := a_duration last + interval;
     a_is_typing := match a_is_typing new with
                    | Some b => Some b
                    | None => a_is_typing last
                    end |}.

(** [l[-1] = f(l[-1])] on a non-empty list *)
Fixpoint update_last {A} (f : A -> A) (l : list A) : list A :=
  match l with
  | [] => []
  | [x] => [f x]
  | x :: rest => x :: update_last f rest
  end.

(** The test that guards the merge. *)
Definition continues (new : activity) (t : tracker) : bool :=
  negb (is_idle t)
  && match current_activity t with
     | Some current =>
         match activities t with
         | [] => false
         | _ :: _ => is_same_activity current new
         end
     | None => false
     end.

(** The second half of [log_current_activity].  After the merge the
    method returns at once; the file is written on the other path only.
    [current_activity] is kept by value: in the source it is the very
    [dict] stored last in [activities], and the one place that changes
    that [dict] assigns [current_activity] again right after. *)
Definition merge_or_append (new : activity) (t : tracker) : tracker :=
  if continues new t
  then
    let t := set_activities
               (update_last (extend (sampling_interval t) new) (activities t)) t in
    set_current_activity (last (activities t)) t
  else
    let t := set_activities (activities t ++ [new]) t in
    let t := set_current_activity (Some new) t in
    _save_activities t.

Definition log_current_activity (timestamp : string) (now : Q)
    (probe : option window_info) (t : tracker) : tracker :=
  let '(new, t) := build_activity timestamp now probe t in
  merge_or_append new t.

(** *** Idle detection *)

Definition check_idle_status (now : Q) (t : tracker) : bool * tracker :=
  let idle_duration := (now - last_activity_time t)%Q in
  if Qle_bool idle_threshold idle_duration
  then (true,
        if negb (is_idle t)
        then print (Now_idle idle_duration) (set_is_idle true t)
        else t)
  else (false, t).

(** *** The loop of [start_tracking] *)

(** What one pass of the loop reads from outside: the output of the two
    [xdotool] polls ([None]: the call raised), the clock, the time stamp
    and the window probe. *)
Record sample := {
  s_mouse : option string;
  s_window_title : option string;
  s_now : Q;
  s_timestamp : string;
  s_probe : option window_info
}.

(** The pointer poll.  [current_mouse] is the local variable of
    [start_tracking]; it is [None] until it is first assigned. *)
Definition poll_mouse (mouse : option string) (now : Q)
    (st : tracker * option string) : tracker * option string :=
  let '(t, current_mouse) := st in
  match mouse with
  | Some m =>
      (match _last_mouse_pos t with
       | None => set_last_mouse_pos (Some m) t
       | Some previous =>
           if negb (String.eqb m previous)
           then
             let t := print (Mouse_movement m previous) t in
             let t := set_last_activity_time now t in
             if is_idle t
             then print No_longer_idle_mouse (set_is_idle false t) else t
           else t
       end, Some m)
  | None => (print Mouse_error t, current_mouse)
  end.

(** The window title poll. *)
Definition poll_window_title (window_title : option string) (now : Q)
    (t : tracker) : tracker :=
  match window_title with
  | Some title =>
      match _last_window_title t with
      | None => set_last_window_title (Some title) t
      | Some previous =>
          if negb (String.eqb title previous)
          then
            let t := print Window_changed t in
            let t := set_last_activity_time now t in
            let t := set_last_window_title (Some title) t in
            if is_idle t
            then print No_longer_idle_window (set_is_idle false t) else t
          else t
      end
  | None => print Window_error t
  end.

(** One pass of the [while True] loop.  Reading [current_mouse] before
    its first assignment raises; the exception is caught by the handler
    around the pass, which prints and skips the rest of the pass. *)
Definition tracking_pass (s : sample) (st : tracker * option string)
    : tracker * option string :=
  let '(t, current_mouse) := poll_mouse (s_mouse s) (s_now s) st in
  let t := poll_window_title (s_window_title s) (s_now s) t in
  match current_mouse with
  | None => (print Tracking_error t, current_mouse)
  | Some m =>
      let t := set_last_mouse_pos (Some m) t in
      let '(_, t) := check_idle_status (s_now s) t in
      (log_current_activity (s_timestamp s) (s_now s) (s_probe s) t,
       current_mouse)
  end.

(** What happens to a running tracker: the listener thread delivers a
    key press, or the loop makes a pass. *)
Inductive event :=
| Key_press (now : Q)
| Pass (s : sample).

Definition step (e : event) (st : tracker * option string)
    : tracker * option string :=
  match e with
  | Key_press now => (_on_key_press now (fst st), snd st)
  | Pass s => tracking_pass s st
  end.

Definition run (events : list event) (st : tracker * option string)
    : tracker * option string :=
  fold_left (fun st e => step e st) events st.

(** ** What the classifier has to do, in the words of its description *)

(** The application is one of the ignored ones, letter case aside. *)
Definition ignored (conf : config) (w : window_info) : Prop :=
  exists x, In x (ignored_apps conf) /\ Str.lower x = Str.lower (w_app w).

(** One of the keywords occurs in the application name, letter case
    aside. *)
Definition keyword_occurs (keywords : list string) (w : window_info) : Prop :=
  exists k, In k keywords /\ Str.occurs (Str.lower k) (Str.lower (w_app w)).

Definition documents_title (title : string) : Prop :=
  Str.occurs "document" title \/ Str.occurs ".doc" title
  \/ Str.occurs ".txt" title.

Definition coding_title (title : string) : Prop :=
  Str.occurs "code" title \/ Str.occurs "script" title
  \/ exists ext, In ext source_extensions /\ Str.occurs ext title.

(** The fixed tests on the lower-cased title, the first that holds. *)
Inductive title_heuristic (title : string) : string -> Prop :=
| heuristic_mail :
    Str.occurs "mail" title -> title_heuristic title "Communication"
| heuristic_documents :
    ~ Str.occurs "mail" title -> documents_title title ->
    title_heuristic title "Documents"
| heuristic_coding :
    ~ Str.occurs "mail" title -> ~ documents_title title ->
    coding_title title -> title_heuristic title "Coding"
| heuristic_other :
    ~ Str.occurs "mail" title -> ~ documents_title title ->
    ~ coding_title title -> title_heuristic title "Other".

Inductive classify (conf : config) : option window_info -> string -> Prop :=
| classify_absent : classify conf None "Idle"
| classify_system w :
    ignored conf w -> classify conf (Some w) "System"
| classify_configured w before category keywords after :
    ~ ignored conf w ->
    categories conf = before ++ (category, keywords) :: after ->
    Forall (fun entry => ~ keyword_occurs (snd entry) w) before ->
    keyword_occurs keywords w ->
    classify conf (Some w) category
| classify_title w category :
    ~ ignored conf w ->
    Forall (fun entry => ~ keyword_occurs (snd entry) w) (categories conf) ->
    title_heuristic (Str.lower (w_title w)) category ->
    classify conf (Some w) category.

(** The configuration and the observation of scenario D. *)
Definition scenario_D_config : config :=
  {| track_applications := true; track_documents := true;
     ignored_apps := [];
     categories := [("Coding", ["vscode"])];
     sampling_interval_opt := Some 30 |}.

Definition scenario_D_window : window_info :=
  {| w_app := "Code.exe"; w_title := "main.py — VS Code"; w_pid := None |}.

(** ** Notions used to state the properties of the engine *)

(** A tracker that has just started in an empty directory, with the
    default configuration (a sample every 30 seconds) and a running
    keyboard listener. *)
Definition started : tracker :=
  _start_keyboard_monitoring true
    (blank "/home/user/.activity_tracker" ConfigManager.DEFAULT_CONFIG
       "2024-05-06" 0 ∅).

Definition window (app title : string) : window_info :=
  {| w_app := app; w_title := title; w_pid := None |}.

(** The timeline part of two trackers is the same; every other
    attribute may differ. *)
Definition same_timeline (a b : tracker) : Prop :=
  activities a = activities b
  /\ current_activity a = current_activity b
  /\ sampling_interval a = sampling_interval b.

(** The window [(app, title)] does not continue what the tracker
    recorded last. *)
Definition starts_span (app title : string) (t : tracker) : Prop :=
  match current_activity t with
  | None => True
  | Some current =>
      activities t = []
      \/ a_app current <> app
      \/ Str.strip_typing (a_title current) <> Str.strip_typing title
  end.

(** [span app title n t t']: [n] samples in a row, none of them taken in
    the idle state, all observing the window [(app, title)], lead from
    [t] to [t'].  The first of them starts a new span.  Between two
    samples the other attributes of the tracker may change in any way
    (key presses, polls, the clock). *)
Inductive span (app title : string) : nat -> tracker -> tracker -> Prop :=
| span_first t timestamp now pid :
    is_idle t = false ->
    starts_span app title t ->
    span app title 1 t
      (log_current_activity timestamp now
         (Some {| w_app := app; w_title := title; w_pid := pid |}) t)
| span_next n t0 t1 t2 timestamp now pid :
    span app title n t0 t1 ->
    same_timeline t1 t2 ->
    is_idle t2 = false ->
    span app title (S n) t0
      (log_current_activity timestamp now
         (Some {| w_app := app; w_title := title; w_pid := pid |}) t2).

(** An entry with the fields the idle state synthesizes. *)
Definition looks_idle (a : activity) : Prop :=
  a_app a = "Idle" /\ Str.strip_typing (a_title a) = "User inactive".

(** The flags a list of typing queries returns, oldest first, and the
    tracker after them. *)
Fixpoint typing_queries (times : list Q) (t : tracker) : list bool * tracker :=
  match times with
  | [] => ([], t)
  | now :: later =>
      let '(flag, t) := _check_typing_status now t in
      let '(flags, t) := typing_queries later t in
      (flag :: flags, t)
  end.

(** The clock does not run backwards. *)
Fixpoint nondecreasing (times : list Q) : Prop :=
  match times with
  | [] => True
  | a :: later =>
      match later with
      | [] => True
      | b :: _ => (a <= b)%Q
      end /\ nondecreasing later
  end.

(** How often a line was printed. *)
Definition is_idle_exit_line (m : message) : bool :=
  match m with
  | No_longer_idle_keyboard | No_longer_idle_mouse | No_longer_idle_window => true
  | _ => false
  end.

Definition count_lines (p : message -> bool) (t : tracker) : nat :=
  List.length (List.filter p (stdout t)).

(** What [build_activity] leaves alone. *)
Definition same_store (a b : tracker) : Prop :=
  activities a = activities b
  /\ current_activity a = current_activity b
  /\ sampling_interval a = sampling_interval b
  /\ is_idle a = is_idle b
  /\ files a = files b
  /\ config_path a = config_path b
  /\ today_date a = today_date b.

(** The entries before the last one of [l] are still there, in place,
    before the last one of [l']. *)
Definition keeps_earlier (l l' : list activity) : Prop :=
  removelast l `prefix_of` removelast l'.

(** The samples of the scenarios. *)
Definition editor_file : window_info := window "Editor" "file.py".
Definition editor_a : window_info := window "Editor" "a.py".

(** A window whose application and title are the ones the idle state
    writes. *)
Definition idle_named : window_info := window "Idle" "User inactive".

(** Nothing moves for forty seconds, with that window in front. *)
Definition quiet_sample : sample :=
  {| s_mouse := Some "x:10 y:10 screen:0 window:1";
     s_window_title := Some "User inactive";
     s_now := 40; s_timestamp := "2024-05-06T09:00:40";
     s_probe := Some idle_named |}.

(** The same window five seconds after a key was pressed. *)
Definition back_sample : sample :=
  {| s_mouse := Some "x:10 y:10 screen:0 window:1";
     s_window_title := Some "User inactive";
     s_now := 105; s_timestamp := "2024-05-06T09:01:45";
     s_probe := Some idle_named |}.

(** A pass in which the pointer is read and no window is found: the
    title poll raises and the window probe returns nothing. *)
Definition lost_window (now : Q) (timestamp : string) : sample :=
  {| s_mouse := Some "x:10 y:10 screen:0 window:1";
     s_window_title := None;
     s_now := now; s_timestamp := timestamp;
     s_probe := None |}.

(** A pass that finds the window named like the idle entry. *)
Definition named_window (now : Q) (timestamp : string) : sample :=
  {| s_mouse := Some "x:10 y:10 screen:0 window:1";
     s_window_title := Some "User inactive";
     s_now := now; s_timestamp := timestamp;
     s_probe := Some idle_named |}.

(** ** Notions used to state further properties of the engine *)

(** The seconds a timeline accounts for. *)
Definition total_duration (l : list activity) : Z :=
  fold_right (fun a sum => a_duration a + sum) 0 l.

(** [current_activity], when set, is the entry stored last. *)
Definition current_is_last (t : tracker) : Prop :=
  forall current, current_activity t = Some current ->
                  last (activities t) = Some current.

(** Every entry lasts a whole number of sampling intervals, one at least. *)
Definition whole_intervals (interval : Z) (l : list activity) : Prop :=
  Forall (fun a => exists k, 1 <= k /\ a_duration a = k * interval) l.

(** Two entries of one span: the same start, application and category. *)
Definition same_span (a b : activity) : Prop :=
  a_timestamp a = a_timestamp b /\ a_app a = a_app b
  /\ a_category a = a_category b.

(** The timeline [on_disk] is the timeline [in_memory] as it was when its
    last entry was appended: the same entries before the last one, and a
    last entry of the same span. *)
Definition lags_by_merges (on_disk in_memory : list activity) : Prop :=
  removelast on_disk = removelast in_memory
  /\ exists a b, last on_disk = Some a /\ last in_memory = Some b
                 /\ same_span a b.

(** The day's file holds the timeline of some earlier moment of the
    span recorded last. *)
Definition file_lags_by_merges (t : tracker) : Prop :=
  exists on_disk,
    files t !! today_log t = Some (timeline_text on_disk)
    /\ lags_by_merges on_disk (activities t).

(** What the events of a run leave alone unless a sample is logged. *)
Definition same_log (a b : tracker) : Prop :=
  activities a = activities b
  /\ current_activity a = current_activity b
  /\ sampling_interval a = sampling_interval b
  /\ files a = files b
  /\ config_path a = config_path b
  /\ today_date a = today_date b.

(** The pointer poll of the event fails (a key press has none). *)
Definition mouse_poll_fails (e : event) : Prop :=
  match e with
  | Key_press _ => True
  | Pass s => s_mouse s = None
  end.

(** The passes among the events. *)
Definition passes (events : list event) : nat :=
  List.length (List.filter (fun e => match e with Pass _ => true | _ => false end)
                 events).

(** The poll saw nothing new: it failed, it was the first one, or it
    returned what the poll before it returned. *)
Definition unchanged (polled previous : option string) : Prop :=
  polled = None \/ previous = None \/ polled = previous.

(** ** The two earlier variants of the tracker ([bkp/main.py], [bkp/main_v2.py]) *)

(** [self.activities[-1]['duration'] += self.sampling_interval] *)
Definition lengthen (interval : Z) (last : activity) : activity :=
  {| a_timestamp := a_timestamp last; a_app := a_app last;
     a_title := a_title last; a_category := a_category last;
     a_duration := a_duration last + interval;
     a_is_typing := a_is_typing last |}.

(** The entry both variants build for a window: no typing key. *)
Definition window_activity (timestamp : string) (w : window_info)
    (t : tracker) : activity :=
  {| a_timestamp := timestamp; a_app := w_app w; a_title := w_title w;
     a_category := categorize_activity (cfg t) (Some w);
     a_duration := sampling_interval t; a_is_typing := None |}.

(** The comparison of both variants: the application and the title of
    the current entry are those of the window. *)
Definition same_window (current : activity) (w : window_info) : bool :=
  String.eqb (a_app current) (w_app w)
  && String.eqb (a_title current) (w_title w).

(** The two branches after the comparison, and the save that follows
    both. *)
Definition extend_and_save (t : tracker) : tracker :=
  let t := set_activities
             (update_last (lengthen (sampling_interval t)) (activities t)) t in
  _save_activities (set_current_activity (last (activities t)) t).

Definition append_and_save (new : activity) (t : tracker) : tracker :=
  let t := set_activities (activities t ++ [new]) t in
  _save_activities (set_current_activity (Some new) t).

Module MainV1.

(** [log_current_activity] of [bkp/main.py]: without a window the method
    returns at once. *)
Definition log_current_activity (timestamp : string)
    (probe : option window_info) (t : tracker) : tracker :=
  match probe with
  | None => t
  | Some w =>
      let new := window_activity timestamp w t in
      match current_activity t, activities t with
      | Some current, _ :: _ =>
          if same_window current w then extend_and_save t
          else append_and_save new t
      | _, _ => append_and_save new t
      end
  end.

End MainV1.

Module MainV2.

(** How a sample of [bkp/main_v2.py] ends: with the tracker after it, or
    with the [TypeError] of subscripting [None]. *)
Inductive sampled :=
| Sampled (t : tracker)
| Raises_TypeError.

(** [log_current_activity] of [bkp/main_v2.py]: without a window the idle
    entry is built, and the comparison then reads [window_info['app']]. *)
Definition log_current_activity (timestamp : string)
    (probe : option window_info) (t : tracker) : sampled :=
  let new := match probe with
             | None => idle_activity timestamp (sampling_interval t)
             | Some w => window_activity timestamp w t
             end in
  match current_activity t, activities t with
  | Some current, _ :: _ =>
      match probe with
      | None => Raises_TypeError
      | Some w =>
          if same_window current w then Sampled (extend_and_save t)
          else Sampled (append_and_save new t)
      end
  | _, _ => Sampled (append_and_save new t)
  end.

End MainV2.

(** ** The configuration file ([ConfigManager.load_config], [save_config]) *)

Definition strings_to_json (l : list string) : Json.value :=
  Json.Arr (map Json.Str l).

(** The configuration as the [dict] of [DEFAULT_CONFIG] is laid out. *)
Definition config_to_json (c : config) : Json.value :=
  Json.Obj
    ([ ("track_applications", Json.Bool (track_applications c));
       ("track_documents", Json.Bool (track_documents c));
       ("ignored_apps", strings_to_json (ignored_apps c));
       ("categories",
        Json.Obj (map (fun entry => (fst entry, strings_to_json (snd entry)))
                    (categories c))) ]
     ++ match sampling_interval_opt c with
        | Some z => [ ("sampling_interval", Json.Int z) ]
        | None => []
        end).

(** The text [json.dump(config, f, indent=4)] writes. *)
Definition config_text (c : config) : string :=
  Json.dump 0 (config_to_json c).

Definition strings_of_json (v : Json.value) : option (list string) :=
  match v with
  | Json.Arr items => mapM as_str items
  | _ => None
  end.

Definition categories_of_json (v : Json.value)
    : option (list (string * list string)) :=
  match v with
  | Json.Obj members =>
      mapM (fun m => keywords ← strings_of_json (snd m); Some (fst m, keywords))
        members
  | _ => None
  end.

(** The configuration a decoded object stands for. *)
Definition config_of_json (v : Json.value) : option config :=
  match v with
  | Json.Obj (m1 :: m2 :: m3 :: m4 :: rest) =>
      applications ← member "track_applications" m1 ≫= as_bool;
      documents ← member "track_documents" m2 ≫= as_bool;
      ignored ← member "ignored_apps" m3 ≫= strings_of_json;
      cats ← member "categories" m4 ≫= categories_of_json;
      interval ← match rest with
                 | [] => Some None
                 | [m5] => Some <$> (member "sampling_interval" m5 ≫= as_int)
                 | _ => None
                 end;
      Some {| track_applications := applications;
              track_documents := documents;
              ignored_apps := ignored; categories := cats;
              sampling_interval_opt := interval |}
  | _ => None
  end.

(** [save_config(config)] on the file [config_file]. *)
Definition save_config (config_file : string) (c : config)
    (disk : gmap string string) : gmap string string :=
  <[config_file := config_text c]> disk.

(** [load_config()]: the configuration and the files after the call.
    Without a file the default is written and returned; what [json.load]
    raises on the text of a file is not caught. *)
Definition load_config (config_file : string) (disk : gmap string string)
    : result (config * gmap string string) :=
  match disk !! config_file with
  | Some text =>
      match Json.loads text with
      | Json.Parsed v =>
          match config_of_json v with
          | Some c => Returns (c, disk)
          | None => Not_modelled
          end
      | Json.Invalid => Raises JSONDecodeError
      | Json.Unsupported => Not_modelled
      end
  | None =>
      Returns (ConfigManager.DEFAULT_CONFIG,
               save_config config_file ConfigManager.DEFAULT_CONFIG disk)
  end.

(** ** The daily report ([ReportGenerator.generate_daily_report]) *)

(** [d[k] = d.get(k, 0) + v] on a [dict] kept as the list of its items. *)
Fixpoint dict_add (k : string) (v : Z) (d : list (string * Z))
    : list (string * Z) :=
  match d with
  | [] => [(k, 0 + v)]
  | (k', v') :: rest =>
      if String.eqb k k' then (k', v' + v) :: rest
      else (k', v') :: dict_add k v rest
  end.

(** [d.get(k, 0)] *)
Fixpoint dict_get (k : string) (d : list (string * Z)) : Z :=
  match d with
  | [] => 0
  | (k', v') :: rest => if String.eqb k k' then v' else dict_get k rest
  end.

(** [sum(a['duration'] for a in activities)] *)
Definition sum_durations (l : list activity) : Z :=
  fold_left (fun sum a => sum + a_duration a) l 0.

(** The loop that fills [category_times] and [app_times]. *)
Definition times_by (key : activity -> string) (l : list activity)
    : list (string * Z) :=
  fold_left (fun d a => dict_add (key a) (a_duration a) d) l [].

(** [not activities] for a decoded value. *)
Definition falsy (v : Json.value) : bool :=
  match v with
  | Json.Null | Json.Bool false | Json.Int 0 | Json.Str EmptyString
  | Json.Arr [] | Json.Obj [] => true
  | _ => false
  end.

(** What [generate_daily_report] has when it starts to lay out the text:
    one of its two short answers, or the total and the two tables the
    report is written from. *)
Inductive daily_report :=
| Answer (text : string)
| Tables (total_time : Z) (category_times app_times : list (string * Z)).

(** [generate_daily_report(date)] up to the line that starts the layout of
    the text ([directory] is the configuration directory). *)
Definition generate_daily_report (directory date : string)
    (disk : gmap string string) : result daily_report :=
  match disk !! ConfigManager.get_log_path directory date with
  | None => Returns (Answer ("No activities logged for " +:+ date +:+ "."))
  | Some text =>
      match Json.loads text with
      | Json.Invalid =>
          Returns (Answer ("Error: Invalid activity data for " +:+ date +:+ "."))
      | Json.Unsupported => Not_modelled
      | Json.Parsed v =>
          if falsy v
          then Returns (Answer ("No activities logged for " +:+ date +:+ "."))
          else
            match timeline_of_json v with
            | Some l =>
                Returns (Tables (sum_durations l) (times_by a_category l)
                           (times_by a_app l))
            | None => Not_modelled
            end
      end
  end.

(** The values of a table, added up. *)
Definition sum_values (d : list (string * Z)) : Z :=
  fold_right (fun kv sum => snd kv + sum) 0 d.

(** The entries whose key is [k]. *)
Definition entries_with (key : activity -> string) (k : string)
    (l : list activity) : list activity :=
  List.filter (fun a => String.eqb k (key a)) l.

(** ** The window probe on macOS ([WindowTracker._get_macos_info]) *)

Module MacProbe.

(** [c.isspace()] for an ASCII character. *)
Definition is_space (c : ascii) : bool :=
  let n := N_of_ascii c in
  (((9 <=? n) && (n <=? 13)) || ((28 <=? n) && (n <=? 32)))%N.

(** [s.lstrip()] *)
Fixpoint lstrip (s : string) : string :=
  match s with
  | EmptyString => EmptyString
  | String c rest => if is_space c then lstrip rest else s
  end.

(** [s.rstrip()] *)
Fixpoint rstrip (s : string) : string :=
  match s with
  | EmptyString => EmptyString
  | String c rest =>
      match rstrip rest with
      | EmptyString => if is_space c then EmptyString else String c EmptyString
      | kept => String c kept
      end
  end.

(** [s.strip()] *)
Definition strip (s : string) : string := rstrip (lstrip s).

(** [s.split(sep)] for a non-empty [sep], scanning from the left: where
    [sep] starts, the piece read so far is closed and the characters of
    [sep] are skipped ([skip] counts the ones still to drop). *)
Fixpoint split_from (sep : string) (skip : nat) (piece s : string)
    : list string :=
  match s with
  | EmptyString => [piece]
  | String c rest =>
      match skip with
      | S k => split_from sep k piece rest
      | O =>
          if Str.startswith sep s
          then piece :: split_from sep (Nat.pred (String.length sep))
                          EmptyString rest
          else split_from sep 0 (piece +:+ String c EmptyString) rest
      end
  end.

Definition split (sep s : string) : list string :=
  split_from sep 0 EmptyString s.

(** [_get_macos_info], given the exit status and the output of
    [osascript]. *)
Definition _get_macos_info (returncode : Z) (stdout : string)
    : option window_info :=
  if returncode =? 0
  then
    match split ", " (strip stdout) with
    | app :: title :: _ =>
        Some {| w_app := app; w_title := title; w_pid := None |}
    | _ => None
    end
  else None.

End MacProbe.

(** ** Notions used to state the round trip of the JSON text *)

Module JsonDefs.
Import Json.

(** The number of values in a value, counting each item and member once
    more: fuel enough for the decoder to read the value back. *)
Fixpoint size (v : value) : nat :=
  match v with
  | Arr l => S (list_sum (List.map (fun x => S (size x)) l))
  | Obj m => S (list_sum (List.map (fun kv => S (size (snd kv))) m))
  | _ => 1
  end.

Definition items_size (l : list value) : nat :=
  list_sum (List.map (fun x => S (size x)) l).

Definition members_size (m : list (string * value)) : nat :=
  list_sum (List.map (fun kv => S (size (snd kv))) m).

(** No object of the value has the same key twice: the value is one that
    a Python [dict] can hold. *)
Inductive distinct_keys : value -> Prop :=
| distinct_null : distinct_keys Null
| distinct_bool b : distinct_keys (Bool b)
| distinct_int z : distinct_keys (Int z)
| distinct_str s : distinct_keys (Str s)
| distinct_arr l : Forall distinct_keys l -> distinct_keys (Arr l)
| distinct_obj m :
    NoDup (List.map fst m) ->
    Forall (fun kv => distinct_keys (snd kv)) m ->
    distinct_keys (Obj m).

(** The text after a written value: nothing, a comma or a line break. *)
Definition delimited (rest : string) : Prop :=
  match rest with
  | EmptyString => True
  | String c _ => c = ","%char \/ c = ascii_of_N 10
  end.

(** A member as [dump] writes it at nesting level [level]. *)
Definition dump_member (level : nat) (member : string * value) : string :=
  let '(k, y) := member in dump_string k +:+ ": " +:+ dump level y.

(** A written value is read back by a decoder with fuel for its size,
    whatever delimited text follows it. *)
Definition reads_back (v : value) : Prop :=
  forall (level fuel : nat) (rest : string),
    (size v <= fuel)%nat -> delimited rest ->
    parse_value fuel (dump level v +:+ rest) = Parsed (v, rest).

End JsonDefs.

(** ** Facts about the string operations *)

Module StrFacts.
Import Str.

Lemma app_assoc (a b c : string) : (a +:+ b) +:+ c = a +:+ (b +:+ c).
Proof. induction a as [|x a IH]; simpl; [reflexivity | now rewrite IH]. Qed.

Lemma app_empty_r (a : string) : a +:+ "" = a.
Proof. induction a as [|x a IH]; simpl; [reflexivity | now rewrite IH]. Qed.

Lemma length_app (a b : string) :
  String.length (a +:+ b) = (String.length a + String.length b)%nat.
Proof. induction a as [|x a IH]; simpl; [reflexivity | now rewrite IH]. Qed.

Lemma app_cons (c : ascii) (a b : string) :
  String c a +:+ b = String c (a +:+ b).
Proof. reflexivity. Qed.

Lemma startswith_cons_cons (a b : ascii) (p s : string) :
  startswith (String a p) (String b s) = Ascii.eqb a b && startswith p s.
Proof. reflexivity. Qed.

(** From [H : startswith (String a p) (String b s) = true], about a
    longer text, to the same goal about [p] and the rest of the text. *)
Ltac match_first_char H :=
  let Hc := fresh "Hc" in
  rewrite startswith_cons_cons in H; rewrite startswith_cons_cons;
  apply andb_true_iff in H as [Hc H]; rewrite Hc; clear Hc; cbn [andb].

Lemma startswith_app (p rest : string) : startswith p (p +:+ rest) = true.
Proof.
  induction p as [|c p IH]; simpl; [reflexivity|].
  now rewrite Ascii.eqb_refl.
Qed.

Lemma startswith_inv (p s : string) :
  startswith p s = true -> exists rest, s = p +:+ rest.
Proof.
  revert s; induction p as [|c p IH]; intros s H.
  - now exists s.
  - destruct s as [|d s]; simpl in H; [discriminate|].
    apply andb_true_iff in H as [Hc Hp].
    apply Ascii.eqb_eq in Hc; subst d.
    destruct (IH _ Hp) as [rest ->]. now exists rest.
Qed.

Lemma startswith_weaken (p s more : string) :
  startswith p s = true -> startswith p (s +:+ more) = true.
Proof.
  intros H. destruct (startswith_inv _ _ H) as [rest ->].
  rewrite app_assoc. apply startswith_app.
Qed.

Lemma contains_cons (needle : string) (c : ascii) (rest : string) :
  contains needle (String c rest)
  = startswith needle (String c rest) || contains needle rest.
Proof. reflexivity. Qed.

(** [needle in hay] holds exactly when the needle occurs in the hay. *)
Lemma contains_occurs (needle hay : string) :
  contains needle hay = true <-> occurs needle hay.
Proof.
  split.
  - induction hay as [|c hay IH]; intros H.
    + simpl in H. rewrite orb_false_r in H.
      destruct (startswith_inv _ _ H) as [rest E].
      exists "", rest. exact E.
    + rewrite contains_cons in H. apply orb_true_iff in H as [H|H].
      * destruct (startswith_inv _ _ H) as [rest E]. exists "", rest. exact E.
      * destruct (IH H) as (pre & post & ->).
        now exists (String c pre), post.
  - intros (pre & post & ->).
    induction pre as [|c pre IH].
    + simpl. destruct (needle +:+ post) eqn:E.
      * simpl. rewrite <- E, startswith_app. reflexivity.
      * rewrite contains_cons, <- E, startswith_app. reflexivity.
    + change (String c pre +:+ needle +:+ post)
        with (String c (pre +:+ needle +:+ post)).
      rewrite contains_cons, IH. apply orb_true_r.
Qed.

Lemma contains_false (needle hay : string) :
  contains needle hay = false <-> ~ occurs needle hay.
Proof.
  rewrite <- contains_occurs. destruct (contains needle hay); split;
    intros H; congruence || (exfalso; now apply H) || (intros ?; congruence).
Qed.

Lemma remove_from_cons (old : string) (c : ascii) (rest : string) :
  remove_from old 0 (String c rest)
  = if startswith old (String c rest)
    then remove_from old (Nat.pred (String.length old)) rest
    else String c (remove_from old 0 rest).
Proof. reflexivity. Qed.

(** A text that starts with the marker loses it. *)
Lemma strip_typing_prefix (s : string) :
  strip_typing (typing_suffix +:+ s) = strip_typing s.
Proof. reflexivity. Qed.

(** The marker does not overlap itself: if it starts a text that ends
    with the marker, the text is the marker alone or starts with it
    before its last nine characters. *)
Lemma typing_suffix_no_overlap (s : string) :
  startswith typing_suffix (s +:+ typing_suffix) = true ->
  s = "" \/ startswith typing_suffix s = true.
Proof.
  intros H.
  destruct s as [|c s]; [now left|right].
  unfold typing_suffix at 1 in H. unfold typing_suffix at 1.
  rewrite app_cons in H. match_first_char H.
  repeat (destruct s as [|? s];
          [ vm_compute in H; discriminate
          | rewrite app_cons in H; match_first_char H ]).
  reflexivity.
Qed.

Lemma strip_typing_suffix_bounded (n : nat) (s : string) :
  (String.length s <= n)%nat ->
  strip_typing (s +:+ typing_suffix) = strip_typing s.
Proof.
  revert s; induction n as [|n IH]; intros s Hn.
  - destruct s; [reflexivity | simpl in Hn; lia].
  - destruct s as [|c s]; [reflexivity|].
    unfold strip_typing in *.
    change (String c s +:+ typing_suffix) with (String c (s +:+ typing_suffix)).
    destruct (startswith typing_suffix (String c s)) eqn:E.
    + destruct (startswith_inv _ _ E) as [rest Hrest].
      change (String c (s +:+ typing_suffix))
        with (String c s +:+ typing_suffix).
      rewrite Hrest, app_assoc.
      change (strip_typing (typing_suffix +:+ rest +:+ typing_suffix)
              = strip_typing (typing_suffix +:+ rest)).
      rewrite !strip_typing_prefix. apply IH.
      apply (f_equal String.length) in Hrest.
      rewrite length_app in Hrest. simpl in Hrest, Hn. lia.
    + rewrite !remove_from_cons, E.
      destruct (startswith typing_suffix (String c (s +:+ typing_suffix))) eqn:E'.
      * apply (typing_suffix_no_overlap (String c s)) in E' as [E'|E'];
          congruence.
      * f_equal. apply IH. simpl in Hn. lia.
Qed.

(** Removing the marker gives the same text whether or not the title
    carries the marker at its end. *)
Lemma strip_typing_suffix (s : string) :
  strip_typing (s +:+ typing_suffix) = strip_typing s.
Proof. now apply (strip_typing_suffix_bounded (String.length s)). Qed.

End StrFacts.

(** ** The classifier *)

Section Classification.

Variable conf : config.

Lemma ignored_test (w : window_info) :
  existsb (String.eqb (Str.lower (w_app w))) (map Str.lower (ignored_apps conf))
  = true <-> ignored conf w.
Proof.
  rewrite existsb_exists. split.
  - intros (y & Hy & E). apply in_map_iff in Hy as (x & <- & Hx).
    apply String.eqb_eq in E. now exists x.
  - intros (x & Hx & E). exists (Str.lower x). split.
    + now apply in_map.
    + apply String.eqb_eq. now symmetry.
Qed.

Lemma any_keyword_in_occurs (keywords : list string) (w : window_info) :
  any_keyword_in keywords (Str.lower (w_app w)) = true
  <-> keyword_occurs keywords w.
Proof.
  unfold any_keyword_in, keyword_occurs. rewrite existsb_exists.
  split; intros (k & Hk & H); exists k; split; trivial;
    now apply StrFacts.contains_occurs.
Qed.

Lemma any_keyword_in_none (keywords : list string) (w : window_info) :
  any_keyword_in keywords (Str.lower (w_app w)) = false
  <-> ~ keyword_occurs keywords w.
Proof.
  rewrite <- any_keyword_in_occurs.
  destruct (any_keyword_in keywords _); split; intros H;
    congruence || (exfalso; now apply H) || (intros ?; congruence).
Qed.

(** The loop returns the first category that has a keyword in the name. *)
Lemma first_category_first (w : window_info)
    (before after : list (string * list string))
    (category : string) (keywords : list string) :
  Forall (fun entry => ~ keyword_occurs (snd entry) w) before ->
  keyword_occurs keywords w ->
  first_category (before ++ (category, keywords) :: after) (Str.lower (w_app w))
  = Some category.
Proof.
  intros Hbefore Hk. induction Hbefore as [|[c kws] rest Hc _ IH]; simpl.
  - apply any_keyword_in_occurs in Hk. now rewrite Hk.
  - apply any_keyword_in_none in Hc. simpl in Hc. now rewrite Hc.
Qed.

Lemma first_category_none (w : window_info) (cats : list (string * list string)) :
  Forall (fun entry => ~ keyword_occurs (snd entry) w) cats ->
  first_category cats (Str.lower (w_app w)) = None.
Proof.
  intros H. induction H as [|[c kws] rest Hc _ IH]; simpl; [reflexivity|].
  apply any_keyword_in_none in Hc. simpl in Hc. now rewrite Hc.
Qed.

Lemma first_category_some (w : window_info) (cats : list (string * list string))
    (category : string) :
  first_category cats (Str.lower (w_app w)) = Some category ->
  exists before keywords after,
    cats = before ++ (category, keywords) :: after
    /\ Forall (fun entry => ~ keyword_occurs (snd entry) w) before
    /\ keyword_occurs keywords w.
Proof.
  induction cats as [|[c kws] rest IH]; simpl; [discriminate|].
  destruct (any_keyword_in kws _) eqn:E.
  - intros [= ->]. exists [], kws, rest. repeat split; [constructor|].
    now apply any_keyword_in_occurs.
  - intros H. destruct (IH H) as (before & keywords & after & -> & Hb & Hk).
    exists ((c, kws) :: before), keywords, after. repeat split; trivial.
    constructor; trivial. now apply any_keyword_in_none.
Qed.

Lemma first_category_none_inv (w : window_info)
    (cats : list (string * list string)) :
  first_category cats (Str.lower (w_app w)) = None ->
  Forall (fun entry => ~ keyword_occurs (snd entry) w) cats.
Proof.
  induction cats as [|[c kws] rest IH]; simpl; [constructor|].
  destruct (any_keyword_in kws _) eqn:E; [discriminate|].
  intros H. constructor; [now apply any_keyword_in_none | now apply IH].
Qed.

End Classification.

(** A title that has [email] in it has [mail] in it. *)
Lemma email_is_mail (title : string) :
  Str.contains "email" title || Str.contains "mail" title
  = Str.contains "mail" title.
Proof.
  destruct (Str.contains "mail" title) eqn:M; [apply orb_true_r|].
  rewrite orb_false_r.
  destruct (Str.contains "email" title) eqn:E; [|reflexivity].
  apply StrFacts.contains_occurs in E as (pre & post & ->).
  apply StrFacts.contains_false in M. exfalso. apply M.
  exists (pre +:+ "e"), post.
  now rewrite !StrFacts.app_assoc.
Qed.

Lemma documents_test (title : string) :
  Str.contains "document" title || Str.contains ".doc" title
  || Str.contains ".txt" title = true <-> documents_title title.
Proof.
  unfold documents_title.
  rewrite !orb_true_iff, !StrFacts.contains_occurs. tauto.
Qed.

Lemma coding_test (title : string) :
  Str.contains "code" title || Str.contains "script" title
  || existsb (fun ext => Str.contains ext title) source_extensions = true
  <-> coding_title title.
Proof.
  unfold coding_title.
  rewrite !orb_true_iff, !StrFacts.contains_occurs, existsb_exists.
  split.
  - intros [[H|H]|(ext & Hin & H)]; [tauto | tauto |].
    right; right. exists ext. split; trivial.
    now apply StrFacts.contains_occurs.
  - intros [H|[H|(ext & Hin & H)]]; [tauto | tauto |].
    right. exists ext. split; trivial.
    now apply StrFacts.contains_occurs.
Qed.

(** The tests on the title are the heuristics, in their order. *)
Lemma title_category_heuristic (title category : string) :
  title_category title = category <-> title_heuristic title category.
Proof.
  unfold title_category. rewrite email_is_mail.
  destruct (Str.contains "mail" title) eqn:M.
  { apply StrFacts.contains_occurs in M. split.
    - intros <-. now constructor.
    - intros H; inversion H; subst; tauto. }
  apply StrFacts.contains_false in M.
  match goal with |- context [if ?b then _ else _] => destruct b eqn:D end.
  { apply documents_test in D. split.
    - intros <-. now constructor.
    - intros H; inversion H; subst; tauto. }
  assert (D' : ~ documents_title title)
    by (intros H; apply documents_test in H; congruence).
  match goal with |- context [if ?b then _ else _] => destruct b eqn:C end.
  { apply coding_test in C. split.
    - intros <-. now constructor.
    - intros H; inversion H; subst; tauto. }
  assert (C' : ~ coding_title title)
    by (intros H; apply coding_test in H; congruence).
  split.
  - intros <-. now constructor.
  - intros H; inversion H; subst; tauto.
Qed.

(** C6. For every observation and configuration [categorize_activity]
    returns the category the description names: [Idle] for no
    observation, [System] for an ignored application (letter case
    aside), else the first configured category, in the order of the
    configuration, one of whose keywords occurs in the application name
    (letter case aside), else the first title heuristic that holds (mail,
    then document/.doc/.txt, then code/script/a source extension), else
    [Other].  In scenario D the application stage finds nothing and the
    title gives [Coding]. *)
Theorem categorize_activity_classifies :
  (forall (conf : config) (observation : option window_info) (category : string),
      categorize_activity conf observation = category
      <-> classify conf observation category)
  /\ first_category (categories scenario_D_config)
       (Str.lower (w_app scenario_D_window)) = None
  /\ categorize_activity scenario_D_config (Some scenario_D_window) = "Coding".
Proof.
  split; [|split; reflexivity].
  intros conf [w|] category; simpl.
  2:{ split; [intros <-; constructor | intros H; now inversion H]. }
  destruct (existsb _ _) eqn:I.
  { apply ignored_test in I. split.
    - intros <-. now constructor.
    - intros H; inversion H; subst; tauto. }
  assert (I' : ~ ignored conf w)
    by (intros H; apply ignored_test in H; congruence).
  destruct (first_category _ _) as [c|] eqn:F.
  - split.
    + intros <-.
      destruct (first_category_some _ _ _ F) as (b & k & a & E & Hb & Hk).
      now apply (classify_configured conf w b c k a).
    + intros H; inversion H; subst.
      * tauto.
      * match goal with E : categories conf = _ |- _ => rewrite E in F end.
        rewrite first_category_first in F by assumption. congruence.
      * rewrite first_category_none in F by assumption. discriminate.
  - apply first_category_none_inv in F as Hnone. split.
    + intros <-. apply classify_title; trivial.
      now apply title_category_heuristic.
    + intros H; inversion H; subst.
      * tauto.
      * match goal with E : categories conf = _ |- _ => rewrite E in F end.
        rewrite first_category_first in F by assumption. discriminate.
      * now apply title_category_heuristic.
Qed.

(** ** The sampling engine *)

Lemma check_typing_same_store (now : Q) (t : tracker) :
  same_store (snd (_check_typing_status now t)) t.
Proof.
  unfold _check_typing_status, same_store.
  destruct (keyboard_listener t); simpl; [|tauto].
  destruct (is_typing t && _); simpl; tauto.
Qed.

Lemma build_activity_same_store (timestamp : string) (now : Q)
    (probe : option window_info) (t : tracker) :
  same_store (snd (build_activity timestamp now probe t)) t.
Proof.
  unfold build_activity.
  destruct (is_idle t) eqn:I; [unfold same_store; simpl; tauto|].
  destruct probe as [w|]; [|unfold same_store; simpl; tauto].
  pose proof (check_typing_same_store now (print (Current_window_info (Some w)) t)) as H.
  destruct (_check_typing_status now _) as [typing t'].
  unfold same_store in *. simpl in *. tauto.
Qed.

(** The entry built for a window that is observed outside the idle
    state. *)
Lemma build_activity_window (timestamp : string) (now : Q)
    (w : window_info) (t : tracker) :
  is_idle t = false ->
  let new := fst (build_activity timestamp now (Some w) t) in
  a_timestamp new = timestamp
  /\ a_app new = w_app w
  /\ Str.strip_typing (a_title new) = Str.strip_typing (w_title w)
  /\ a_category new = categorize_activity (cfg t) (Some w)
  /\ a_duration new = sampling_interval t
  /\ is_Some (a_is_typing new).
Proof.
  intros I. unfold build_activity. rewrite I.
  pose proof (check_typing_same_store now (print (Current_window_info (Some w)) t))
    as (_ & _ & Hs & _).
  destruct (_check_typing_status now _) as [typing t']. simpl in *.
  repeat split; trivial.
  destruct typing.
  - apply StrFacts.strip_typing_suffix.
  - now rewrite StrFacts.app_empty_r.
Qed.

Lemma update_last_snoc {A} (f : A -> A) (l : list A) (x : A) :
  update_last f (l ++ [x]) = l ++ [f x].
Proof.
  induction l as [|y l IH]; [reflexivity|].
  simpl. rewrite IH. destruct (l ++ [x]) eqn:E; [|reflexivity].
  now destruct l.
Qed.

Lemma merge_or_append_appends (new : activity) (t : tracker) :
  continues new t = false ->
  activities (merge_or_append new t) = activities t ++ [new]
  /\ current_activity (merge_or_append new t) = Some new
  /\ files (merge_or_append new t)
     = <[today_log t := timeline_text (activities t ++ [new])]> (files t).
Proof.
  intros H. unfold merge_or_append. rewrite H. simpl. tauto.
Qed.

Lemma merge_or_append_extends (new : activity) (t : tracker) :
  continues new t = true ->
  activities (merge_or_append new t)
  = update_last (extend (sampling_interval t) new) (activities t)
  /\ current_activity (merge_or_append new t)
     = last (update_last (extend (sampling_interval t) new) (activities t))
  /\ files (merge_or_append new t) = files t.
Proof.
  intros H. unfold merge_or_append. rewrite H. simpl. tauto.
Qed.

Lemma merge_or_append_rest (new : activity) (t : tracker) :
  sampling_interval (merge_or_append new t) = sampling_interval t
  /\ is_idle (merge_or_append new t) = is_idle t
  /\ stdout (merge_or_append new t) = stdout t.
Proof. unfold merge_or_append. destruct (continues new t); simpl; tauto. Qed.

(** In the idle state the guard of the merge is false. *)
Lemma continues_idle (new : activity) (t : tracker) :
  is_idle t = true -> continues new t = false.
Proof. intros H. unfold continues. now rewrite H. Qed.

Lemma continues_other_key (new current : activity) (t : tracker) :
  current_activity t = Some current ->
  a_app current <> a_app new
  \/ Str.strip_typing (a_title current) <> Str.strip_typing (a_title new) ->
  continues new t = false.
Proof.
  intros Hc Hk. unfold continues. rewrite Hc.
  destruct (is_idle t); [reflexivity|]. simpl.
  destruct (activities t); [reflexivity|].
  unfold is_same_activity. apply andb_false_iff.
  destruct Hk as [Hk|Hk]; [left|right]; now apply String.eqb_neq.
Qed.

Lemma continues_same_key (new current : activity) (t : tracker) :
  is_idle t = false ->
  current_activity t = Some current ->
  activities t <> [] ->
  a_app current = a_app new ->
  Str.strip_typing (a_title current) = Str.strip_typing (a_title new) ->
  continues new t = true.
Proof.
  intros Hi Hc Hl Ha Ht. unfold continues. rewrite Hi, Hc. simpl.
  destruct (activities t); [congruence|].
  unfold is_same_activity. rewrite Ha, Ht, !String.eqb_refl. reflexivity.
Qed.

(** A sample taken in the idle state appends the idle entry. *)
Lemma log_in_idle_state (timestamp : string) (now : Q)
    (probe : option window_info) (t : tracker) :
  is_idle t = true ->
  activities (log_current_activity timestamp now probe t)
  = activities t ++ [idle_activity timestamp (sampling_interval t)].
Proof.
  intros I. unfold log_current_activity, build_activity. rewrite I.
  apply (merge_or_append_appends _ (print Logging_as_idle t)).
  apply continues_idle. exact I.
Qed.

(** A sample of a window, outside the idle state, that does not continue
    the last entry appends an entry for the window. *)
Lemma log_new_window (timestamp : string) (now : Q) (w : window_info)
    (t : tracker) :
  is_idle t = false ->
  starts_span (w_app w) (w_title w) t ->
  let new := fst (build_activity timestamp now (Some w) t) in
  activities (log_current_activity timestamp now (Some w) t)
  = activities t ++ [new]
  /\ current_activity (log_current_activity timestamp now (Some w) t)
     = Some new.
Proof.
  intros I Hs.
  pose proof (build_activity_window timestamp now w t I) as (_ & Ha & Ht & _).
  pose proof (build_activity_same_store timestamp now (Some w) t)
    as (Hl & Hc & _ & Hi & _).
  unfold log_current_activity.
  destruct (build_activity timestamp now (Some w) t) as [new t'].
  simpl in *.
  assert (C : continues new t' = false).
  { unfold starts_span in Hs. destruct (current_activity t) as [current|] eqn:E.
    - destruct Hs as [Hs|Hs].
      + unfold continues. rewrite Hc, Hl, Hs.
        now destruct (is_idle t').
      + apply (continues_other_key new current); [congruence|].
        rewrite Ha, Ht. exact Hs.
    - unfold continues. rewrite Hc. now destruct (is_idle t'). }
  destruct (merge_or_append_appends new t' C) as (H1 & H2 & _).
  rewrite H1, H2, Hl. tauto.
Qed.

(** A sample of a window, outside the idle state, that continues the
    last entry extends that entry by one interval. *)
Lemma log_same_window (timestamp : string) (now : Q) (w : window_info)
    (t : tracker) (before : list activity) (current : activity) :
  is_idle t = false ->
  activities t = before ++ [current] ->
  current_activity t = Some current ->
  a_app current = w_app w ->
  Str.strip_typing (a_title current) = Str.strip_typing (w_title w) ->
  let new := fst (build_activity timestamp now (Some w) t) in
  let longer := extend (sampling_interval t) new current in
  activities (log_current_activity timestamp now (Some w) t)
  = before ++ [longer]
  /\ current_activity (log_current_activity timestamp now (Some w) t)
     = Some longer.
Proof.
  intros I Hb Hcur Happ Htitle.
  pose proof (build_activity_window timestamp now w t I) as (_ & Ha & Ht & _).
  pose proof (build_activity_same_store timestamp now (Some w) t)
    as (Hl & Hc & Hs & Hi & _).
  unfold log_current_activity.
  destruct (build_activity timestamp now (Some w) t) as [new t'].
  simpl in *.
  assert (C : continues new t' = true).
  { apply (continues_same_key new current); try congruence.
    rewrite Hl, Hb. now destruct before. }
  destruct (merge_or_append_extends new t' C) as (H1 & H2 & _).
  rewrite H1, H2, Hl, Hs, Hb, update_last_snoc, last_snoc. tauto.
Qed.

Lemma log_rest (timestamp : string) (now : Q) (probe : option window_info)
    (t : tracker) :
  sampling_interval (log_current_activity timestamp now probe t)
  = sampling_interval t
  /\ is_idle (log_current_activity timestamp now probe t) = is_idle t.
Proof.
  pose proof (build_activity_same_store timestamp now probe t)
    as (_ & _ & Hs & Hi & _).
  unfold log_current_activity.
  destruct (build_activity timestamp now probe t) as [new t']. simpl in *.
  destruct (merge_or_append_rest new t') as (H1 & H2 & _). split; congruence.
Qed.

(** What a span leaves in the timeline. *)
Lemma span_record (app title : string) (n : nat) (t t' : tracker) :
  span app title n t t' ->
  exists r,
    activities t' = activities t ++ [r]
    /\ current_activity t' = Some r
    /\ sampling_interval t' = sampling_interval t
    /\ a_app r = app
    /\ Str.strip_typing (a_title r) = Str.strip_typing title
    /\ a_duration r = sampling_interval t * Z.of_nat n.
Proof.
  induction 1 as [t timestamp now pid I Hs
                 | n t0 t1 t2 timestamp now pid Hspan IH Hsame I].
  - set (w := {| w_app := app; w_title := title; w_pid := pid |}).
    destruct (log_new_window timestamp now w t I Hs) as (H1 & H2).
    destruct (build_activity_window timestamp now w t I)
      as (_ & Ha & Ht & _ & Hd & _).
    exists (fst (build_activity timestamp now (Some w) t)).
    repeat split; trivial.
    + apply log_rest.
    + rewrite Hd. lia.
  - destruct IH as (r & Hl & Hc & Hs & Ha & Ht & Hd).
    destruct Hsame as (El & Ec & Es).
    set (w := {| w_app := app; w_title := title; w_pid := pid |}).
    assert (Hl2 : activities t2 = activities t0 ++ [r]) by congruence.
    assert (Hc2 : current_activity t2 = Some r) by congruence.
    destruct (log_same_window timestamp now w t2 _ r I Hl2 Hc2 Ha Ht)
      as (H1 & H2).
    destruct (build_activity_window timestamp now w t2 I)
      as (_ & Ha' & Ht' & _ & _ & [b Hb]).
    eexists. repeat split; [exact H1 | exact H2 | | | |]; simpl.
    + destruct (log_rest timestamp now (Some w) t2) as [-> _]. congruence.
    + exact Ha.
    + rewrite Hb. exact Ht'.
    + rewrite Hd, <- Es, Hs. lia.
Qed.

(** C4. [n >= 1] samples in a row, taken outside the idle state, that
    observe the same application and title leave exactly one new entry in
    the timeline, for that application and title, and its duration is the
    sampling interval times [n].  With an interval of 30 seconds three
    samples of (Editor, file.py) give one entry of 90 seconds. *)
Theorem same_window_one_record :
  (forall (app title : string) (n : nat) (t t' : tracker),
      span app title n t t' ->
      exists r,
        activities t' = activities t ++ [r]
        /\ a_app r = app
        /\ Str.strip_typing (a_title r) = Str.strip_typing title
        /\ a_duration r = sampling_interval t * Z.of_nat n)
  /\ (forall (ts1 ts2 ts3 : string) (now1 now2 now3 : Q),
         activities
           (log_current_activity ts3 now3 (Some editor_file)
              (log_current_activity ts2 now2 (Some editor_file)
                 (log_current_activity ts1 now1 (Some editor_file) started)))
         = [ {| a_timestamp := ts1; a_app := "Editor"; a_title := "file.py";
                a_category := "Coding"; a_duration := 90;
                a_is_typing := Some false |} ]).
Proof.
  split.
  - intros app title n t t' H.
    destruct (span_record _ _ _ _ _ H) as (r & H1 & _ & _ & H2 & H3 & H4).
    now exists r.
  - reflexivity.
Qed.

Lemma same_window_one_record_witness :
  exists r,
    activities
      (log_current_activity "t3" 90 (Some editor_file)
         (log_current_activity "t2" 60 (Some editor_file)
            (log_current_activity "t1" 30 (Some editor_file) started)))
    = activities started ++ [r]
    /\ a_app r = "Editor"
    /\ Str.strip_typing (a_title r) = Str.strip_typing "file.py"
    /\ a_duration r = sampling_interval started * Z.of_nat 3.
Proof.
  apply (proj1 same_window_one_record "Editor" "file.py" 3%nat started).
  apply (span_next "Editor" "file.py" 2 started
           (log_current_activity "t2" 60 (Some editor_file)
              (log_current_activity "t1" 30 (Some editor_file) started))).
  - apply (span_next "Editor" "file.py" 1 started
             (log_current_activity "t1" 30 (Some editor_file) started)).
    + apply span_first; [reflexivity | exact I].
    + repeat split.
    + reflexivity.
  - repeat split.
  - reflexivity.
Defined.

Lemma check_idle_status_over_threshold (now : Q) (t : tracker) :
  (idle_threshold <= now - last_activity_time t)%Q ->
  is_idle (snd (check_idle_status now t)) = true
  /\ activities (snd (check_idle_status now t)) = activities t
  /\ sampling_interval (snd (check_idle_status now t)) = sampling_interval t.
Proof.
  intros H. apply Qle_bool_iff in H.
  unfold check_idle_status. rewrite H. simpl.
  destruct (is_idle t) eqn:I; simpl; auto.
Qed.

(** Outside the idle state a sample without a window is compared with
    the current entry like any other. *)
Lemma log_no_window_appends (timestamp : string) (now : Q) (t : tracker) :
  is_idle t = false ->
  starts_span "Idle" "User inactive" t ->
  activities (log_current_activity timestamp now None t)
  = activities t ++ [idle_activity timestamp (sampling_interval t)].
Proof.
  intros I Hs. unfold log_current_activity, build_activity. rewrite I.
  apply (merge_or_append_appends _
           (print No_window_info (print (Current_window_info None) t))).
  unfold starts_span in Hs. unfold continues. simpl. rewrite I. simpl.
  destruct (current_activity t) as [current|]; [|reflexivity].
  destruct (activities t) as [|a l]; [reflexivity|].
  destruct Hs as [Hs|Hs]; [discriminate|].
  unfold is_same_activity. apply andb_false_iff. simpl.
  destruct Hs as [Hs|Hs]; [left|right]; now apply String.eqb_neq.
Qed.

Lemma log_no_window_extends (timestamp : string) (now : Q) (t : tracker)
    (current last : activity) (before : list activity) :
  is_idle t = false ->
  current_activity t = Some current ->
  looks_idle current ->
  activities t = before ++ [last] ->
  activities (log_current_activity timestamp now None t)
  = before
    ++ [ {| a_timestamp := a_timestamp last; a_app := a_app last;
            a_title := a_title last; a_category := a_category last;
            a_duration := a_duration last + sampling_interval t;
            a_is_typing := a_is_typing last |} ].
Proof.
  intros I Hc [Ha Ht] Hl. unfold log_current_activity, build_activity. rewrite I.
  cbv beta iota zeta.
  match goal with
  | |- activities (merge_or_append ?new ?t') = _ =>
      assert (C : continues new t' = true);
        [| destruct (merge_or_append_extends new t' C) as (-> & _)]
  end.
  - apply (continues_same_key _ current); trivial.
    simpl. rewrite Hl. now destruct before.
  - simpl. rewrite Hl, update_last_snoc. reflexivity.
Qed.

(** C5 as it is stated fails on the code.  A key press keeps the tracker
    out of the idle state, and two passes in a row find no window: the
    second pass appends nothing, the one idle entry grows to 60 seconds.
    When the window named like the idle entry was recorded while the
    user typed, the pass that finds no window extends that entry, whose
    title and category are not those of the idle entry. *)
Lemma empty_probe_extends_last_entry :
  let once :=
    fst (run [Key_press 20; Pass (lost_window 30 "2024-05-06T09:00:30")]
           (started, None)) in
  let twice :=
    fst (run [Key_press 20; Pass (lost_window 30 "2024-05-06T09:00:30");
              Key_press 50; Pass (lost_window 60 "2024-05-06T09:01:00")]
           (started, None)) in
  let typed :=
    fst (run [Key_press 29; Pass (named_window 30 "2024-05-06T09:00:30");
              Key_press 59; Pass (lost_window 60 "2024-05-06T09:01:00")]
           (started, None)) in
  activities once = [idle_activity "2024-05-06T09:00:30" 30]
  /\ activities twice = [idle_activity "2024-05-06T09:00:30" 60]
  /\ activities typed
     = [ {| a_timestamp := "2024-05-06T09:00:30"; a_app := "Idle";
            a_title := "User inactive (typing)"; a_category := "Other";
            a_duration := 60; a_is_typing := Some true |} ].
Proof. vm_compute. repeat split. Qed.

(** C5, as the code has it.  When the idle threshold is reached at the
    check of a pass, or the tracker is in the idle state for another
    reason, the sample appends the idle entry, application [Idle], title
    [User inactive], category [Idle], one sampling interval long,
    whatever the window probe returns and whatever was recorded before.
    Outside the idle state a sample without a window appends that entry
    when the current entry is missing, the timeline is empty, or the
    current entry has another application or another title (typing
    marker aside); otherwise it appends nothing and the last entry grows
    by one interval, its other fields kept.  A sample of (Editor, a.py)
    followed by a sample without a window gives two entries of 30
    seconds each. *)
Theorem idle_synthesis :
  (forall (timestamp : string) (checked now : Q)
          (probe : option window_info) (t : tracker),
      (idle_threshold <= checked - last_activity_time t)%Q ->
      activities
        (log_current_activity timestamp now probe
           (snd (check_idle_status checked t)))
      = activities t ++ [idle_activity timestamp (sampling_interval t)])
  /\ (forall (timestamp : string) (now : Q) (probe : option window_info)
             (t : tracker),
         is_idle t = true ->
         activities (log_current_activity timestamp now probe t)
         = activities t ++ [idle_activity timestamp (sampling_interval t)])
  /\ (forall (timestamp : string) (now : Q) (t : tracker),
         is_idle t = false ->
         starts_span "Idle" "User inactive" t ->
         activities (log_current_activity timestamp now None t)
         = activities t ++ [idle_activity timestamp (sampling_interval t)])
  /\ (forall (timestamp : string) (now : Q) (t : tracker)
             (current last : activity) (before : list activity),
         is_idle t = false ->
         current_activity t = Some current ->
         looks_idle current ->
         activities t = before ++ [last] ->
         activities (log_current_activity timestamp now None t)
         = before
           ++ [ {| a_timestamp := a_timestamp last; a_app := a_app last;
                   a_title := a_title last; a_category := a_category last;
                   a_duration := a_duration last + sampling_interval t;
                   a_is_typing := a_is_typing last |} ])
  /\ (forall (ts1 ts2 : string) (now1 now2 : Q),
         activities
           (log_current_activity ts2 now2 None
              (log_current_activity ts1 now1 (Some editor_a) started))
         = [ {| a_timestamp := ts1; a_app := "Editor"; a_title := "a.py";
                a_category := "Coding"; a_duration := 30;
                a_is_typing := Some false |};
             {| a_timestamp := ts2; a_app := "Idle";
                a_title := "User inactive"; a_category := "Idle";
                a_duration := 30; a_is_typing := None |} ]).
Proof.
  split; [|split; [|split; [|split]]].
  - intros timestamp checked now probe t H.
    destruct (check_idle_status_over_threshold checked t H) as (I & Ha & Hs).
    rewrite (log_in_idle_state timestamp now probe _ I). now rewrite Ha, Hs.
  - apply log_in_idle_state.
  - apply log_no_window_appends.
  - apply log_no_window_extends.
  - reflexivity.
Qed.

Lemma idle_synthesis_witness :
  let busy :=
    log_current_activity "2024-05-06T09:00:30" 30 (Some editor_file) started in
  let lost := log_current_activity "2024-05-06T09:00:30" 30 None started in
  activities
    (log_current_activity "2024-05-06T09:00:40" 40 (Some editor_file)
       (snd (check_idle_status 40 started)))
  = activities started ++ [idle_activity "2024-05-06T09:00:40" 30]
  /\ activities
       (log_current_activity "2024-05-06T09:00:40" 40 (Some editor_file)
          (set_is_idle true busy))
     = activities busy ++ [idle_activity "2024-05-06T09:00:40" 30]
  /\ activities (log_current_activity "2024-05-06T09:01:00" 60 None busy)
     = activities busy ++ [idle_activity "2024-05-06T09:01:00" 30]
  /\ activities (log_current_activity "2024-05-06T09:01:00" 60 None lost)
     = [idle_activity "2024-05-06T09:00:30" 60].
Proof.
  intros busy lost.
  destruct idle_synthesis as (H1 & H2 & H3 & H4 & _).
  split; [|split; [|split]].
  - apply (H1 "2024-05-06T09:00:40" 40%Q 40%Q (Some editor_file) started).
    vm_compute. discriminate.
  - apply (H2 "2024-05-06T09:00:40" 40%Q (Some editor_file)
             (set_is_idle true busy)).
    reflexivity.
  - apply (H3 "2024-05-06T09:01:00" 60%Q busy).
    + reflexivity.
    + right. left. discriminate.
  - apply (H4 "2024-05-06T09:01:00" 60%Q lost
             (idle_activity "2024-05-06T09:00:30" 30)
             (idle_activity "2024-05-06T09:00:30" 30) []).
    + reflexivity.
    + reflexivity.
    + split; reflexivity.
    + reflexivity.
Defined.

(** C3 as it is stated fails on the code, where an idle entry can be
    extended by a sample of an active window: after forty quiet seconds the idle state writes
    an idle entry; a key press ends the idle state; the next sample sees
    a window whose application and title are [Idle] and [User inactive],
    and the idle entry grows to 60 seconds instead of a new entry being
    appended. *)
Lemma idle_entry_extended_by_window :
  let before := fst (run [Pass quiet_sample; Key_press 100] (started, None)) in
  let after :=
    fst (run [Pass quiet_sample; Key_press 100; Pass back_sample]
           (started, None)) in
  activities before = [idle_activity "2024-05-06T09:00:40" 30]
  /\ is_idle before = false
  /\ s_probe back_sample = Some idle_named
  /\ activities after
     = [ {| a_timestamp := "2024-05-06T09:00:40"; a_app := "Idle";
            a_title := "User inactive"; a_category := "Idle";
            a_duration := 60; a_is_typing := Some false |} ].
Proof. vm_compute. repeat split. Qed.

(** C3, as the code has it.  A sample taken in the idle state never
    extends an entry: it appends the idle entry.  Outside the idle state
    the entry is compared by application and title only: a window that
    differs from ([Idle], [User inactive]) in its application or in its
    title never extends an entry with those two fields, and a sample
    without a window never extends an entry that differs from them. *)
Theorem idle_state_never_merges :
  (forall (timestamp : string) (now : Q) (probe : option window_info)
          (t : tracker),
      is_idle t = true ->
      activities (log_current_activity timestamp now probe t)
      = activities t ++ [idle_activity timestamp (sampling_interval t)])
  /\ (forall (timestamp : string) (now : Q) (w : window_info) (t : tracker)
             (current : activity),
         is_idle t = false ->
         current_activity t = Some current ->
         looks_idle current ->
         w_app w <> "Idle"
         \/ Str.strip_typing (w_title w) <> "User inactive" ->
         exists new,
           activities (log_current_activity timestamp now (Some w) t)
           = activities t ++ [new]
           /\ a_app new = w_app w)
  /\ (forall (timestamp : string) (now : Q) (t : tracker) (current : activity),
         is_idle t = false ->
         current_activity t = Some current ->
         ~ looks_idle current ->
         activities (log_current_activity timestamp now None t)
         = activities t ++ [idle_activity timestamp (sampling_interval t)]).
Proof.
  split; [|split].
  - apply log_in_idle_state.
  - intros timestamp now w t current I Hc [Ha Ht] Hw.
    assert (Hs : starts_span (w_app w) (w_title w) t).
    { unfold starts_span. rewrite Hc. right. rewrite Ha, Ht.
      destruct Hw as [Hw|Hw]; [left|right]; congruence. }
    destruct (log_new_window timestamp now w t I Hs) as [H _].
    eexists. split; [exact H|].
    apply (build_activity_window timestamp now w t I).
  - intros timestamp now t current I Hc Hn.
    unfold log_current_activity, build_activity. rewrite I.
    apply (merge_or_append_appends _
             (print No_window_info (print (Current_window_info None) t))).
    apply (continues_other_key _ current); [exact Hc|].
    unfold looks_idle in Hn. simpl.
    destruct (String.eqb_spec (a_app current) "Idle") as [E|E]; [|now left].
    right. intros E'. apply Hn. split; [exact E|].
    rewrite E'. reflexivity.
Qed.

Lemma idle_state_never_merges_witness :
  let dozing := set_is_idle true started in
  let woken := fst (run [Pass quiet_sample; Key_press 100] (started, None)) in
  let busy :=
    log_current_activity "2024-05-06T09:00:30" 30 (Some editor_file) started in
  activities
    (log_current_activity "2024-05-06T09:00:40" 40 (Some editor_file) dozing)
  = activities dozing
    ++ [idle_activity "2024-05-06T09:00:40" (sampling_interval dozing)]
  /\ (exists new,
        activities
          (log_current_activity "2024-05-06T09:01:45" 105 (Some editor_file)
             woken)
        = activities woken ++ [new]
        /\ a_app new = w_app editor_file)
  /\ activities (log_current_activity "2024-05-06T09:01:00" 60 None busy)
     = activities busy
       ++ [idle_activity "2024-05-06T09:01:00" (sampling_interval busy)].
Proof.
  intros dozing woken busy.
  destruct idle_state_never_merges as (H1 & H2 & H3).
  split; [|split].
  - apply H1. reflexivity.
  - apply (H2 _ _ _ woken (idle_activity "2024-05-06T09:00:40" 30)).
    + reflexivity.
    + reflexivity.
    + split; reflexivity.
    + left. discriminate.
  - apply (H3 _ _ busy
             {| a_timestamp := "2024-05-06T09:00:30"; a_app := "Editor";
                a_title := "file.py"; a_category := "Coding";
                a_duration := 30; a_is_typing := Some false |}).
    + reflexivity.
    + reflexivity.
    + intros [H _]. discriminate.
Defined.

(** *** The entries before the last one *)

(** One sample either appends an entry or replaces the last entry by a
    longer one. *)
Lemma log_shape (timestamp : string) (now : Q) (probe : option window_info)
    (t : tracker) :
  let t' := log_current_activity timestamp now probe t in
  (exists new, activities t' = activities t ++ [new])
  \/ (exists before last longer,
         activities t = before ++ [last]
         /\ activities t' = before ++ [longer]
         /\ a_timestamp longer = a_timestamp last
         /\ a_app longer = a_app last
         /\ a_category longer = a_category last
         /\ a_duration longer = a_duration last + sampling_interval t).
Proof.
  pose proof (build_activity_same_store timestamp now probe t)
    as (Hl & _ & Hs & _).
  unfold log_current_activity.
  destruct (build_activity timestamp now probe t) as [new t']. simpl in *.
  destruct (continues new t') eqn:C.
  - right. destruct (merge_or_append_extends new t' C) as (H & _).
    assert (Hne : activities t' <> []).
    { unfold continues in C. destruct (activities t'); [|discriminate].
      destruct (is_idle t'), (current_activity t'); discriminate. }
    destruct (exists_last Hne) as (before & last & E).
    exists before, last, (extend (sampling_interval t') new last).
    rewrite H, <- Hl, E, update_last_snoc, Hs. simpl. tauto.
  - left. exists new. destruct (merge_or_append_appends new t' C) as (H & _).
    now rewrite H, Hl.
Qed.

Lemma keeps_earlier_refl (l : list activity) : keeps_earlier l l.
Proof. unfold keeps_earlier. reflexivity. Qed.

Lemma keeps_earlier_trans (l1 l2 l3 : list activity) :
  keeps_earlier l1 l2 -> keeps_earlier l2 l3 -> keeps_earlier l1 l3.
Proof. unfold keeps_earlier. intros H1 H2. now transitivity (removelast l2). Qed.

Lemma log_keeps_earlier (timestamp : string) (now : Q)
    (probe : option window_info) (t : tracker) :
  keeps_earlier (activities t)
    (activities (log_current_activity timestamp now probe t)).
Proof.
  unfold keeps_earlier.
  destruct (log_shape timestamp now probe t)
    as [(new & ->) | (before & last & longer & -> & -> & _)].
  - rewrite removelast_last.
    destruct (activities t) as [|a l] using rev_ind.
    + apply prefix_nil.
    + rewrite removelast_last. now apply prefix_app_r.
  - now rewrite !removelast_last.
Qed.

Lemma on_key_press_activities (now : Q) (t : tracker) :
  activities (_on_key_press now t) = activities t.
Proof.
  unfold _on_key_press. simpl.
  destruct (is_typing t); simpl; destruct (is_idle t); reflexivity.
Qed.

Lemma poll_mouse_activities (mouse : option string) (now : Q)
    (st : tracker * option string) :
  activities (fst (poll_mouse mouse now st)) = activities (fst st).
Proof.
  destruct st as [t m]. unfold poll_mouse.
  destruct mouse as [p|]; [|reflexivity]. simpl.
  destruct (_last_mouse_pos t); [|reflexivity].
  destruct (negb _); [|reflexivity]. simpl.
  destruct (is_idle t); reflexivity.
Qed.

Lemma poll_window_title_activities (title : option string) (now : Q)
    (t : tracker) :
  activities (poll_window_title title now t) = activities t.
Proof.
  unfold poll_window_title.
  destruct title as [p|]; [|reflexivity].
  destruct (_last_window_title t); [|reflexivity].
  destruct (negb _); [|reflexivity]. simpl.
  destruct (is_idle t); reflexivity.
Qed.

Lemma check_idle_status_activities (now : Q) (t : tracker) :
  activities (snd (check_idle_status now t)) = activities t.
Proof.
  unfold check_idle_status.
  destruct (Qle_bool _ _); [|reflexivity]. simpl.
  destruct (is_idle t); reflexivity.
Qed.

Lemma step_keeps_earlier (e : event) (st : tracker * option string) :
  keeps_earlier (activities (fst st)) (activities (fst (step e st))).
Proof.
  destruct e as [now|s]; simpl.
  - rewrite on_key_press_activities. apply keeps_earlier_refl.
  - unfold tracking_pass.
    pose proof (poll_mouse_activities (s_mouse s) (s_now s) st) as Hm.
    destruct (poll_mouse (s_mouse s) (s_now s) st) as [t1 [m|]]; simpl in *.
    + pose proof (check_idle_status_activities (s_now s)
                    (set_last_mouse_pos (Some m)
                       (poll_window_title (s_window_title s) (s_now s) t1)))
        as Hi.
      destruct (check_idle_status _ _) as [flag t2]. simpl in *.
      eapply keeps_earlier_trans; [|apply log_keeps_earlier].
      rewrite Hi, poll_window_title_activities, Hm.
      apply keeps_earlier_refl.
    + rewrite poll_window_title_activities, Hm. apply keeps_earlier_refl.
Qed.

Lemma run_keeps_earlier (events : list event) (st : tracker * option string) :
  keeps_earlier (activities (fst st)) (activities (fst (run events st))).
Proof.
  revert st. induction events as [|e events IH]; intros st.
  - apply keeps_earlier_refl.
  - eapply keeps_earlier_trans; [apply (step_keeps_earlier e)|apply IH].
Qed.

(** C9. A sample leaves every entry but the last as it is: it either
    appends an entry, or replaces the last entry by one with the same
    time stamp, application and category and a duration longer by one
    interval.  Whatever happens to a running tracker afterwards, an entry
    that is not the last one stays where it is, unchanged. *)
Theorem earlier_entries_unchanged :
  (forall (timestamp : string) (now : Q) (probe : option window_info)
          (t : tracker),
      let t' := log_current_activity timestamp now probe t in
      (exists new, activities t' = activities t ++ [new])
      \/ (exists before last longer,
             activities t = before ++ [last]
             /\ activities t' = before ++ [longer]
             /\ a_timestamp longer = a_timestamp last
             /\ a_app longer = a_app last
             /\ a_category longer = a_category last
             /\ a_duration longer = a_duration last + sampling_interval t))
  /\ (forall (events : list event) (st : tracker * option string) (i : nat),
         (i + 1 < List.length (activities (fst st)))%nat ->
         activities (fst (run events st)) !! i = activities (fst st) !! i).
Proof.
  split; [apply log_shape|].
  intros events st i Hi.
  pose proof (run_keeps_earlier events st) as [k Hk].
  destruct (activities (fst st)) as [|a l] using rev_ind; [simpl in Hi; lia|].
  clear IHl. rewrite removelast_last in Hk.
  rewrite length_app in Hi. simpl in Hi.
  destruct (activities (fst (run events st))) as [|b l'] using rev_ind.
  - simpl in Hk. destruct l; [simpl in Hi; lia | discriminate].
  - clear IHl'. rewrite removelast_last in Hk. subst l'.
    rewrite <- !app_assoc. rewrite !lookup_app_l by lia. reflexivity.
Qed.

Lemma earlier_entries_unchanged_witness :
  let st := run [Pass quiet_sample; Key_press 100;
                 Pass {| s_mouse := Some "x:10 y:10 screen:0 window:1";
                         s_window_title := Some "file.py";
                         s_now := 105; s_timestamp := "2024-05-06T09:01:45";
                         s_probe := Some editor_file |}] (started, None) in
  activities (fst (run [Key_press 110; Pass back_sample] st)) !! 0%nat
  = activities (fst st) !! 0%nat.
Proof.
  intros st.
  apply (proj2 earlier_entries_unchanged [Key_press 110; Pass back_sample] st 0%nat).
  vm_compute. lia.
Defined.

(** ** Idle detection *)

Lemma count_lines_more (p : message -> bool) (t t' : tracker)
    (lines : list message) :
  stdout t' = stdout t ++ lines ->
  count_lines p t' = (count_lines p t + List.length (List.filter p lines))%nat.
Proof.
  intros H. unfold count_lines. now rewrite H, List.filter_app, length_app.
Qed.

Lemma check_idle_status_enters (now : Q) (t : tracker) :
  is_idle t = false ->
  (idle_threshold <= now - last_activity_time t)%Q ->
  is_idle (snd (check_idle_status now t)) = true
  /\ stdout (snd (check_idle_status now t))
     = stdout t ++ [Now_idle (now - last_activity_time t)].
Proof.
  intros I H. apply Qle_bool_iff in H.
  unfold check_idle_status. rewrite H, I. simpl. tauto.
Qed.

Lemma check_idle_status_stays_active (now : Q) (t : tracker) :
  is_idle t = false ->
  ~ (idle_threshold <= now - last_activity_time t)%Q ->
  is_idle (snd (check_idle_status now t)) = false
  /\ stdout (snd (check_idle_status now t)) = stdout t.
Proof.
  intros I H. unfold check_idle_status.
  destruct (Qle_bool _ _) eqn:E.
  - apply Qle_bool_iff in E. contradiction.
  - simpl. tauto.
Qed.

Lemma check_idle_status_stays_idle (now : Q) (t : tracker) :
  is_idle t = true ->
  snd (check_idle_status now t) = t.
Proof.
  intros I. unfold check_idle_status. rewrite I.
  now destruct (Qle_bool _ _).
Qed.

Lemma on_key_press_resets (now : Q) (t : tracker) :
  let t' := _on_key_press now t in
  last_activity_time t' = now
  /\ is_idle t' = false
  /\ count_lines is_idle_exit_line t'
     = (count_lines is_idle_exit_line t + if is_idle t then 1 else 0)%nat.
Proof.
  unfold _on_key_press. simpl.
  destruct (is_typing t); simpl; destruct (is_idle t) eqn:I; simpl;
    (repeat split; trivial);
    erewrite count_lines_more;
    try (simpl; rewrite <- ?app_assoc; reflexivity); simpl; lia.
Qed.

Lemma poll_mouse_resets (now : Q) (position previous : string) (t : tracker)
    (current_mouse : option string) :
  _last_mouse_pos t = Some previous ->
  position <> previous ->
  let t' := fst (poll_mouse (Some position) now (t, current_mouse)) in
  last_activity_time t' = now
  /\ is_idle t' = false
  /\ count_lines is_idle_exit_line t'
     = (count_lines is_idle_exit_line t + if is_idle t then 1 else 0)%nat.
Proof.
  intros Hp Hne. unfold poll_mouse. rewrite Hp.
  apply String.eqb_neq in Hne. rewrite Hne. simpl.
  destruct (is_idle t) eqn:I; simpl;
    (repeat split; trivial);
    erewrite count_lines_more;
    try (simpl; rewrite <- ?app_assoc; reflexivity); simpl; lia.
Qed.

Lemma poll_window_title_resets (now : Q) (title previous : string)
    (t : tracker) :
  _last_window_title t = Some previous ->
  title <> previous ->
  let t' := poll_window_title (Some title) now t in
  last_activity_time t' = now
  /\ is_idle t' = false
  /\ count_lines is_idle_exit_line t'
     = (count_lines is_idle_exit_line t + if is_idle t then 1 else 0)%nat.
Proof.
  intros Hp Hne. unfold poll_window_title. rewrite Hp.
  apply String.eqb_neq in Hne. rewrite Hne. simpl.
  destruct (is_idle t) eqn:I; simpl;
    (repeat split; trivial);
    erewrite count_lines_more;
    try (simpl; rewrite <- ?app_assoc; reflexivity); simpl; lia.
Qed.

Lemma poll_mouse_active (mouse : option string) (now : Q)
    (st : tracker * option string) :
  is_idle (fst st) = false ->
  let t' := fst (poll_mouse mouse now st) in
  is_idle t' = false
  /\ (last_activity_time t' = last_activity_time (fst st)
      \/ last_activity_time t' = now).
Proof.
  destruct st as [t m]. simpl. intros I. unfold poll_mouse.
  destruct mouse as [p|]; simpl; [|tauto].
  destruct (_last_mouse_pos t); simpl; [|tauto].
  destruct (negb _); simpl; [|tauto].
  rewrite I. simpl. tauto.
Qed.

Lemma poll_window_title_active (title : option string) (now : Q)
    (t : tracker) :
  is_idle t = false ->
  let t' := poll_window_title title now t in
  is_idle t' = false
  /\ (last_activity_time t' = last_activity_time t
      \/ last_activity_time t' = now).
Proof.
  intros I. unfold poll_window_title.
  destruct title as [p|]; simpl; [|tauto].
  destruct (_last_window_title t); simpl; [|tauto].
  destruct (negb _); simpl; [|tauto].
  rewrite I. simpl. tauto.
Qed.

(** The idle state is entered by the idle check of a pass only, and only
    when the threshold has been reached. *)
Lemma step_enters_idle (e : event) (st : tracker * option string) :
  is_idle (fst st) = false ->
  is_idle (fst (step e st)) = true ->
  exists s, e = Pass s
            /\ (idle_threshold <= s_now s - last_activity_time (fst st))%Q.
Proof.
  intros I H. destruct e as [now|s]; simpl in H.
  - destruct (on_key_press_resets now (fst st)) as (_ & H' & _). congruence.
  - exists s. split; [reflexivity|].
    unfold tracking_pass in H.
    destruct (poll_mouse_active (s_mouse s) (s_now s) st I) as [I1 L1].
    destruct (poll_mouse (s_mouse s) (s_now s) st) as [t1 m]. simpl in *.
    destruct (poll_window_title_active (s_window_title s) (s_now s) t1 I1)
      as [I2 L2].
    set (t2 := poll_window_title (s_window_title s) (s_now s) t1) in *.
    destruct m as [m|]; simpl in H; [|congruence].
    set (t3 := set_last_mouse_pos (Some m) t2) in *.
    assert (I3 : is_idle t3 = false) by exact I2.
    assert (L3 : last_activity_time t3 = last_activity_time (fst st)
                 \/ last_activity_time t3 = s_now s).
    { change (last_activity_time t3) with (last_activity_time t2).
      destruct L2 as [->| ->]; tauto. }
    destruct (Qlt_le_dec (s_now s - last_activity_time t3) idle_threshold)
      as [Hlt|Hle].
    + exfalso.
      destruct (check_idle_status_stays_active (s_now s) t3 I3) as [I4 _].
      { intros Hc. apply (Qlt_not_le _ _ Hlt Hc). }
      destruct (check_idle_status (s_now s) t3) as [flag t4]. simpl in *.
      destruct (log_rest (s_timestamp s) (s_now s) (s_probe s) t4) as [_ E].
      congruence.
    + destruct L3 as [E|E]; rewrite E in Hle; [exact Hle|].
      exfalso. unfold idle_threshold in Hle.
      assert (Z0 : (s_now s - s_now s == 0)%Q) by ring.
      rewrite Z0 in Hle. now apply Qle_bool_iff in Hle.
Qed.

(** C7. The idle threshold is 30 seconds.  The idle check enters the idle
    state exactly when the tracker is not idle and the time since the
    last interaction has reached the threshold, and prints the transition
    then and only then; an idle tracker stays as it is.  No other event
    enters the idle state.  A key press, a pointer position that differs
    from the previous one and a window title that differs from the
    previous one each set the time of the last interaction to the current
    time and leave the tracker active, printing the transition once if it
    was idle and not at all otherwise. *)
Theorem idle_transitions :
  idle_threshold = 30%Q
  /\ (forall (now : Q) (t : tracker),
         is_idle t = false ->
         (idle_threshold <= now - last_activity_time t)%Q ->
         is_idle (snd (check_idle_status now t)) = true
         /\ stdout (snd (check_idle_status now t))
            = stdout t ++ [Now_idle (now - last_activity_time t)])
  /\ (forall (now : Q) (t : tracker),
         is_idle t = false ->
         ~ (idle_threshold <= now - last_activity_time t)%Q ->
         is_idle (snd (check_idle_status now t)) = false
         /\ stdout (snd (check_idle_status now t)) = stdout t)
  /\ (forall (now : Q) (t : tracker),
         is_idle t = true -> snd (check_idle_status now t) = t)
  /\ (forall (e : event) (st : tracker * option string),
         is_idle (fst st) = false ->
         is_idle (fst (step e st)) = true ->
         exists s, e = Pass s
                   /\ (idle_threshold
                       <= s_now s - last_activity_time (fst st))%Q)
  /\ (forall (now : Q) (t : tracker),
         let t' := _on_key_press now t in
         last_activity_time t' = now
         /\ is_idle t' = false
         /\ count_lines is_idle_exit_line t'
            = (count_lines is_idle_exit_line t
               + if is_idle t then 1 else 0)%nat)
  /\ (forall (now : Q) (position previous : string) (t : tracker)
             (current_mouse : option string),
         _last_mouse_pos t = Some previous ->
         position <> previous ->
         let t' := fst (poll_mouse (Some position) now (t, current_mouse)) in
         last_activity_time t' = now
         /\ is_idle t' = false
         /\ count_lines is_idle_exit_line t'
            = (count_lines is_idle_exit_line t
               + if is_idle t then 1 else 0)%nat)
  /\ (forall (now : Q) (title previous : string) (t : tracker),
         _last_window_title t = Some previous ->
         title <> previous ->
         let t' := poll_window_title (Some title) now t in
         last_activity_time t' = now
         /\ is_idle t' = false
         /\ count_lines is_idle_exit_line t'
            = (count_lines is_idle_exit_line t
               + if is_idle t then 1 else 0)%nat).
Proof.
  split; [reflexivity|].
  split; [exact check_idle_status_enters|].
  split; [exact check_idle_status_stays_active|].
  split; [exact check_idle_status_stays_idle|].
  split; [exact step_enters_idle|].
  split; [exact on_key_press_resets|].
  split; [exact poll_mouse_resets | exact poll_window_title_resets].
Qed.

Lemma idle_transitions_witness :
  let dozing := set_is_idle true started in
  let pointed := set_last_mouse_pos (Some "x:1 y:1") dozing in
  let titled := set_last_window_title (Some "inbox") dozing in
  (is_idle (snd (check_idle_status 40 started)) = true
   /\ stdout (snd (check_idle_status 40 started))
      = stdout started ++ [Now_idle (40 - last_activity_time started)])
  /\ (is_idle (snd (check_idle_status 10 started)) = false
      /\ stdout (snd (check_idle_status 10 started)) = stdout started)
  /\ snd (check_idle_status 40 dozing) = dozing
  /\ (exists s, Pass quiet_sample = Pass s
                /\ (idle_threshold
                    <= s_now s
                       - last_activity_time
                           (fst (started, @None string)))%Q)
  /\ (let t' := fst (poll_mouse (Some "x:2 y:1") 50 (pointed, None)) in
      last_activity_time t' = 50%Q
      /\ is_idle t' = false
      /\ count_lines is_idle_exit_line t'
         = (count_lines is_idle_exit_line pointed
            + if is_idle pointed then 1 else 0)%nat)
  /\ (let t' := poll_window_title (Some "editor") 50 titled in
      last_activity_time t' = 50%Q
      /\ is_idle t' = false
      /\ count_lines is_idle_exit_line t'
         = (count_lines is_idle_exit_line titled
            + if is_idle titled then 1 else 0)%nat).
Proof.
  intros dozing pointed titled.
  destruct idle_transitions as (_ & H1 & H2 & H3 & H4 & _ & H6 & H7).
  split; [|split; [|split; [|split; [|split]]]].
  - apply H1; [reflexivity | vm_compute; discriminate].
  - apply H2; [reflexivity | vm_compute; intros H; now apply H].
  - apply H3. reflexivity.
  - apply (H4 (Pass quiet_sample) (started, None)); reflexivity.
  - apply (H6 50%Q "x:2 y:1" "x:1 y:1" pointed None);
      [reflexivity | discriminate].
  - apply (H7 50%Q "editor" "inbox" titled); [reflexivity | discriminate].
Defined.

(** ** Typing detection *)

Lemma check_typing_without_listener (now : Q) (t : tracker) :
  keyboard_listener t = false -> _check_typing_status now t = (false, t).
Proof. intros H. unfold _check_typing_status. now rewrite H. Qed.

Lemma check_typing_recent (now : Q) (t : tracker) :
  keyboard_listener t = true ->
  is_typing t = true ->
  (now - last_keypress_time t <= typing_inactivity_threshold)%Q ->
  _check_typing_status now t = (true, t).
Proof.
  intros L T H. apply Qle_bool_iff in H.
  unfold _check_typing_status. rewrite L, T, H. simpl. now rewrite T.
Qed.

Lemma check_typing_expired (now : Q) (t : tracker) :
  keyboard_listener t = true ->
  is_typing t = true ->
  (typing_inactivity_threshold < now - last_keypress_time t)%Q ->
  fst (_check_typing_status now t) = false
  /\ snd (_check_typing_status now t)
     = print (Stopped_typing (now - last_keypress_time t))
         (set_is_typing false t).
Proof.
  intros L T H. unfold _check_typing_status. rewrite L, T.
  destruct (Qle_bool _ _) eqn:E.
  - apply Qle_bool_iff in E. exfalso. apply (Qlt_not_le _ _ H E).
  - simpl. tauto.
Qed.

Lemma check_typing_not_typing (now : Q) (t : tracker) :
  is_typing t = false -> _check_typing_status now t = (false, t).
Proof.
  intros T. unfold _check_typing_status. rewrite T.
  destruct (keyboard_listener t); simpl; [now rewrite T | reflexivity].
Qed.

Lemma nondecreasing_head (a : Q) (later : list Q) :
  nondecreasing (a :: later) -> Forall (fun b => (a <= b)%Q) later.
Proof.
  revert a. induction later as [|b later IH]; intros a H; constructor.
  - apply H.
  - destruct H as [Hab H]. specialize (IH b H).
    eapply Forall_impl; [exact IH|]. intros c Hc. simpl in Hc.
    now apply Qle_trans with b.
Qed.

(** Once the flag is cleared, later queries find it cleared. *)
Lemma typing_queries_expired (pressed : Q) (times : list Q) (t : tracker) :
  is_typing t = false ->
  last_keypress_time t = pressed ->
  Forall (fun now => (typing_inactivity_threshold < now - pressed)%Q) times ->
  fst (typing_queries times t)
  = map (fun now => Qle_bool (now - pressed) typing_inactivity_threshold) times.
Proof.
  intros T P H. induction H as [|now later Hnow _ IH]; [reflexivity|].
  simpl. rewrite (check_typing_not_typing now t T).
  destruct (typing_queries later t) as [flags t']. simpl in *.
  f_equal; [|exact IH].
  destruct (Qle_bool _ _) eqn:E; [|reflexivity].
  apply Qle_bool_iff in E. exfalso. apply (Qlt_not_le _ _ Hnow E).
Qed.

(** After a key press at [pressed], with the clock not running
    backwards, each query tells whether at most two seconds have passed. *)
Lemma typing_queries_after_press (pressed : Q) (times : list Q) (t : tracker) :
  keyboard_listener t = true ->
  is_typing t = true ->
  last_keypress_time t = pressed ->
  nondecreasing times ->
  fst (typing_queries times t)
  = map (fun now => Qle_bool (now - pressed) typing_inactivity_threshold) times.
Proof.
  intros L T P. revert t L T P.
  induction times as [|now later IH]; intros t L T P H; [reflexivity|].
  simpl. destruct (Qlt_le_dec typing_inactivity_threshold (now - pressed))
    as [Hlt|Hle].
  - rewrite <- P in Hlt.
    destruct (check_typing_expired now t L T Hlt) as [Hf Hs].
    destruct (_check_typing_status now t) as [flag t1]. simpl in Hf, Hs. subst.
    pose proof (typing_queries_expired (last_keypress_time t) later
                  (print (Stopped_typing (now - last_keypress_time t))
                     (set_is_typing false t)) eq_refl eq_refl) as Hq.
    destruct (typing_queries later _) as [flags t2]. simpl in *.
    f_equal.
    + destruct (Qle_bool _ _) eqn:E; [|reflexivity].
      apply Qle_bool_iff in E. exfalso. apply (Qlt_not_le _ _ Hlt E).
    + apply Hq. eapply Forall_impl; [apply (nondecreasing_head _ _ H)|].
      intros b Hb. simpl in Hb.
      apply Qlt_le_trans with (now - last_keypress_time t)%Q; [exact Hlt|].
      unfold Qminus. apply Qplus_le_l. exact Hb.
  - rewrite <- P in Hle. rewrite (check_typing_recent now t L T Hle).
    specialize (IH t L T P (proj2 H)).
    destruct (typing_queries later t) as [flags t2]. simpl in *.
    f_equal; [|exact IH]. symmetry. apply Qle_bool_iff. now rewrite <- P.
Qed.

Lemma on_key_press_typing (now : Q) (t : tracker) :
  keyboard_listener (_on_key_press now t) = keyboard_listener t
  /\ is_typing (_on_key_press now t) = true
  /\ last_keypress_time (_on_key_press now t) = now.
Proof.
  unfold _on_key_press. simpl.
  destruct (is_typing t) eqn:T; simpl; destruct (is_idle t); simpl;
    repeat split; trivial.
Qed.

(** C8. Without a keyboard listener the typing query returns false at
    once and changes nothing; when the listener fails to start, the
    tracker is built all the same, without a listener, and every query
    returns false.  With a listener, after a
    key press at time [pressed] every query at a time [now] returns true
    when [now - pressed <= 2] and false when [now - pressed > 2] (the
    clock not running backwards between the queries), and a query that
    finds more than two seconds passed clears the typing flag. *)
Theorem typing_status_lazy_expiry :
  typing_inactivity_threshold = 2%Q
  /\ (forall (now : Q) (t : tracker),
         keyboard_listener t = false ->
         _check_typing_status now t = (false, t))
  /\ (forall (directory : string) (conf : config) (today : string) (now : Q)
             (disk : gmap string string),
         disk !! ConfigManager.get_log_path directory today = None ->
         exists t,
           init directory conf today now false disk = Returns t
           /\ keyboard_listener t = false
           /\ forall later, _check_typing_status later t = (false, t))
  /\ (forall (pressed : Q) (times : list Q) (t : tracker),
         keyboard_listener t = true ->
         nondecreasing times ->
         fst (typing_queries times (_on_key_press pressed t))
         = map (fun now => Qle_bool (now - pressed) 2) times)
  /\ (forall (now : Q) (t : tracker),
         keyboard_listener t = true ->
         is_typing t = true ->
         (2 < now - last_keypress_time t)%Q ->
         fst (_check_typing_status now t) = false
         /\ is_typing (snd (_check_typing_status now t)) = false).
Proof.
  split; [reflexivity|].
  split; [exact check_typing_without_listener|].
  split; [|split].
  - intros directory conf today now disk Hf.
    unfold init, _load_today_activities.
    change (files (blank directory conf today now disk)
              !! today_log (blank directory conf today now disk))
      with (disk !! ConfigManager.get_log_path directory today).
    rewrite Hf. eexists. split; [reflexivity|]. split; [reflexivity|].
    intros later. now apply check_typing_without_listener.
  - intros pressed times t L H.
    destruct (on_key_press_typing pressed t) as (L' & T & P).
    apply typing_queries_after_press; congruence.
  - intros now t L T H.
    destruct (check_typing_expired now t L T H) as [H1 H2].
    split; [exact H1|]. now rewrite H2.
Qed.

Lemma typing_status_lazy_expiry_witness :
  _check_typing_status 5 (_start_keyboard_monitoring false started)
  = (false, _start_keyboard_monitoring false started)
  /\ (exists t,
        init "/home/user/.activity_tracker" ConfigManager.DEFAULT_CONFIG
          "2024-05-06" 0 false ∅ = Returns t
        /\ keyboard_listener t = false
        /\ forall later, _check_typing_status later t = (false, t))
  /\ fst (typing_queries [101%Q; 102%Q; 103%Q; 110%Q] (_on_key_press 100 started))
     = map (fun now => Qle_bool (now - 100) 2) [101%Q; 102%Q; 103%Q; 110%Q]
  /\ (fst (_check_typing_status 103 (_on_key_press 100 started)) = false
      /\ is_typing (snd (_check_typing_status 103 (_on_key_press 100 started)))
         = false).
Proof.
  destruct typing_status_lazy_expiry as (_ & H1 & H2 & H3 & H4).
  split; [|split; [|split]].
  - apply H1. reflexivity.
  - apply H2. reflexivity.
  - apply (H3 100%Q [101%Q; 102%Q; 103%Q; 110%Q] started); [reflexivity|].
    vm_compute. repeat split; discriminate.
  - apply H4; [reflexivity | reflexivity | vm_compute; reflexivity].
Defined.

(** ** Persistence *)

(** The entry of one sample of (Editor, file.py), and the entry two
    such samples leave in memory. *)
Lemma two_samples_in_memory :
  activities
    (log_current_activity "2024-05-06T09:01:00" 60 (Some editor_file)
       (log_current_activity "2024-05-06T09:00:30" 30 (Some editor_file)
          started))
  = [ {| a_timestamp := "2024-05-06T09:00:30"; a_app := "Editor";
         a_title := "file.py"; a_category := "Coding"; a_duration := 60;
         a_is_typing := Some false |} ].
Proof. reflexivity. Qed.

(** A sample that appends an entry writes the whole timeline to the
    day's file. *)
Lemma append_is_saved (new : activity) (t : tracker) :
  continues new t = false ->
  files (merge_or_append new t) !! today_log t
  = Some (timeline_text (activities (merge_or_append new t))).
Proof.
  intros C. destruct (merge_or_append_appends new t C) as (-> & _ & ->).
  apply lookup_insert_eq.
Qed.

(** A sample that extends the last entry writes nothing. *)
Lemma merge_is_not_saved (new : activity) (t : tracker) :
  continues new t = true ->
  files (merge_or_append new t) = files t.
Proof. intros C. apply (merge_or_append_extends new t C). Qed.

(** C2 fails on the code.  Two samples of (Editor, file.py): the first
    appends an entry of 30 seconds and writes the file; the second extends
    the entry to 60 seconds in memory and returns before the file is
    written, so the file still holds the entry of 30 seconds and differs
    from the text of the timeline in memory. *)
Theorem merged_sample_not_saved :
  let first :=
    log_current_activity "2024-05-06T09:00:30" 30 (Some editor_file) started in
  let second :=
    log_current_activity "2024-05-06T09:01:00" 60 (Some editor_file) first in
  files first !! today_log first = Some (timeline_text (activities first))
  /\ files second = files first
  /\ a_duration <$> activities first = [30]
  /\ a_duration <$> activities second = [60]
  /\ files second !! today_log second
     <> Some (timeline_text (activities second)).
Proof.
  intros first second.
  assert (H1 : files first !! today_log first
               = Some (timeline_text (activities first))) by reflexivity.
  assert (H2 : files second = files first) by reflexivity.
  split; [exact H1|]. split; [exact H2|].
  split; [reflexivity|]. split; [reflexivity|].
  rewrite H2. change (today_log second) with (today_log first). rewrite H1.
  vm_compute. discriminate.
Qed.

(** Text that is not JSON in the day's file: the error of [json.load]
    leaves [_load_today_activities] and [__init__]. *)
Lemma load_raises (t : tracker) (text : string) :
  files t !! today_log t = Some text ->
  Json.loads text = Json.Invalid ->
  _load_today_activities t = Raises JSONDecodeError.
Proof.
  intros Hf Hl. unfold _load_today_activities. now rewrite Hf, Hl.
Qed.

Lemma init_raises (directory : string) (conf : config) (today : string)
    (now : Q) (listener_starts : bool) (disk : gmap string string)
    (text : string) :
  disk !! ConfigManager.get_log_path directory today = Some text ->
  Json.loads text = Json.Invalid ->
  init directory conf today now listener_starts disk = Raises JSONDecodeError.
Proof.
  intros Hf Hl. unfold init.
  now rewrite (load_raises (blank directory conf today now disk) text Hf Hl).
Qed.

(** No file for the day: the tracker starts with the empty timeline. *)
Lemma init_without_file (directory : string) (conf : config) (today : string)
    (now : Q) (listener_starts : bool) (disk : gmap string string) :
  disk !! ConfigManager.get_log_path directory today = None ->
  exists t,
    init directory conf today now listener_starts disk = Returns t
    /\ activities t = [].
Proof.
  intros Hf. unfold init, _load_today_activities.
  change (files (blank directory conf today now disk)
            !! today_log (blank directory conf today now disk))
    with (disk !! ConfigManager.get_log_path directory today).
  rewrite Hf. eexists. split; [reflexivity|].
  now destruct listener_starts.
Qed.

(** C1 fails on the code.  [_load_today_activities] has no handler around
    [json.load]: with the text of an unfinished object in the day's file,
    the [JSONDecodeError] reaches the caller of [__init__] and no tracker
    is built. *)
Theorem load_invalid_json_raises :
  Json.loads "{" = Json.Invalid
  /\ init "/home/user/.activity_tracker" ConfigManager.DEFAULT_CONFIG
       "2024-05-06" 0 true
       {[ "/home/user/.activity_tracker/activity_2024-05-06.json" := "{" ]}
     = Raises JSONDecodeError.
Proof. split; reflexivity. Qed.

Lemma categorize_activity_classifies_witness :
  classify ConfigManager.DEFAULT_CONFIG (Some (window "explorer.exe" "x"))
    "System".
Proof.
  apply (proj1 categorize_activity_classifies).
  reflexivity.
Defined.

(** ** The JSON text is read back *)

Module JsonFacts.
Import Json JsonDefs.

Lemma dump_arr (level : nat) (x : value) (xs : list value) :
  dump level (Arr (x :: xs))
  = "[" +:+ newline_indent (S level) +:+ dump (S level) x
    +:+ separated (dump (S level)) ("," +:+ newline_indent (S level)) xs
    +:+ newline_indent level +:+ "]".
Proof. reflexivity. Qed.

Lemma dump_obj (level : nat) (k : string) (x : value)
    (xs : list (string * value)) :
  dump level (Obj ((k, x) :: xs))
  = "{" +:+ newline_indent (S level) +:+ dump_string k +:+ ": "
    +:+ dump (S level) x
    +:+ separated
          (fun member => let '(k', y) := member in
                         dump_string k' +:+ ": " +:+ dump (S level) y)
          ("," +:+ newline_indent (S level)) xs
    +:+ newline_indent level +:+ "}".
Proof. reflexivity. Qed.

Lemma separated_cons {A} (item : A -> string) (sep : string) (y : A)
    (ys : list A) :
  separated item sep (y :: ys) = sep +:+ item y +:+ separated item sep ys.
Proof. reflexivity. Qed.

Lemma skip_ws_cons (c : ascii) (s : string) :
  skip_ws (String c s) = if is_ws c then skip_ws s else String c s.
Proof. reflexivity. Qed.

Lemma skip_ws_nonws (c : ascii) (s : string) :
  is_ws c = false -> skip_ws (String c s) = String c s.
Proof. intros H. now rewrite skip_ws_cons, H. Qed.

Lemma skip_ws_spaces (n : nat) (s : string) :
  skip_ws (spaces n +:+ s) = skip_ws s.
Proof. induction n as [|n IH]; [reflexivity|]. simpl. exact IH. Qed.

Lemma skip_ws_newline_indent (level : nat) (s : string) :
  skip_ws (newline_indent level +:+ s) = skip_ws s.
Proof.
  unfold newline_indent, newline. rewrite StrFacts.app_assoc.
  rewrite StrFacts.app_cons, skip_ws_cons. simpl. apply skip_ws_spaces.
Qed.

Lemma escape_char_parse (c : ascii) (s : string) :
  parse_string (escape_char c +:+ s) = cons_char c (parse_string s).
Proof.
  destruct c as [[] [] [] [] [] [] [] []]; reflexivity.
Qed.

Lemma parse_string_escape (s rest : string) :
  parse_string (escape s +:+ quote +:+ rest) = Parsed (s, rest).
Proof.
  induction s as [|c s IH].
  - reflexivity.
  - simpl escape. rewrite StrFacts.app_assoc, escape_char_parse, IH. reflexivity.
Qed.

(** *** Numbers *)

Lemma digit_of_char_digits (d : Decimal.uint) :
  d <> Decimal.Nil ->
  exists (c : ascii) (mk : Decimal.uint -> Decimal.uint) (d' : Decimal.uint),
    d = mk d'
    /\ NilEmpty.string_of_uint d = String c (NilEmpty.string_of_uint d')
    /\ digit_of_char c = Some mk
    /\ is_ws c = false
    /\ (mk = Decimal.D0 <-> c = "0"%char).
Proof.
  intros H. destruct d; [congruence| | | | | | | | | |];
    eexists _, _, d; (repeat split; try reflexivity); try discriminate;
    intros E; apply (f_equal (fun f => f Decimal.Nil)) in E; discriminate.
Qed.

Lemma read_digits_uint (d : Decimal.uint) (rest : string) :
  delimited rest ->
  read_digits (NilEmpty.string_of_uint d +:+ rest) = (d, rest).
Proof.
  intros H. induction d; simpl;
    try (rewrite IHd; reflexivity).
  destruct rest as [|c rest]; [reflexivity|].
  simpl in H. destruct H as [-> | ->]; reflexivity.
Qed.

Lemma finish_number_delimited (negative : bool) (d : Decimal.uint)
    (rest : string) :
  delimited rest ->
  finish_number negative d rest
  = Parsed (Int (Z.of_int (if negative then Decimal.Neg d else Decimal.Pos d)),
            rest).
Proof.
  intros H. unfold finish_number.
  destruct rest as [|c rest]; [reflexivity|].
  simpl in H. destruct H as [-> | ->]; reflexivity.
Qed.

Lemma unorm_D0 (d d' : Decimal.uint) :
  Decimal.unorm d = Decimal.D0 d' -> d' = Decimal.Nil.
Proof.
  induction d; simpl; intros H; try discriminate; try (now apply IHd).
  now injection H.
Qed.

Lemma to_uint_no_leading_zero (p : positive) (d : Decimal.uint) :
  Pos.to_uint p <> Decimal.D0 d.
Proof.
  intros H.
  pose proof (DecimalPos.Unsigned.to_of (Pos.to_uint p)) as E.
  rewrite DecimalPos.Unsigned.of_to in E. simpl in E.
  rewrite H in E. symmetry in E. apply unorm_D0 in E. subst d.
  now apply (DecimalPos.Unsigned.to_uint_nonzero p).
Qed.

Lemma parse_number_positive (c : ascii) (s : string)
    (mk : Decimal.uint -> Decimal.uint) :
  digit_of_char c = Some mk -> c <> "0"%char ->
  parse_number (String c s)
  = match read_digits (String c s) with
    | (Decimal.Nil, _) => Invalid
    | (d, rest) => finish_number false d rest
    end.
Proof.
  intros Hd Hz. unfold parse_number.
  destruct c as [[] [] [] [] [] [] [] []];
    try discriminate Hd; try reflexivity; now contradiction Hz.
Qed.

Lemma parse_number_negative (c : ascii) (s : string)
    (mk : Decimal.uint -> Decimal.uint) :
  digit_of_char c = Some mk -> c <> "0"%char ->
  parse_number (String "-" (String c s))
  = match read_digits (String c s) with
    | (Decimal.Nil, _) => Invalid
    | (d, rest) => finish_number true d rest
    end.
Proof.
  intros Hd Hz. unfold parse_number.
  destruct c as [[] [] [] [] [] [] [] []];
    try discriminate Hd; try reflexivity; now contradiction Hz.
Qed.

Lemma string_of_uint_positive (p : positive) :
  exists (c : ascii) (mk : Decimal.uint -> Decimal.uint) (d' : Decimal.uint),
    Pos.to_uint p = mk d'
    /\ NilZero.string_of_uint (Pos.to_uint p)
       = String c (NilEmpty.string_of_uint d')
    /\ NilEmpty.string_of_uint (Pos.to_uint p)
       = String c (NilEmpty.string_of_uint d')
    /\ digit_of_char c = Some mk
    /\ is_ws c = false
    /\ c <> "0"%char.
Proof.
  destruct (digit_of_char_digits (Pos.to_uint p)
              (DecimalPos.Unsigned.to_uint_nonnil p))
    as (c & mk & d' & E & Hs & Hd & Hw & Hz).
  exists c, mk, d'. repeat split; trivial.
  - unfold NilZero.string_of_uint. rewrite <- Hs.
    destruct (Pos.to_uint p) eqn:Hp; try reflexivity.
    now apply DecimalPos.Unsigned.to_uint_nonnil in Hp.
  - intros Hc. apply Hz in Hc. subst mk.
    now apply to_uint_no_leading_zero in E.
Qed.

Lemma read_digits_cons (c : ascii) (s : string)
    (mk : Decimal.uint -> Decimal.uint) :
  digit_of_char c = Some mk ->
  read_digits (String c s) = let '(ds, rest) := read_digits s in (mk ds, rest).
Proof. intros H. simpl. now rewrite H. Qed.

Lemma mk_not_nil (c : ascii) (mk : Decimal.uint -> Decimal.uint)
    (d : Decimal.uint) :
  digit_of_char c = Some mk -> mk d <> Decimal.Nil.
Proof.
  unfold digit_of_char.
  repeat (match goal with
          | |- context [if ?b then _ else _] => destruct b
          end; [intros [= <-]; discriminate|]).
  discriminate.
Qed.

Lemma number_digits_nonnil (negative : bool) (d : Decimal.uint) (rest : string) :
  d <> Decimal.Nil ->
  match d with
  | Decimal.Nil => Invalid
  | _ => finish_number negative d rest
  end = finish_number negative d rest.
Proof. destruct d; congruence. Qed.

(** A written integer is read back. *)
Lemma parse_number_dump_int (z : Z) (rest : string) :
  delimited rest ->
  parse_number (dump_int z +:+ rest) = Parsed (Int z, rest).
Proof.
  intros H. unfold dump_int. destruct z as [|p|p].
  - simpl. unfold parse_number. simpl.
    now rewrite finish_number_delimited.
  - destruct (string_of_uint_positive p)
      as (c & mk & d' & E & Hs & _ & Hd & _ & Hz).
    simpl Z.to_int. simpl NilZero.string_of_int. cbv beta iota. rewrite Hs.
    rewrite StrFacts.app_cons, (parse_number_positive c _ mk Hd Hz).
    rewrite (read_digits_cons c _ mk Hd), read_digits_uint by exact H.
    rewrite number_digits_nonnil by exact (mk_not_nil c mk d' Hd).
    rewrite finish_number_delimited by exact H. rewrite <- E.
    change (Decimal.Pos (Pos.to_uint p)) with (Z.to_int (Zpos p)).
    now rewrite DecimalZ.of_to.
  - destruct (string_of_uint_positive p)
      as (c & mk & d' & E & Hs & _ & Hd & _ & Hz).
    simpl Z.to_int. simpl NilZero.string_of_int. cbv beta iota. rewrite Hs.
    rewrite !StrFacts.app_cons, (parse_number_negative c _ mk Hd Hz).
    rewrite (read_digits_cons c _ mk Hd), read_digits_uint by exact H.
    rewrite number_digits_nonnil by exact (mk_not_nil c mk d' Hd).
    rewrite finish_number_delimited by exact H. rewrite <- E.
    change (Decimal.Neg (Pos.to_uint p)) with (Z.to_int (Zneg p)).
    now rewrite DecimalZ.of_to.
Qed.

(** *** The first character of a written value *)

Lemma dump_first (level : nat) (v : value) :
  exists c s, dump level v = String c s /\ is_ws c = false /\ c <> "]"%char.
Proof.
  destruct v as [|[]|z|s|[|x xs]|[|[k x] xs]];
    try (do 2 eexists; split; [reflexivity | split; [reflexivity | discriminate]]).
  simpl dump. unfold dump_int. destruct z as [|p|p].
  - do 2 eexists; split; [reflexivity | split; [reflexivity | discriminate]].
  - destruct (string_of_uint_positive p)
      as (c & mk & d' & _ & Hs & _ & Hd & Hw & _).
    simpl. rewrite Hs. exists c, (NilEmpty.string_of_uint d').
    repeat split; trivial. intros ->. discriminate.
  - do 2 eexists; split; [reflexivity | split; [reflexivity | discriminate]].
Qed.

Lemma skip_ws_dump (level : nat) (v : value) (rest : string) :
  skip_ws (dump level v +:+ rest) = dump level v +:+ rest.
Proof.
  destruct (dump_first level v) as (c & s & -> & Hw & _).
  rewrite StrFacts.app_cons, skip_ws_cons. now rewrite Hw.
Qed.

(** *** The decoder, one step at a time *)

Lemma parse_value_digit (fuel : nat) (c : ascii) (s : string)
    (mk : Decimal.uint -> Decimal.uint) :
  digit_of_char c = Some mk ->
  parse_value (S fuel) (String c s) = parse_number (String c s).
Proof.
  intros Hd.
  destruct c as [[] [] [] [] [] [] [] []]; try discriminate Hd; reflexivity.
Qed.

Lemma parse_value_minus_digit (fuel : nat) (c : ascii) (s : string)
    (mk : Decimal.uint -> Decimal.uint) :
  digit_of_char c = Some mk ->
  parse_value (S fuel) (String "-" (String c s))
  = parse_number (String "-" (String c s)).
Proof.
  intros Hd.
  destruct c as [[] [] [] [] [] [] [] []]; try discriminate Hd; reflexivity.
Qed.

Lemma parse_value_int (fuel : nat) (z : Z) (rest : string) :
  delimited rest ->
  parse_value (S fuel) (dump_int z +:+ rest) = Parsed (Int z, rest).
Proof.
  intros H. rewrite <- (parse_number_dump_int z rest H).
  unfold dump_int. destruct z as [|p|p].
  - reflexivity.
  - destruct (string_of_uint_positive p)
      as (c & mk & d' & _ & Hs & _ & Hd & _ & _).
    simpl Z.to_int. simpl NilZero.string_of_int. cbv beta iota. rewrite Hs.
    rewrite StrFacts.app_cons. apply (parse_value_digit _ _ _ mk Hd).
  - destruct (string_of_uint_positive p)
      as (c & mk & d' & _ & Hs & _ & Hd & _ & _).
    simpl Z.to_int. simpl NilZero.string_of_int. cbv beta iota. rewrite Hs.
    rewrite !StrFacts.app_cons. apply (parse_value_minus_digit _ _ _ mk Hd).
Qed.

Lemma parse_value_str (fuel : nat) (s rest : string) :
  parse_value (S fuel) (dump_string s +:+ rest) = Parsed (Str s, rest).
Proof.
  unfold dump_string. rewrite !StrFacts.app_assoc.
  change (quote +:+ escape s +:+ quote +:+ rest)
    with (String (ascii_of_N 34) (escape s +:+ quote +:+ rest)).
  change (parse_value (S fuel) (String (ascii_of_N 34) (escape s +:+ quote +:+ rest)))
    with (bind (parse_string (escape s +:+ quote +:+ rest))
            (fun '(str, rest') => Parsed (Str str, rest'))).
  now rewrite parse_string_escape.
Qed.

Lemma parse_value_array (fuel : nat) (s : string) :
  parse_value (S fuel) (String "[" s)
  = match skip_ws s with
    | String c1 rest1 =>
        if (N_of_ascii c1 =? 93)%N then Parsed (Arr [], rest1)
        else bind (parse_items fuel (skip_ws s))
               (fun '(items, rest') => Parsed (Arr items, rest'))
    | EmptyString => Invalid
    end.
Proof. reflexivity. Qed.

Lemma parse_value_object (fuel : nat) (s : string) :
  parse_value (S fuel) (String "{" s)
  = match s with
    | String c1 rest1 =>
        if (N_of_ascii c1 =? 34)%N then
          bind (parse_members fuel rest1)
            (fun '(pairs, rest') => Parsed (Obj (dict_of_pairs pairs), rest'))
        else
          match skip_ws s with
          | String c2 rest2 =>
              if (N_of_ascii c2 =? 125)%N then Parsed (Obj [], rest2)
              else if (N_of_ascii c2 =? 34)%N then
                bind (parse_members fuel rest2)
                  (fun '(pairs, rest') =>
                     Parsed (Obj (dict_of_pairs pairs), rest'))
              else Invalid
          | EmptyString => Invalid
          end
    | EmptyString => Invalid
    end.
Proof. reflexivity. Qed.

Lemma parse_items_step (fuel : nat) (s : string) :
  parse_items (S fuel) s
  = bind (parse_value fuel s)
      (fun '(v, rest) =>
         match skip_ws rest with
         | String c rest1 =>
             if (N_of_ascii c =? 93)%N then Parsed ([v], rest1)
             else if (N_of_ascii c =? 44)%N then
               bind (parse_items fuel (skip_ws rest1))
                 (fun '(vs, rest') => Parsed (v :: vs, rest'))
             else Invalid
         | EmptyString => Invalid
         end).
Proof. reflexivity. Qed.

Lemma parse_members_step (fuel : nat) (s : string) :
  parse_members (S fuel) s
  = bind (parse_string s)
      (fun '(k, rest) =>
         match skip_ws rest with
         | String c rest1 =>
             if (N_of_ascii c =? 58)%N then
               bind (parse_value fuel (skip_ws rest1))
                 (fun '(v, rest2) =>
                    match skip_ws rest2 with
                    | String c3 rest3 =>
                        if (N_of_ascii c3 =? 125)%N then Parsed ([(k, v)], rest3)
                        else if (N_of_ascii c3 =? 44)%N then
                          match skip_ws rest3 with
                          | String c4 rest4 =>
                              if (N_of_ascii c4 =? 34)%N then
                                bind (parse_members fuel rest4)
                                  (fun '(kvs, rest') =>
                                     Parsed ((k, v) :: kvs, rest'))
                              else Invalid
                          | EmptyString => Invalid
                          end
                        else Invalid
                    | EmptyString => Invalid
                    end)
             else Invalid
         | EmptyString => Invalid
         end).
Proof. reflexivity. Qed.

(** *** Objects without a repeated key *)

Lemma dict_set_fresh (k : string) (v : value) (d : list (string * value)) :
  k ∉ List.map fst d -> dict_set k v d = d ++ [(k, v)].
Proof.
  induction d as [|[k' v'] d IH]; intros H; [reflexivity|].
  simpl in *. apply not_elem_of_cons in H as [Hne Hin].
  apply String.eqb_neq in Hne. rewrite Hne. now rewrite IH.
Qed.

Lemma dict_of_pairs_from (pairs acc : list (string * value)) :
  NoDup (List.map fst (acc ++ pairs)) ->
  fold_left (fun d kv => dict_set (fst kv) (snd kv) d) pairs acc = acc ++ pairs.
Proof.
  revert acc. induction pairs as [|[k v] pairs IH]; intros acc H.
  - now rewrite app_nil_r.
  - simpl. rewrite dict_set_fresh.
    + rewrite IH; rewrite <- List.app_assoc; [reflexivity | exact H].
    + rewrite List.map_app in H. apply NoDup_app in H as (_ & H & _).
      intros Hin. apply (H k Hin). simpl. left.
Qed.

Lemma dict_of_pairs_distinct (pairs : list (string * value)) :
  NoDup (List.map fst pairs) -> dict_of_pairs pairs = pairs.
Proof. intros H. now apply (dict_of_pairs_from pairs []). Qed.

(** *** The round trip *)

Lemma value_nested_ind (P : value -> Prop) :
  P Null -> (forall b, P (Bool b)) -> (forall z, P (Int z)) ->
  (forall s, P (Str s)) ->
  (forall l, Forall P l -> P (Arr l)) ->
  (forall m, Forall (fun kv => P (snd kv)) m -> P (Obj m)) ->
  forall v, P v.
Proof.
  intros HN HB HI HS HA HO. fix IH 1. intros [|b|z|s|l|m].
  - exact HN.
  - apply HB.
  - apply HI.
  - apply HS.
  - apply HA. induction l as [|x l IHl]; constructor; [apply IH | exact IHl].
  - apply HO. induction m as [|[k x] m IHm]; constructor; [apply IH | exact IHm].
Qed.

Lemma bind_parsed {A B} (a : A) (f : A -> outcome B) : bind (Parsed a) f = f a.
Proof. reflexivity. Qed.

Lemma delimited_separated {A} (item : A -> string) (sep : string)
    (l : list A) (level : nat) (rest : string) :
  delimited (separated item ("," +:+ sep) l +:+ newline_indent level +:+ rest).
Proof. destruct l; simpl; [now right | now left]. Qed.

Lemma skip_ws_closing (level : nat) (c : ascii) (rest : string) :
  is_ws c = false ->
  skip_ws (newline_indent level +:+ String c rest) = String c rest.
Proof.
  intros H. rewrite skip_ws_newline_indent, skip_ws_cons. now rewrite H.
Qed.

Lemma parse_items_dump (xs : list value) :
  Forall reads_back xs ->
  forall (x : value) (level closing fuel : nat) (rest : string),
    reads_back x ->
    (items_size (x :: xs) <= fuel)%nat ->
    parse_items fuel
      (dump level x
       +:+ separated (dump level) ("," +:+ newline_indent level) xs
       +:+ newline_indent closing +:+ "]" +:+ rest)
    = Parsed (x :: xs, rest).
Proof.
  induction 1 as [|y ys Hy _ IH]; intros x level closing fuel rest Hx Hf;
    (destruct fuel as [|fuel]; [unfold items_size in Hf; simpl in Hf; lia|]);
    rewrite parse_items_step.
  - rewrite Hx;
      [| unfold items_size in Hf; simpl in Hf; lia
       | apply (delimited_separated (dump level) (newline_indent level) [])].
    rewrite bind_parsed. cbv beta iota.
    change (separated (dump level) ("," +:+ newline_indent level) []
            +:+ newline_indent closing +:+ "]" +:+ rest)
      with (newline_indent closing +:+ String "]" rest).
    rewrite skip_ws_closing by reflexivity. reflexivity.
  - rewrite Hx;
      [| unfold items_size in Hf; simpl in Hf; lia
       | apply (delimited_separated (dump level) (newline_indent level) (y :: ys))].
    rewrite bind_parsed. cbv beta iota.
    rewrite separated_cons, !StrFacts.app_assoc.
    change ("," +:+ newline_indent level +:+ dump level y
            +:+ separated (dump level) ("," +:+ newline_indent level) ys
            +:+ newline_indent closing +:+ "]" +:+ rest)
      with (String "," (newline_indent level +:+ dump level y
            +:+ separated (dump level) ("," +:+ newline_indent level) ys
            +:+ newline_indent closing +:+ "]" +:+ rest)).
    rewrite skip_ws_nonws by reflexivity. cbv beta iota.
    change (N_of_ascii "," =? 93)%N with false.
    change (N_of_ascii "," =? 44)%N with true. cbv beta iota.
    rewrite skip_ws_newline_indent, skip_ws_dump.
    rewrite IH; [reflexivity | exact Hy |].
    unfold items_size in *. simpl in *. lia.
Qed.

Lemma colon_space_app (s : string) : ": " +:+ s = String ":" (String " " s).
Proof. reflexivity. Qed.

Lemma comma_app (s : string) : "," +:+ s = String "," s.
Proof. reflexivity. Qed.

Lemma dump_string_app (k rest : string) :
  dump_string k +:+ rest = String (ascii_of_N 34) (escape k +:+ quote +:+ rest).
Proof. unfold dump_string. now rewrite !StrFacts.app_assoc. Qed.

Lemma parse_members_dump (ms : list (string * value)) :
  Forall (fun kv => reads_back (snd kv)) ms ->
  forall (k : string) (x : value) (level closing fuel : nat) (rest : string),
    reads_back x ->
    (members_size ((k, x) :: ms) <= fuel)%nat ->
    parse_members fuel
      (escape k +:+ quote +:+ ": " +:+ dump level x
       +:+ separated (dump_member level) ("," +:+ newline_indent level) ms
       +:+ newline_indent closing +:+ "}" +:+ rest)
    = Parsed ((k, x) :: ms, rest).
Proof.
  induction 1 as [|[k' y] ys Hy _ IH]; intros k x level closing fuel rest Hx Hf;
    (destruct fuel as [|fuel]; [unfold members_size in Hf; simpl in Hf; lia|]);
    rewrite parse_members_step, parse_string_escape, bind_parsed;
    cbv beta iota;
    rewrite colon_space_app, skip_ws_nonws by reflexivity; cbv beta iota;
    change (N_of_ascii ":" =? 58)%N with true; cbv beta iota;
    rewrite skip_ws_cons; change (is_ws " ") with true; cbv beta iota;
    rewrite skip_ws_dump.
  - rewrite Hx;
      [| unfold members_size in Hf; simpl in Hf; lia
       | apply (delimited_separated (dump_member level) (newline_indent level) [])].
    rewrite bind_parsed. cbv beta iota.
    change (separated (dump_member level) ("," +:+ newline_indent level) []
            +:+ newline_indent closing +:+ "}" +:+ rest)
      with (newline_indent closing +:+ String "}" rest).
    rewrite skip_ws_closing by reflexivity. reflexivity.
  - rewrite Hx;
      [| unfold members_size in Hf; simpl in Hf; lia
       | apply (delimited_separated (dump_member level) (newline_indent level)
                  ((k', y) :: ys))].
    rewrite bind_parsed. cbv beta iota.
    rewrite separated_cons, !StrFacts.app_assoc, comma_app.
    rewrite skip_ws_nonws by reflexivity. cbv beta iota.
    change (N_of_ascii "," =? 125)%N with false.
    change (N_of_ascii "," =? 44)%N with true. cbv beta iota.
    rewrite skip_ws_newline_indent.
    unfold dump_member at 1. rewrite !StrFacts.app_assoc, dump_string_app.
    rewrite skip_ws_nonws by reflexivity. cbv beta iota.
    change (N_of_ascii (ascii_of_N 34) =? 34)%N with true. cbv beta iota.
    simpl snd in Hy.
    rewrite IH; [reflexivity | exact Hy |].
    unfold members_size in *. simpl in *. lia.
Qed.

Lemma not_bracket (c : ascii) :
  c <> "]"%char -> (N_of_ascii c =? 93)%N = false.
Proof.
  intros H. apply N.eqb_neq. intros E. apply H.
  rewrite <- (ascii_N_embedding c), E. reflexivity.
Qed.

Lemma parse_value_array_items (fuel level : nat) (x : value) (rest : string) :
  parse_value (S fuel)
    (String "[" (newline_indent level +:+ dump level x +:+ rest))
  = bind (parse_items fuel (dump level x +:+ rest))
      (fun '(items, rest') => Parsed (Arr items, rest')).
Proof.
  rewrite parse_value_array, skip_ws_newline_indent, skip_ws_dump.
  destruct (dump_first level x) as (c & s & E & _ & Hc).
  rewrite E at 1. rewrite StrFacts.app_cons.
  now rewrite (not_bracket c Hc).
Qed.

Lemma parse_value_object_members (fuel level : nat) (k rest : string) :
  parse_value (S fuel)
    (String "{" (newline_indent level +:+ dump_string k +:+ rest))
  = bind (parse_members fuel (escape k +:+ quote +:+ rest))
      (fun '(pairs, rest') => Parsed (Obj (dict_of_pairs pairs), rest')).
Proof.
  rewrite parse_value_object, skip_ws_newline_indent, dump_string_app.
  rewrite skip_ws_nonws by reflexivity.
  unfold newline_indent, newline. rewrite StrFacts.app_assoc, StrFacts.app_cons.
  reflexivity.
Qed.

Lemma Forall_reads_back (l : list value) :
  Forall (fun v => distinct_keys v -> reads_back v) l ->
  Forall distinct_keys l -> Forall reads_back l.
Proof.
  induction 1 as [|x l Hx _ IH]; intros H; [constructor|].
  apply Forall_cons in H as [H1 H2]. constructor; auto.
Qed.

(** Every value without a repeated key is read back. *)
Lemma dump_reads_back (v : value) : distinct_keys v -> reads_back v.
Proof.
  induction v as [|b|z|s|l IH|m IH] using value_nested_ind;
    intros Hd level fuel rest Hf Hr;
    (destruct fuel as [|fuel]; [simpl in Hf; lia|]).
  - reflexivity.
  - destruct b; reflexivity.
  - now apply parse_value_int.
  - apply parse_value_str.
  - inversion Hd as [| | | |l' Hl|]; subst.
    destruct l as [|x xs]; [reflexivity|].
    apply Forall_cons in IH as [IHx IHxs]. apply Forall_cons in Hl as [Hx Hxs].
    rewrite dump_arr, !StrFacts.app_assoc.
    change ("[" +:+ ?s) with (String "[" s).
    rewrite parse_value_array_items.
    rewrite parse_items_dump;
      [reflexivity | now apply Forall_reads_back | now apply IHx |].
    simpl in Hf. unfold items_size. simpl. lia.
  - inversion Hd as [| | | | |m' Hk Hm]; subst.
    destruct m as [|[k x] xs]; [reflexivity|].
    apply Forall_cons in IH as [IHx IHxs]. apply Forall_cons in Hm as [Hx Hxs].
    simpl snd in *.
    rewrite dump_obj, !StrFacts.app_assoc.
    change ("{" +:+ ?s) with (String "{" s).
    rewrite parse_value_object_members.
    change (fun member : string * value =>
              let '(k', y) := member in
              dump_string k' +:+ ": " +:+ dump (S level) y)
      with (dump_member (S level)).
    rewrite parse_members_dump.
    + rewrite bind_parsed. cbv beta iota.
      now rewrite dict_of_pairs_distinct.
    + clear -IHxs Hxs. induction IHxs as [|[k' y] ys Hy _ IH']; [constructor|].
      apply Forall_cons in Hxs as [H1 H2]. constructor; auto.
    + now apply IHx.
    + simpl in Hf. unfold members_size. simpl. lia.
Qed.

(** *** Fuel *)

Lemma newline_indent_length (level : nat) :
  (1 <= String.length (newline_indent level))%nat.
Proof. unfold newline_indent, newline. simpl. lia. Qed.

Lemma dump_length_pos (level : nat) (v : value) :
  (1 <= String.length (dump level v))%nat.
Proof. destruct (dump_first level v) as (c & s & -> & _). simpl. lia. Qed.

Lemma separated_length {A} (item : A -> string) (sep : string) (weight : A -> nat)
    (l : list A) :
  Forall (fun x => (weight x <= String.length (item x))%nat) l ->
  (list_sum (List.map (fun x => S (weight x)) l)
   <= String.length (separated item ("," +:+ sep) l))%nat.
Proof.
  induction 1 as [|x l Hx _ IH]; [simpl; lia|].
  rewrite separated_cons, !StrFacts.length_app. simpl in *. lia.
Qed.

(** The text of a value is at least as long as the value is large. *)
Lemma size_le_length (v : value) :
  forall level, (size v <= String.length (dump level v))%nat.
Proof.
  induction v as [|b|z|s|l IH|m IH] using value_nested_ind; intros level;
    try apply dump_length_pos.
  - destruct l as [|x xs]; [simpl; lia|].
    apply Forall_cons in IH as [IHx IHxs].
    rewrite dump_arr, !StrFacts.length_app.
    pose proof (separated_length (dump (S level)) (newline_indent (S level))
                  size xs) as H.
    specialize (IHx (S level)).
    pose proof (newline_indent_length (S level)).
    simpl size. simpl String.length at 1.
    assert (Hall : Forall (fun x => (size x <= String.length (dump (S level) x))%nat) xs).
    { eapply Forall_impl; [exact IHxs|]. intros y Hy. apply Hy. }
    specialize (H Hall). lia.
  - destruct m as [|[k x] xs]; [simpl; lia|].
    apply Forall_cons in IH as [IHx IHxs]. simpl snd in IHx.
    rewrite dump_obj, !StrFacts.length_app.
    change (fun member : string * value =>
              let '(k', y) := member in
              dump_string k' +:+ ": " +:+ dump (S level) y)
      with (dump_member (S level)).
    pose proof (separated_length (dump_member (S level))
                  (newline_indent (S level)) (fun kv => size (snd kv)) xs) as H.
    specialize (IHx (S level)).
    pose proof (newline_indent_length (S level)).
    simpl size. simpl String.length at 1.
    assert (Hall : Forall (fun kv => (size (snd kv)
                                      <= String.length (dump_member (S level) kv))%nat) xs).
    { eapply Forall_impl; [exact IHxs|]. intros [k' y] Hy.
      specialize (Hy (S level)). unfold dump_member.
      rewrite !StrFacts.length_app. simpl in Hy |- *. lia. }
    specialize (H Hall). lia.
Qed.

(** [json.loads(json.dumps(v, indent=4)) == v] *)
Theorem loads_dump (v : value) :
  distinct_keys v -> loads (dump 0 v) = Parsed v.
Proof.
  intros H. unfold loads.
  rewrite <- (StrFacts.app_empty_r (dump 0 v)) at 2.
  rewrite skip_ws_dump.
  rewrite (dump_reads_back v H 0%nat _ "").
  - reflexivity.
  - pose proof (size_le_length v 0%nat). lia.
  - exact I.
Qed.

End JsonFacts.

(** ** The round trip of the day's file *)

Lemma activity_of_to_json (a : activity) :
  activity_of_json (activity_to_json a) = Some a.
Proof. destruct a as [ts app title cat d [b|]]; reflexivity. Qed.

Lemma timeline_of_to_json (l : list activity) :
  timeline_of_json (timeline_to_json l) = Some l.
Proof.
  unfold timeline_of_json, timeline_to_json.
  induction l as [|a l IH]; [reflexivity|].
  cbn [map mapM]. rewrite activity_of_to_json. cbn. rewrite IH. reflexivity.
Qed.

(** The keys of an entry are written in one order and never twice. *)
Lemma activity_to_json_distinct (a : activity) :
  JsonDefs.distinct_keys (activity_to_json a).
Proof.
  unfold activity_to_json. constructor.
  - destruct (a_is_typing a); cbn;
      repeat (constructor;
              [rewrite ?not_elem_of_cons, ?elem_of_nil; intuition discriminate|]);
      constructor.
  - destruct (a_is_typing a); cbn; repeat constructor.
Qed.

Lemma timeline_to_json_distinct (l : list activity) :
  JsonDefs.distinct_keys (timeline_to_json l).
Proof.
  constructor. induction l as [|a l IH]; constructor; trivial.
  apply activity_to_json_distinct.
Qed.

(** The text written for a timeline decodes to that timeline. *)
Lemma loads_timeline_text (l : list activity) :
  Json.loads (timeline_text l) = Json.Parsed (timeline_to_json l).
Proof. apply JsonFacts.loads_dump, timeline_to_json_distinct. Qed.

(** Reading a file that [_save_activities] wrote gives the timeline that
    was written. *)
Lemma load_saved (t : tracker) (l : list activity) :
  files t !! today_log t = Some (timeline_text l) ->
  _load_today_activities t = Returns (set_activities l t).
Proof.
  intros H. unfold _load_today_activities.
  now rewrite H, loads_timeline_text, timeline_of_to_json.
Qed.

(** Writing the timeline that was read leaves every file as it was. *)
Lemma save_loaded (t : tracker) (l : list activity) :
  files t !! today_log t = Some (timeline_text l) ->
  files (_save_activities (set_activities l t)) = files t.
Proof. intros H. unfold _save_activities. simpl. now apply insert_id. Qed.

(** C10. When the day's file holds what [_save_activities] wrote for a
    timeline, loading it and saving it again leaves the same text in the
    file, and so does loading and saving a second time: the entries, their
    keys and the order of the keys come back as they were written. *)
Theorem load_save_round_trip (t : tracker) (l : list activity) :
  files t !! today_log t = Some (timeline_text l) ->
  exists t1 t2,
    _load_today_activities t = Returns t1
    /\ activities t1 = l
    /\ files (_save_activities t1) !! today_log t = Some (timeline_text l)
    /\ files (_save_activities t1) = files t
    /\ _load_today_activities (_save_activities t1) = Returns t2
    /\ activities t2 = l
    /\ files (_save_activities t2) = files t.
Proof.
  intros H.
  pose proof (save_loaded t l H) as H1.
  exists (set_activities l t), (set_activities l (_save_activities (set_activities l t))).
  assert (H2 : files (_save_activities (set_activities l t))
               !! today_log (_save_activities (set_activities l t))
               = Some (timeline_text l))
    by (rewrite H1; exact H).
  repeat split.
  - now apply load_saved.
  - rewrite H1. exact H.
  - exact H1.
  - now apply load_saved.
  - rewrite (save_loaded _ l H2). exact H1.
Qed.

Lemma load_save_round_trip_witness :
  let saved :=
    log_current_activity "2024-05-06T09:01:00" 60 None
      (log_current_activity "2024-05-06T09:00:30" 30 (Some editor_file)
         started) in
  exists t1 t2,
    _load_today_activities saved = Returns t1
    /\ activities t1 = activities saved
    /\ files (_save_activities t1) !! today_log saved
       = Some (timeline_text (activities saved))
    /\ files (_save_activities t1) = files saved
    /\ _load_today_activities (_save_activities t1) = Returns t2
    /\ activities t2 = activities saved
    /\ files (_save_activities t2) = files saved.
Proof.
  intros saved.
  apply (load_save_round_trip saved (activities saved)).
  reflexivity.
Defined.

(** ** Further properties of the sampling engine *)

Lemma same_log_refl (t : tracker) : same_log t t.
Proof. unfold same_log. tauto. Qed.

Lemma same_log_trans (a b c : tracker) :
  same_log a b -> same_log b c -> same_log a c.
Proof. unfold same_log. intuition congruence. Qed.

Lemma on_key_press_same_log (now : Q) (t : tracker) :
  same_log (_on_key_press now t) t.
Proof.
  unfold _on_key_press, same_log. simpl.
  destruct (is_typing t); simpl; destruct (is_idle t); simpl; tauto.
Qed.

Lemma poll_mouse_same_log (mouse : option string) (now : Q)
    (st : tracker * option string) :
  same_log (fst (poll_mouse mouse now st)) (fst st).
Proof.
  destruct st as [t m]. unfold poll_mouse, same_log.
  destruct mouse as [p|]; simpl; [|tauto].
  destruct (_last_mouse_pos t); simpl; [|tauto].
  destruct (negb _); simpl; [|tauto].
  destruct (is_idle t); simpl; tauto.
Qed.

Lemma poll_window_title_same_log (title : option string) (now : Q)
    (t : tracker) :
  same_log (poll_window_title title now t) t.
Proof.
  unfold poll_window_title, same_log.
  destruct title as [p|]; simpl; [|tauto].
  destruct (_last_window_title t); simpl; [|tauto].
  destruct (negb _); simpl; [|tauto].
  destruct (is_idle t); simpl; tauto.
Qed.

Lemma check_idle_status_same_log (now : Q) (t : tracker) :
  same_log (snd (check_idle_status now t)) t.
Proof.
  unfold check_idle_status, same_log.
  destruct (Qle_bool _ _); simpl; [|tauto].
  destruct (is_idle t); simpl; tauto.
Qed.

Lemma build_activity_same_log (timestamp : string) (now : Q)
    (probe : option window_info) (t : tracker) :
  same_log (snd (build_activity timestamp now probe t)) t.
Proof.
  pose proof (build_activity_same_store timestamp now probe t) as H.
  unfold same_store, same_log in *. tauto.
Qed.

(** What a pass does to the timeline and the files: nothing, when the
    pointer was never read; else what one sample does to a tracker with
    the same timeline and files. *)
Lemma tracking_pass_log (s : sample) (st : tracker * option string) :
  (snd (tracking_pass s st) = None
   /\ same_log (fst (tracking_pass s st)) (fst st))
  \/ (exists t m,
         same_log t (fst st)
         /\ snd (tracking_pass s st) = Some m
         /\ fst (tracking_pass s st)
            = log_current_activity (s_timestamp s) (s_now s) (s_probe s) t).
Proof.
  unfold tracking_pass.
  pose proof (poll_mouse_same_log (s_mouse s) (s_now s) st) as Hm.
  destruct (poll_mouse (s_mouse s) (s_now s) st) as [t1 [m|]]; simpl in *.
  - right.
    pose proof (check_idle_status_same_log (s_now s)
                  (set_last_mouse_pos (Some m)
                     (poll_window_title (s_window_title s) (s_now s) t1)))
      as Hi.
    destruct (check_idle_status _ _) as [flag t2]. simpl in *.
    exists t2, m. split; [|split; reflexivity].
    eapply same_log_trans; [exact Hi|].
    eapply same_log_trans; [|exact Hm].
    eapply same_log_trans;
      [|apply (poll_window_title_same_log (s_window_title s) (s_now s) t1)].
    unfold same_log. simpl. tauto.
  - left. split; [reflexivity|].
    eapply same_log_trans; [|exact Hm].
    eapply same_log_trans;
      [|apply (poll_window_title_same_log (s_window_title s) (s_now s) t1)].
    unfold same_log. simpl. tauto.
Qed.

(** *** The current entry is the last entry *)

Lemma merge_or_append_current_is_last (new : activity) (t : tracker) :
  current_is_last (merge_or_append new t).
Proof.
  unfold current_is_last. intros current.
  destruct (continues new t) eqn:C.
  - destruct (merge_or_append_extends new t C) as (-> & -> & _). trivial.
  - destruct (merge_or_append_appends new t C) as (-> & -> & _).
    intros [= <-]. apply last_snoc.
Qed.

Lemma log_current_is_last (timestamp : string) (now : Q)
    (probe : option window_info) (t : tracker) :
  current_is_last (log_current_activity timestamp now probe t).
Proof.
  unfold log_current_activity.
  destruct (build_activity timestamp now probe t) as [new t'].
  apply merge_or_append_current_is_last.
Qed.

Lemma current_is_last_same_log (a b : tracker) :
  same_log a b -> current_is_last b -> current_is_last a.
Proof.
  intros (Hl & Hc & _) H current. rewrite Hl, Hc. apply H.
Qed.

Lemma step_current_is_last (e : event) (st : tracker * option string) :
  current_is_last (fst st) -> current_is_last (fst (step e st)).
Proof.
  intros H. destruct e as [now|s]; simpl.
  - eapply current_is_last_same_log; [apply on_key_press_same_log | exact H].
  - destruct (tracking_pass_log s st) as [[_ Hs] | (t & m & _ & _ & ->)].
    + eapply current_is_last_same_log; [exact Hs | exact H].
    + apply log_current_is_last.
Qed.

(** X1. Over any run of key presses and passes, the entry the tracker
    compares the next sample with is the entry stored last in the
    timeline: the merge always extends the entry it compared. *)
Theorem current_entry_is_last_entry (events : list event)
    (st : tracker * option string) :
  current_is_last (fst st) ->
  current_is_last (fst (run events st)).
Proof.
  revert st. induction events as [|e events IH]; intros st H; [exact H|].
  simpl. apply IH, step_current_is_last, H.
Qed.

Lemma current_entry_is_last_entry_witness :
  current_is_last
    (fst (run [Pass quiet_sample; Key_press 100; Pass back_sample]
            (started, None))).
Proof.
  apply current_entry_is_last_entry.
  intros current H. discriminate H.
Defined.

(** *** Every sample accounts for one interval *)

Lemma total_duration_snoc (l : list activity) (a : activity) :
  total_duration (l ++ [a]) = total_duration l + a_duration a.
Proof.
  induction l as [|b l IH]; simpl; [lia|]. rewrite IH. lia.
Qed.

Lemma build_activity_duration (timestamp : string) (now : Q)
    (probe : option window_info) (t : tracker) :
  a_duration (fst (build_activity timestamp now probe t)) = sampling_interval t.
Proof.
  unfold build_activity. destruct (is_idle t); [reflexivity|].
  destruct probe as [w|]; [|reflexivity].
  pose proof (check_typing_same_store now (print (Current_window_info (Some w)) t))
    as (_ & _ & Hs & _).
  destruct (_check_typing_status now _) as [typing t']. exact Hs.
Qed.

Lemma continues_nonempty (new : activity) (t : tracker) :
  continues new t = true -> activities t <> [].
Proof.
  unfold continues. destruct (activities t); [|discriminate].
  destruct (is_idle t), (current_activity t); discriminate.
Qed.

Lemma merge_or_append_total (new : activity) (t : tracker) :
  a_duration new = sampling_interval t ->
  total_duration (activities (merge_or_append new t))
  = total_duration (activities t) + sampling_interval t.
Proof.
  intros Hd. destruct (continues new t) eqn:C.
  - destruct (merge_or_append_extends new t C) as (-> & _).
    destruct (exists_last (continues_nonempty new t C)) as (before & a & ->).
    rewrite update_last_snoc, !total_duration_snoc. simpl. lia.
  - destruct (merge_or_append_appends new t C) as (-> & _).
    rewrite total_duration_snoc. lia.
Qed.

(** Each sample adds the sampling interval to the time the timeline
    accounts for, whether it appends an entry or extends the last one. *)
Lemma log_total (timestamp : string) (now : Q) (probe : option window_info)
    (t : tracker) :
  total_duration (activities (log_current_activity timestamp now probe t))
  = total_duration (activities t) + sampling_interval t.
Proof.
  pose proof (build_activity_duration timestamp now probe t) as Hd.
  pose proof (build_activity_same_log timestamp now probe t) as (Hl & _ & Hs & _).
  unfold log_current_activity.
  destruct (build_activity timestamp now probe t) as [new t']. simpl in *.
  rewrite merge_or_append_total by congruence. now rewrite Hl, Hs.
Qed.

Lemma step_interval (e : event) (st : tracker * option string) :
  sampling_interval (fst (step e st)) = sampling_interval (fst st).
Proof.
  destruct e as [now|s]; simpl.
  - apply on_key_press_same_log.
  - destruct (tracking_pass_log s st) as [[_ Hs] | (t & m & Hs & _ & ->)].
    + apply Hs.
    + destruct (log_rest (s_timestamp s) (s_now s) (s_probe s) t) as [-> _].
      apply Hs.
Qed.

Lemma step_keeps_pointer (e : event) (t : tracker) (m : string) :
  exists m', snd (step e (t, Some m)) = Some m'.
Proof.
  destruct e as [now|s]; simpl; [now exists m|].
  unfold tracking_pass, poll_mouse.
  destruct (s_mouse s) as [p|]; simpl.
  - destruct (check_idle_status _ _). now exists p.
  - destruct (check_idle_status _ _). now exists m.
Qed.

(** X2. Once the pointer position has been read, every pass of the loop
    records one sample, and every sample adds exactly one sampling interval
    to the total of the durations: after a run the timeline accounts for
    the interval times the number of passes more than before. *)
Theorem passes_account_for_intervals (events : list event) (t : tracker)
    (m : string) :
  total_duration (activities (fst (run events (t, Some m))))
  = total_duration (activities t)
    + sampling_interval t * Z.of_nat (passes events).
Proof.
  revert t m. induction events as [|e events IH]; intros t m.
  - unfold passes. simpl. lia.
  - simpl run.
    destruct (step_keeps_pointer e t m) as [m' Hm].
    pose proof (step_interval e (t, Some m)) as Hs. simpl in Hs.
    destruct (step e (t, Some m)) as [t1 cm] eqn:E. simpl in Hm, Hs. subst cm.
    change (fold_left (fun st e => step e st) events (t1, Some m'))
      with (run events (t1, Some m')).
    rewrite IH, Hs.
    destruct e as [now|s]; simpl in E.
    + injection E as <- _. unfold passes. simpl.
      destruct (on_key_press_same_log now t) as (-> & _). lia.
    + destruct (tracking_pass_log s (t, Some m))
        as [[Hn _] | (t' & m'' & Hl & _ & Hp)]; rewrite E in *; simpl in *.
      * discriminate.
      * subst t1. rewrite log_total.
        destruct Hl as (-> & _ & -> & _).
        unfold passes. simpl.
        change (List.length
                  (List.filter
                     (fun e => match e with Pass _ => true | _ => false end)
                     events)) with (passes events).
        lia.
Qed.

(** *** Whole intervals *)

Lemma whole_intervals_log (timestamp : string) (now : Q)
    (probe : option window_info) (t : tracker) :
  whole_intervals (sampling_interval t) (activities t) ->
  whole_intervals (sampling_interval t)
    (activities (log_current_activity timestamp now probe t)).
Proof.
  intros H.
  pose proof (build_activity_duration timestamp now probe t) as Hd.
  pose proof (build_activity_same_log timestamp now probe t) as (Hl & _ & Hs & _).
  unfold log_current_activity.
  destruct (build_activity timestamp now probe t) as [new t']. simpl in *.
  unfold whole_intervals in *.
  destruct (continues new t') eqn:C.
  - destruct (merge_or_append_extends new t' C) as (-> & _).
    rewrite Hl, Hs.
    destruct (exists_last (continues_nonempty new t' C)) as (before & a & E).
    rewrite Hl in E. rewrite E in *. rewrite update_last_snoc.
    apply Forall_app in H as [Hb Ha]. apply Forall_app. split; [exact Hb|].
    apply Forall_cons in Ha as [(k & Hk & Ha) _].
    constructor; [|constructor]. exists (k + 1). simpl. split; lia.
  - destruct (merge_or_append_appends new t' C) as (-> & _).
    rewrite Hl. apply Forall_app. split; [exact H|].
    constructor; [|constructor]. exists 1. split; lia.
Qed.

(** X3. When every entry of the timeline lasts a whole number of
    sampling intervals, one at least, the same holds after any run: the
    durations the tracker records are multiples of the interval. *)
Theorem durations_are_whole_intervals (events : list event)
    (st : tracker * option string) :
  whole_intervals (sampling_interval (fst st)) (activities (fst st)) ->
  whole_intervals (sampling_interval (fst st))
    (activities (fst (run events st))).
Proof.
  revert st. induction events as [|e events IH]; intros st H; [exact H|].
  simpl run.
  change (fold_left (fun st e => step e st) events (step e st))
    with (run events (step e st)).
  rewrite <- (step_interval e st). apply IH. rewrite (step_interval e st).
  destruct e as [now|s]; simpl.
  - destruct (on_key_press_same_log now (fst st)) as (-> & _). exact H.
  - destruct (tracking_pass_log s st) as [[_ Hs] | (t & m & Hs & _ & ->)].
    + destruct Hs as (-> & _). exact H.
    + destruct Hs as (Hl & _ & Hi & _). rewrite <- Hi.
      apply whole_intervals_log. now rewrite Hl, Hi.
Qed.

Lemma durations_are_whole_intervals_witness :
  whole_intervals (sampling_interval started)
    (activities
       (fst (run [Pass quiet_sample; Key_press 100; Pass back_sample]
               (started, None)))).
Proof.
  apply (durations_are_whole_intervals
           [Pass quiet_sample; Key_press 100; Pass back_sample] (started, None)).
  constructor.
Defined.

(** *** What the day's file holds *)

Lemma merge_or_append_paths (new : activity) (t : tracker) :
  today_log (merge_or_append new t) = today_log t.
Proof. unfold merge_or_append. destruct (continues new t); reflexivity. Qed.

Lemma today_log_same_log (a b : tracker) :
  same_log a b -> today_log a = today_log b.
Proof. intros (_ & _ & _ & _ & Hc & Hd). unfold today_log. now rewrite Hc, Hd. Qed.

Lemma file_lags_same_log (a b : tracker) :
  same_log a b -> file_lags_by_merges b -> file_lags_by_merges a.
Proof.
  intros Hs (on_disk & Hf & Hl). exists on_disk.
  rewrite (today_log_same_log a b Hs).
  destruct Hs as (-> & _ & _ & -> & _). tauto.
Qed.

Lemma merge_or_append_file_lags (new : activity) (t : tracker) :
  current_activity t = None \/ file_lags_by_merges t ->
  file_lags_by_merges (merge_or_append new t).
Proof.
  intros H. unfold file_lags_by_merges. rewrite merge_or_append_paths.
  destruct (continues new t) eqn:C.
  - destruct H as [H | (on_disk & Hf & Hr & a & b & Ha & Hb & Hab)].
    { unfold continues in C. rewrite H in C.
      destruct (is_idle t); discriminate. }
    destruct (merge_or_append_extends new t C) as (-> & _ & ->).
    exists on_disk. split; [exact Hf|].
    destruct (exists_last (continues_nonempty new t C)) as (before & c & E).
    rewrite E in *. rewrite update_last_snoc, removelast_last in *.
    rewrite last_snoc in Hb. injection Hb as ->.
    split; [now rewrite removelast_last|].
    exists a, (extend (sampling_interval t) new b).
    rewrite last_snoc. repeat split; trivial; apply Hab.
  - destruct (merge_or_append_appends new t C) as (-> & _ & ->).
    exists (activities t ++ [new]). split; [apply lookup_insert_eq|].
    split; [reflexivity|]. exists new, new. rewrite last_snoc.
    unfold same_span. tauto.
Qed.

Lemma log_file_lags (timestamp : string) (now : Q)
    (probe : option window_info) (t : tracker) :
  current_activity t = None \/ file_lags_by_merges t ->
  file_lags_by_merges (log_current_activity timestamp now probe t).
Proof.
  intros H.
  pose proof (build_activity_same_log timestamp now probe t) as Hs.
  unfold log_current_activity.
  destruct (build_activity timestamp now probe t) as [new t']. simpl in *.
  apply merge_or_append_file_lags.
  destruct H as [H|H].
  - left. destruct Hs as (_ & -> & _). exact H.
  - right. now apply (file_lags_same_log t' t).
Qed.

Lemma step_file_lags (e : event) (st : tracker * option string) :
  file_lags_by_merges (fst st) -> file_lags_by_merges (fst (step e st)).
Proof.
  intros H. destruct e as [now|s]; simpl.
  - eapply file_lags_same_log; [apply on_key_press_same_log | exact H].
  - destruct (tracking_pass_log s st) as [[_ Hs] | (t & m & Hs & _ & ->)].
    + eapply file_lags_same_log; [exact Hs | exact H].
    + apply log_file_lags. right. now apply (file_lags_same_log t (fst st)).
Qed.

(** X4. The first sample of a tracker writes the day's file, and from then
    on, whatever happens, the file holds every entry of the timeline in
    memory but the last as it is, and for the last entry an entry of the
    same start, application and category: what is not yet in the file is
    only what the merges since the last append changed in the last
    entry. *)
Theorem file_lags_only_by_merges :
  (forall (timestamp : string) (now : Q) (probe : option window_info)
          (t : tracker),
      current_activity t = None ->
      file_lags_by_merges (log_current_activity timestamp now probe t))
  /\ (forall (events : list event) (st : tracker * option string),
         file_lags_by_merges (fst st) ->
         file_lags_by_merges (fst (run events st))).
Proof.
  split.
  - intros timestamp now probe t H. apply log_file_lags. now left.
  - intros events. induction events as [|e events IH]; intros st H; [exact H|].
    simpl. apply IH, step_file_lags, H.
Qed.

Lemma file_lags_only_by_merges_witness :
  let first :=
    log_current_activity "2024-05-06T09:00:30" 30 (Some editor_file) started in
  file_lags_by_merges first
  /\ file_lags_by_merges
       (fst (run [Key_press 40;
                  Pass {| s_mouse := None; s_window_title := Some "file.py";
                          s_now := 60; s_timestamp := "2024-05-06T09:01:00";
                          s_probe := Some editor_file |}]
               (first, Some "x:10 y:10 screen:0 window:1"))).
Proof.
  intros first.
  destruct file_lags_only_by_merges as [H1 H2].
  assert (H : file_lags_by_merges first) by (apply H1; reflexivity).
  split; [exact H|].
  apply (H2 _ (first, Some "x:10 y:10 screen:0 window:1")). exact H.
Defined.

(** *** A pointer that cannot be read *)

(** X5. As long as the pointer position has never been read (every call
    of [xdotool getmouselocation] since the start has failed), a pass
    records nothing: whatever the window probe returns, the timeline and
    the files stay as they were. *)
Theorem nothing_recorded_before_pointer_is_read (events : list event)
    (t : tracker) :
  Forall mouse_poll_fails events ->
  activities (fst (run events (t, None))) = activities t
  /\ files (fst (run events (t, None))) = files t
  /\ snd (run events (t, None)) = None.
Proof.
  intros H. revert t. induction H as [|e events He _ IH]; intros t.
  - simpl. tauto.
  - simpl run.
    assert (Hs : same_log (fst (step e (t, None))) t
                 /\ snd (step e (t, None)) = None).
    { destruct e as [now|s]; simpl in *.
      - split; [apply on_key_press_same_log | reflexivity].
      - unfold tracking_pass, poll_mouse. rewrite He. simpl.
        split; [|reflexivity].
        eapply same_log_trans;
          [|apply (poll_window_title_same_log (s_window_title s) (s_now s)
                     (print Mouse_error t))].
        unfold same_log. simpl. tauto. }
    destruct (step e (t, None)) as [t1 cm]. simpl in Hs.
    destruct Hs as [(Hl & _ & _ & Hf & _) ->].
    change (fold_left (fun st e => step e st) events (t1, None))
      with (run events (t1, None)).
    destruct (IH t1) as (-> & -> & ->). tauto.
Qed.

Lemma nothing_recorded_before_pointer_is_read_witness :
  let blind (now : Q) :=
    Pass {| s_mouse := None; s_window_title := Some "file.py";
            s_now := now; s_timestamp := "2024-05-06T09:00:30";
            s_probe := Some editor_file |} in
  activities (fst (run [blind 30%Q; Key_press 40; blind 60%Q] (started, None)))
  = activities started
  /\ files (fst (run [blind 30%Q; Key_press 40; blind 60%Q] (started, None)))
     = files started
  /\ snd (run [blind 30%Q; Key_press 40; blind 60%Q] (started, None)) = None.
Proof.
  intros blind.
  apply (nothing_recorded_before_pointer_is_read
           [blind 30%Q; Key_press 40; blind 60%Q] started).
  repeat constructor.
Defined.

(** *** Idle state and interaction *)

(** X6. A pass of the loop made less than 30 seconds after a key press
    is never taken in the idle state, whatever the tracker was before the
    key press and whatever the polls of the pass return. *)
Theorem key_press_keeps_active (pressed : Q) (s : sample)
    (st : tracker * option string) :
  (s_now s - pressed < idle_threshold)%Q ->
  is_idle (fst (run [Key_press pressed; Pass s] st)) = false.
Proof.
  intros Hlt. simpl. unfold tracking_pass.
  destruct (on_key_press_resets pressed (fst st)) as (Hl & Hi & _).
  set (t0 := _on_key_press pressed (fst st)) in *.
  destruct (poll_mouse_active (s_mouse s) (s_now s) (t0, snd st) Hi) as [I1 L1].
  destruct (poll_mouse (s_mouse s) (s_now s) (t0, snd st)) as [t1 m].
  simpl in *.
  destruct (poll_window_title_active (s_window_title s) (s_now s) t1 I1)
    as [I2 L2].
  set (t2 := poll_window_title (s_window_title s) (s_now s) t1) in *.
  destruct m as [m|]; simpl; [|exact I2].
  set (t3 := set_last_mouse_pos (Some m) t2).
  assert (L3 : last_activity_time t3 = pressed
               \/ last_activity_time t3 = s_now s).
  { change (last_activity_time t3) with (last_activity_time t2).
    destruct L2 as [->| ->]; [|tauto]. destruct L1 as [->| ->]; tauto. }
  destruct (check_idle_status_stays_active (s_now s) t3 I2) as [I4 _].
  { intros Hc. destruct L3 as [E|E]; rewrite E in Hc.
    - apply (Qlt_not_le _ _ Hlt Hc).
    - unfold idle_threshold in Hc.
      assert (Z0 : (s_now s - s_now s == 0)%Q) by ring.
      rewrite Z0 in Hc. now apply Qle_bool_iff in Hc. }
  destruct (check_idle_status (s_now s) t3) as [flag t4]. simpl in *.
  destruct (log_rest (s_timestamp s) (s_now s) (s_probe s) t4) as [_ ->].
  exact I4.
Qed.

Lemma key_press_keeps_active_witness :
  is_idle (fst (run [Key_press 100; Pass back_sample]
                  (set_is_idle true started, None))) = false.
Proof.
  apply (key_press_keeps_active 100 back_sample (set_is_idle true started, None)).
  vm_compute. reflexivity.
Defined.

Lemma poll_mouse_unchanged (mouse : option string) (now : Q) (t : tracker)
    (m : string) :
  unchanged mouse (_last_mouse_pos t) ->
  let t' := fst (poll_mouse mouse now (t, Some m)) in
  is_idle t' = is_idle t /\ same_log t' t
  /\ _last_window_title t' = _last_window_title t.
Proof.
  intros H. unfold poll_mouse, same_log.
  destruct mouse as [p|]; simpl; [|tauto].
  destruct (_last_mouse_pos t) as [q|] eqn:E; simpl; [|tauto].
  destruct H as [H|[H|H]]; try discriminate. injection H as ->.
  rewrite String.eqb_refl. simpl. tauto.
Qed.

Lemma poll_window_title_unchanged (title : option string) (now : Q)
    (t : tracker) :
  unchanged title (_last_window_title t) ->
  let t' := poll_window_title title now t in
  is_idle t' = is_idle t /\ same_log t' t.
Proof.
  intros H. unfold poll_window_title, same_log.
  destruct title as [p|]; simpl; [|tauto].
  destruct (_last_window_title t) as [q|] eqn:E; simpl; [|tauto].
  destruct H as [H|[H|H]]; try discriminate. injection H as ->.
  rewrite String.eqb_refl. simpl. tauto.
Qed.

(** X7. Idle time is not merged.  A pass made in the idle state, in which
    neither poll sees anything new, leaves the tracker idle and appends
    one more idle entry of one sampling interval, whatever the clock and
    the window probe give: an absence of [n] passes is [n] entries. *)
Theorem idle_pass_appends_idle_entry (s : sample) (t : tracker) (m : string) :
  is_idle t = true ->
  unchanged (s_mouse s) (_last_mouse_pos t) ->
  unchanged (s_window_title s) (_last_window_title t) ->
  is_idle (fst (tracking_pass s (t, Some m))) = true
  /\ activities (fst (tracking_pass s (t, Some m)))
     = activities t ++ [idle_activity (s_timestamp s) (sampling_interval t)].
Proof.
  intros I Hm Hw. unfold tracking_pass.
  destruct (poll_mouse_unchanged (s_mouse s) (s_now s) t m Hm) as (I1 & L1 & W1).
  assert (Hp : exists m', snd (poll_mouse (s_mouse s) (s_now s) (t, Some m)) = Some m').
  { unfold poll_mouse. destruct (s_mouse s); simpl; eauto. }
  destruct Hp as [m' Hp].
  destruct (poll_mouse (s_mouse s) (s_now s) (t, Some m)) as [t1 cm].
  simpl in *. subst cm. rewrite <- W1 in Hw.
  destruct (poll_window_title_unchanged (s_window_title s) (s_now s) t1 Hw)
    as (I2 & L2).
  set (t2 := poll_window_title (s_window_title s) (s_now s) t1) in *.
  set (t3 := set_last_mouse_pos (Some m') t2).
  assert (I3 : is_idle t3 = true) by (change (is_idle t2 = true); congruence).
  pose proof (check_idle_status_stays_idle (s_now s) t3 I3) as H4.
  destruct (check_idle_status (s_now s) t3) as [flag t4]. simpl in H4 |- *.
  subst t4.
  destruct (log_rest (s_timestamp s) (s_now s) (s_probe s) t3) as [_ ->].
  split; [exact I3|].
  rewrite log_in_idle_state by exact I3.
  destruct L1 as (E1 & _ & S1 & _). destruct L2 as (E2 & _ & S2 & _).
  change (activities t3) with (activities t2).
  change (sampling_interval t3) with (sampling_interval t2).
  congruence.
Qed.

Lemma idle_pass_appends_idle_entry_witness :
  let t := set_is_idle true started in
  is_idle (fst (tracking_pass quiet_sample (t, Some "x:10 y:10 screen:0 window:1")))
  = true
  /\ activities
       (fst (tracking_pass quiet_sample (t, Some "x:10 y:10 screen:0 window:1")))
     = activities t
       ++ [idle_activity (s_timestamp quiet_sample) (sampling_interval t)].
Proof.
  intros t.
  apply (idle_pass_appends_idle_entry quiet_sample t).
  - reflexivity.
  - right; left; reflexivity.
  - right; left; reflexivity.
Defined.

(** ** The earlier variants *)

Lemma extend_and_save_saved (t : tracker) :
  files (extend_and_save t) !! today_log (extend_and_save t)
  = Some (timeline_text (activities (extend_and_save t))).
Proof. unfold extend_and_save, _save_activities. simpl. apply lookup_insert_eq. Qed.

Lemma append_and_save_saved (new : activity) (t : tracker) :
  files (append_and_save new t) !! today_log (append_and_save new t)
  = Some (timeline_text (activities (append_and_save new t))).
Proof. unfold append_and_save, _save_activities. simpl. apply lookup_insert_eq. Qed.

(** X8. In both earlier variants a sample that is recorded is written at
    once: after [log_current_activity] the day's file holds the text of
    the timeline in memory, on the merge path as on the append path. *)
Theorem earlier_variants_save_every_sample :
  (forall (timestamp : string) (w : window_info) (t : tracker),
      let t' := MainV1.log_current_activity timestamp (Some w) t in
      files t' !! today_log t' = Some (timeline_text (activities t')))
  /\ (forall (timestamp : string) (probe : option window_info) (t t' : tracker),
         MainV2.log_current_activity timestamp probe t = MainV2.Sampled t' ->
         files t' !! today_log t' = Some (timeline_text (activities t'))).
Proof.
  split.
  - intros timestamp w t. unfold MainV1.log_current_activity.
    destruct (current_activity t) as [current|];
      [|apply append_and_save_saved].
    destruct (activities t) as [|a l] eqn:E; [apply append_and_save_saved|].
    destruct (same_window current w);
      [apply extend_and_save_saved | apply append_and_save_saved].
  - intros timestamp probe t t'. unfold MainV2.log_current_activity.
    destruct (current_activity t) as [current|];
      [|intros [= <-]; apply append_and_save_saved].
    destruct (activities t) as [|a l] eqn:E;
      [intros [= <-]; apply append_and_save_saved|].
    destruct probe as [w|]; [|discriminate].
    destruct (same_window current w); intros [= <-];
      [apply extend_and_save_saved | apply append_and_save_saved].
Qed.

Lemma earlier_variants_save_every_sample_witness :
  let t' :=
    append_and_save
      (window_activity "2024-05-06T09:00:30" editor_file started) started in
  files t' !! today_log t' = Some (timeline_text (activities t')).
Proof.
  intros t'.
  apply (proj2 earlier_variants_save_every_sample
           "2024-05-06T09:00:30" (Some editor_file) started t').
  reflexivity.
Defined.

Lemma sampled_has_current (timestamp : string) (probe : option window_info)
    (t t' : tracker) :
  MainV2.log_current_activity timestamp probe t = MainV2.Sampled t' ->
  is_Some (current_activity t') /\ activities t' <> [].
Proof.
  unfold MainV2.log_current_activity.
  assert (Ha : forall new, is_Some (current_activity (append_and_save new t))
                           /\ activities (append_and_save new t) <> []).
  { intros new. unfold append_and_save. simpl. split; [eauto|].
    now destruct (activities t). }
  destruct (current_activity t) as [current|]; [|intros [= <-]; apply Ha].
  destruct (activities t) as [|a l] eqn:E; [intros [= <-]; apply Ha|].
  destruct probe as [w|]; [|discriminate].
  destruct (same_window current w); intros [= <-]; [|apply Ha].
  unfold extend_and_save. simpl. rewrite E.
  destruct (exists_last (l := a :: l)) as (before & b & ->); [discriminate|].
  rewrite update_last_snoc, last_snoc. split; [eauto|].
  now destruct before.
Qed.

(** X9. In [bkp/main_v2.py] a window probe that returns nothing raises
    [TypeError] in every sample that follows a recorded one: the idle
    entry is built, but the comparison subscripts the missing window
    before the entry can be stored.  Only the first sample of a run can
    record idle time. *)
Theorem main_v2_probe_failure_raises (timestamp later : string)
    (probe : option window_info) (t t' : tracker) :
  MainV2.log_current_activity timestamp probe t = MainV2.Sampled t' ->
  MainV2.log_current_activity later None t' = MainV2.Raises_TypeError.
Proof.
  intros H. destruct (sampled_has_current _ _ _ _ H) as [[c Hc] Hl].
  unfold MainV2.log_current_activity. rewrite Hc.
  destruct (activities t'); [congruence | reflexivity].
Qed.

Lemma main_v2_probe_failure_raises_witness :
  MainV2.log_current_activity "2024-05-06T09:01:00" None
    (append_and_save (idle_activity "2024-05-06T09:00:30" 30) started)
  = MainV2.Raises_TypeError.
Proof.
  apply (main_v2_probe_failure_raises "2024-05-06T09:00:30"
           "2024-05-06T09:01:00" None started).
  reflexivity.
Defined.

(** ** The configuration file *)

Lemma strings_of_to_json (l : list string) :
  strings_of_json (strings_to_json l) = Some l.
Proof.
  unfold strings_of_json, strings_to_json.
  induction l as [|x l IH]; [reflexivity|].
  cbn [map mapM]. cbn. rewrite IH. reflexivity.
Qed.

Lemma categories_of_to_json (cats : list (string * list string)) :
  categories_of_json
    (Json.Obj (map (fun entry => (fst entry, strings_to_json (snd entry))) cats))
  = Some cats.
Proof.
  unfold categories_of_json.
  induction cats as [|[c kws] cats IH]; [reflexivity|].
  cbn [map mapM fst snd]. rewrite strings_of_to_json. cbn.
  rewrite IH. reflexivity.
Qed.

#[local] Arguments strings_to_json : simpl never.
#[local] Arguments strings_of_json : simpl never.
#[local] Arguments categories_of_json : simpl never.

Lemma config_of_to_json (c : config) : config_of_json (config_to_json c) = Some c.
Proof.
  destruct c as [apps docs ignored cats [z|]]; unfold config_to_json; cbn;
    rewrite strings_of_to_json; cbn;
    rewrite (categories_of_to_json cats); reflexivity.
Qed.

Lemma strings_to_json_distinct (l : list string) :
  JsonDefs.distinct_keys (strings_to_json l).
Proof.
  constructor. induction l; constructor; trivial. constructor.
Qed.

Lemma config_to_json_distinct (c : config) :
  NoDup (map fst (categories c)) ->
  JsonDefs.distinct_keys (config_to_json c).
Proof.
  intros H. unfold config_to_json. constructor.
  - destruct (sampling_interval_opt c); cbn;
      repeat (constructor;
              [rewrite ?not_elem_of_cons, ?elem_of_nil; intuition discriminate|]);
      constructor.
  - assert (Hc : JsonDefs.distinct_keys
                   (Json.Obj (map (fun entry => (fst entry, strings_to_json (snd entry)))
                                (categories c)))).
    { constructor.
      - rewrite List.map_map. simpl. exact H.
      - clear H. induction (categories c) as [|[k kws] l IH]; constructor; trivial.
        apply strings_to_json_distinct. }
    destruct (sampling_interval_opt c); cbn;
      repeat (constructor; [first [ exact Hc | apply strings_to_json_distinct
                                  | constructor ]|]);
      constructor.
Qed.

Lemma load_saved_config (config_file : string) (c : config)
    (disk : gmap string string) :
  NoDup (map fst (categories c)) ->
  disk !! config_file = Some (config_text c) ->
  load_config config_file disk = Returns (c, disk).
Proof.
  intros H Hf. unfold load_config, config_text in *. rewrite Hf.
  rewrite JsonFacts.loads_dump by now apply config_to_json_distinct.
  now rewrite config_of_to_json.
Qed.

(** X10. The configuration file is read back as it was written.  When
    there is no file, [load_config] writes the default configuration and
    returns it, and the next [load_config] returns the default again and
    leaves the files alone; a configuration saved by [save_config], with
    no category named twice, is the one [load_config] returns. *)
Theorem config_round_trip :
  (forall (config_file : string) (disk : gmap string string),
      disk !! config_file = None ->
      exists disk',
        load_config config_file disk
        = Returns (ConfigManager.DEFAULT_CONFIG, disk')
        /\ disk' !! config_file = Some (config_text ConfigManager.DEFAULT_CONFIG)
        /\ load_config config_file disk'
           = Returns (ConfigManager.DEFAULT_CONFIG, disk'))
  /\ (forall (config_file : string) (c : config) (disk : gmap string string),
         NoDup (map fst (categories c)) ->
         load_config config_file (save_config config_file c disk)
         = Returns (c, save_config config_file c disk)).
Proof.
  assert (H : forall (config_file : string) (c : config) (disk : gmap string string),
             NoDup (map fst (categories c)) ->
             load_config config_file (save_config config_file c disk)
             = Returns (c, save_config config_file c disk)).
  { intros config_file c disk Hc. apply load_saved_config; [exact Hc|].
    apply lookup_insert_eq. }
  split; [|exact H].
  intros config_file disk Hf.
  exists (save_config config_file ConfigManager.DEFAULT_CONFIG disk).
  split; [|split].
  - unfold load_config. now rewrite Hf.
  - apply lookup_insert_eq.
  - apply H. cbn.
    repeat (constructor;
            [rewrite ?not_elem_of_cons, ?elem_of_nil; intuition discriminate|]).
    constructor.
Qed.

Lemma config_round_trip_witness :
  (exists disk',
      load_config "/home/user/.activity_tracker/activity_config.json" ∅
      = Returns (ConfigManager.DEFAULT_CONFIG, disk')
      /\ disk' !! "/home/user/.activity_tracker/activity_config.json"
         = Some (config_text ConfigManager.DEFAULT_CONFIG)
      /\ load_config "/home/user/.activity_tracker/activity_config.json" disk'
         = Returns (ConfigManager.DEFAULT_CONFIG, disk'))
  /\ load_config "activity_config.json"
       (save_config "activity_config.json" scenario_D_config ∅)
     = Returns (scenario_D_config,
                save_config "activity_config.json" scenario_D_config ∅).
Proof.
  destruct config_round_trip as [H1 H2]. split.
  - apply H1. reflexivity.
  - apply H2. cbn. repeat constructor.
    rewrite elem_of_nil. tauto.
Defined.

(** *** One file for each day *)

Lemma app_inv_head_str (a b c : string) : a +:+ b = a +:+ c -> b = c.
Proof. induction a as [|x a IH]; simpl; [trivial|]. intros [= H]. auto. Qed.

Lemma app_inv_tail_str (a b c : string) : a +:+ c = b +:+ c -> a = b.
Proof.
  revert b. induction a as [|x a IH]; intros [|y b] H; simpl in H.
  - reflexivity.
  - apply (f_equal String.length) in H. simpl in H.
    rewrite StrFacts.length_app in H. lia.
  - apply (f_equal String.length) in H. simpl in H.
    rewrite StrFacts.length_app in H. lia.
  - injection H as -> H. f_equal. now apply IH.
Qed.

(** X11. The log files of two different dates are two different files,
    and the log file of a date is the configuration file of the directory
    for one date only, the text [config]. *)
Theorem one_log_file_for_each_date (directory date1 date2 : string) :
  (ConfigManager.get_log_path directory date1
   = ConfigManager.get_log_path directory date2 -> date1 = date2)
  /\ (ConfigManager.get_log_path directory date1
      = directory +:+ "/activity_config.json" <-> date1 = "config").
Proof.
  unfold ConfigManager.get_log_path. split.
  - intros H. apply app_inv_head_str, app_inv_head_str in H.
    now apply app_inv_tail_str in H.
  - split.
    + intros H. apply app_inv_head_str in H.
      change ("/activity_config.json")
        with ("/activity_" +:+ "config" +:+ ".json") in H.
      apply app_inv_head_str in H. now apply app_inv_tail_str in H.
    + intros ->. reflexivity.
Qed.

Lemma one_log_file_for_each_date_witness :
  "2024-05-06" = "2024-05-06".
Proof.
  apply (proj1 (one_log_file_for_each_date "/home/user/.activity_tracker"
                  "2024-05-06" "2024-05-06")).
  reflexivity.
Defined.

(** ** The daily report *)

Lemma sum_durations_from (l : list activity) (start : Z) :
  fold_left (fun sum a => sum + a_duration a) l start
  = start + total_duration l.
Proof.
  revert start. induction l as [|a l IH]; intros start; simpl; [lia|].
  rewrite IH. lia.
Qed.

Lemma sum_durations_total (l : list activity) :
  sum_durations l = total_duration l.
Proof. unfold sum_durations. now rewrite sum_durations_from. Qed.

Lemma dict_add_sum (k : string) (v : Z) (d : list (string * Z)) :
  sum_values (dict_add k v d) = sum_values d + v.
Proof.
  induction d as [|[k' v'] d IH]; simpl; [lia|].
  destruct (String.eqb k k'); simpl; lia.
Qed.

Lemma dict_add_get (c k : string) (v : Z) (d : list (string * Z)) :
  dict_get c (dict_add k v d)
  = dict_get c d + (if String.eqb c k then v else 0).
Proof.
  induction d as [|[k' v'] d IH]; simpl.
  - destruct (String.eqb c k); lia.
  - destruct (String.eqb_spec k k') as [->|Hk]; simpl.
    + destruct (String.eqb c k'); lia.
    + destruct (String.eqb_spec c k') as [->|Hc].
      * apply not_eq_sym, String.eqb_neq in Hk. rewrite Hk. lia.
      * exact IH.
Qed.

Lemma dict_add_keys (k : string) (v : Z) (d : list (string * Z)) :
  NoDup (map fst d) ->
  NoDup (map fst (dict_add k v d))
  /\ forall x, x ∈ map fst (dict_add k v d) -> x = k \/ x ∈ map fst d.
Proof.
  induction d as [|[k' v'] d IH]; simpl; intros H.
  - split; [repeat constructor; now rewrite elem_of_nil|].
    intros x Hx. apply list_elem_of_singleton in Hx. now left.
  - apply NoDup_cons in H as [Hn Hd].
    destruct (String.eqb_spec k k') as [->|Hk]; simpl.
    + split; [now apply NoDup_cons|]. intros x Hx. now right.
    + destruct (IH Hd) as [IH1 IH2]. split.
      * apply NoDup_cons. split; [|exact IH1].
        intros Hin. destruct (IH2 _ Hin) as [E|E]; [congruence|contradiction].
      * intros x Hx. apply elem_of_cons in Hx as [->|Hx].
        -- right. apply elem_of_cons. now left.
        -- destruct (IH2 _ Hx) as [E|E]; [now left|].
           right. apply elem_of_cons. now right.
Qed.

Lemma entries_with_cons (key : activity -> string) (k : string) (a : activity)
    (l : list activity) :
  total_duration (entries_with key k (a :: l))
  = (if String.eqb k (key a) then a_duration a else 0)
    + total_duration (entries_with key k l).
Proof.
  unfold entries_with. simpl. destruct (String.eqb k (key a)); simpl; lia.
Qed.

(** What the loop of the report leaves in a table. *)
Lemma times_by_from (key : activity -> string) (l : list activity)
    (d : list (string * Z)) :
  NoDup (map fst d) ->
  let table := fold_left (fun d a => dict_add (key a) (a_duration a) d) l d in
  sum_values table = sum_values d + total_duration l
  /\ NoDup (map fst table)
  /\ forall k, dict_get k table
               = dict_get k d + total_duration (entries_with key k l).
Proof.
  revert d. induction l as [|a l IH]; intros d Hd; cbn [fold_left]; cbv zeta.
  - repeat split; trivial; intros; unfold entries_with; simpl; lia.
  - destruct (dict_add_keys (key a) (a_duration a) d Hd) as [Hn _].
    destruct (IH _ Hn) as (H1 & H2 & H3). repeat split.
    + rewrite H1, dict_add_sum. unfold total_duration. simpl. lia.
    + exact H2.
    + intros k. rewrite H3, dict_add_get, entries_with_cons. lia.
Qed.

Lemma falsy_timeline (l : list activity) :
  l <> [] -> falsy (timeline_to_json l) = false.
Proof. destruct l; [congruence | reflexivity]. Qed.

(** X12. For a day's file that holds the text of a non-empty timeline,
    the report is written from tables that agree with the timeline: the
    total is the sum of the durations, the times by category add up to the
    total and so do the times by application, no category and no
    application has two rows, and the time of each is the sum of the
    durations of its entries. *)
Theorem report_tables_add_up (directory date : string)
    (disk : gmap string string) (l : list activity) :
  l <> [] ->
  disk !! ConfigManager.get_log_path directory date = Some (timeline_text l) ->
  exists category_times app_times,
    generate_daily_report directory date disk
    = Returns (Tables (total_duration l) category_times app_times)
    /\ sum_values category_times = total_duration l
    /\ sum_values app_times = total_duration l
    /\ NoDup (map fst category_times)
    /\ NoDup (map fst app_times)
    /\ (forall c, dict_get c category_times
                  = total_duration (entries_with a_category c l))
    /\ (forall a, dict_get a app_times
                  = total_duration (entries_with a_app a l)).
Proof.
  intros Hl Hf.
  exists (times_by a_category l), (times_by a_app l).
  destruct (times_by_from a_category l [] (NoDup_nil_2 (A:=string))) as (C1 & C2 & C3).
  destruct (times_by_from a_app l [] (NoDup_nil_2 (A:=string))) as (A1 & A2 & A3).
  repeat split; trivial.
  unfold generate_daily_report.
  now rewrite Hf, loads_timeline_text, falsy_timeline, timeline_of_to_json,
    sum_durations_total.
Qed.

Lemma report_tables_add_up_witness :
  let saved :=
    log_current_activity "2024-05-06T09:01:00" 60 None
      (log_current_activity "2024-05-06T09:00:30" 30 (Some editor_file)
         started) in
  exists category_times app_times,
    generate_daily_report (config_path saved) (today_date saved) (files saved)
    = Returns (Tables (total_duration (activities saved))
                 category_times app_times)
    /\ sum_values category_times = total_duration (activities saved)
    /\ sum_values app_times = total_duration (activities saved)
    /\ NoDup (map fst category_times)
    /\ NoDup (map fst app_times)
    /\ (forall c, dict_get c category_times
                  = total_duration (entries_with a_category c (activities saved)))
    /\ (forall a, dict_get a app_times
                  = total_duration (entries_with a_app a (activities saved))).
Proof.
  intros saved.
  apply (report_tables_add_up (config_path saved) (today_date saved)
           (files saved) (activities saved)).
  - discriminate.
  - reflexivity.
Defined.

(** X13. The report answers with its error text for a day exactly when
    that day's file is one on which the tracker cannot start: the text
    [json.load] rejects is caught by the report and not by the tracker. *)
Theorem report_names_the_file_the_tracker_rejects (t : tracker) :
  _load_today_activities t = Raises JSONDecodeError
  <-> generate_daily_report (config_path t) (today_date t) (files t)
      = Returns (Answer ("Error: Invalid activity data for "
                         +:+ today_date t +:+ ".")).
Proof.
  unfold _load_today_activities, generate_daily_report.
  change (ConfigManager.get_log_path (config_path t) (today_date t))
    with (today_log t).
  destruct (files t !! today_log t) as [text|].
  - destruct (Json.loads text) as [v| |].
    + destruct (falsy v).
      * split; [destruct (timeline_of_json v); discriminate|].
        intros H. inversion H.
      * destruct (timeline_of_json v); split; discriminate.
    + tauto.
    + split; discriminate.
  - split; [discriminate|]. intros H. inversion H.
Qed.

Lemma report_names_the_file_the_tracker_rejects_witness :
  generate_daily_report "/home/user/.activity_tracker" "2024-05-06"
    {[ "/home/user/.activity_tracker/activity_2024-05-06.json" := "{" ]}
  = Returns (Answer "Error: Invalid activity data for 2024-05-06.").
Proof.
  exact (proj1 (report_names_the_file_the_tracker_rejects
                  (blank "/home/user/.activity_tracker"
                     ConfigManager.DEFAULT_CONFIG "2024-05-06" 0
                     {[ "/home/user/.activity_tracker/activity_2024-05-06.json"
                        := "{" ]}))
           eq_refl).
Defined.

(** ** More on the classifier and on typing *)

Lemma contains_empty (s : string) : Str.contains "" s = true.
Proof. destruct s; reflexivity. Qed.

(** X14. The empty keyword matches every application: when the first
    category of the configuration lists the empty text among its
    keywords, every window of an application that is not ignored gets
    that category, whatever its title. *)
Theorem empty_keyword_matches_everything (conf : config) (w : window_info)
    (category : string) (keywords : list string)
    (others : list (string * list string)) :
  categories conf = (category, keywords) :: others ->
  In "" keywords ->
  ~ ignored conf w ->
  categorize_activity conf (Some w) = category.
Proof.
  intros Hc Hk Hi. simpl.
  destruct (existsb _ _) eqn:E.
  - apply ignored_test in E. contradiction.
  - rewrite Hc. simpl.
    assert (Ha : any_keyword_in keywords (Str.lower (w_app w)) = true).
    { unfold any_keyword_in. apply existsb_exists. exists "". split; [exact Hk|].
      apply contains_empty. }
    now rewrite Ha.
Qed.

Lemma empty_keyword_matches_everything_witness :
  categorize_activity
    {| track_applications := true; track_documents := true;
       ignored_apps := ["Finder"];
       categories := [("Work", ["slack"; ""]); ("Coding", ["vim"])];
       sampling_interval_opt := None |}
    (Some (window "vim" "notes.txt"))
  = "Work".
Proof.
  apply (empty_keyword_matches_everything _ _ "Work" ["slack"; ""]
           [("Coding", ["vim"])]).
  - reflexivity.
  - right. left. reflexivity.
  - intros (x & [<-|[]] & H). discriminate H.
Defined.

Lemma merge_or_append_last (new : activity) (t : tracker) :
  is_Some (a_is_typing new) ->
  exists stored,
    last (activities (merge_or_append new t)) = Some stored
    /\ a_title stored = a_title new
    /\ a_is_typing stored = a_is_typing new.
Proof.
  intros [b Hb]. destruct (continues new t) eqn:C.
  - destruct (merge_or_append_extends new t C) as (-> & _).
    destruct (exists_last (continues_nonempty new t C)) as (before & a & ->).
    rewrite update_last_snoc, last_snoc. eexists. split; [reflexivity|].
    simpl. now rewrite Hb.
  - destruct (merge_or_append_appends new t C) as (-> & _).
    rewrite last_snoc. eauto.
Qed.

(** X15. A sample of a window taken outside the idle state, with the
    keyboard listener running, at most two seconds after a key press, is
    recorded as typing: the entry stored last after the sample carries the
    title of the window followed by the typing marker, and its typing flag
    is set, whether the sample started an entry or extended one. *)
Theorem sample_after_key_press_is_typing (pressed now : Q) (timestamp : string)
    (w : window_info) (t : tracker) :
  keyboard_listener t = true ->
  (now - pressed <= typing_inactivity_threshold)%Q ->
  exists stored,
    last (activities
            (log_current_activity timestamp now (Some w)
               (_on_key_press pressed t)))
    = Some stored
    /\ a_title stored = w_title w +:+ " (typing)"
    /\ a_is_typing stored = Some true.
Proof.
  intros L H.
  destruct (on_key_press_typing pressed t) as (L' & T & P).
  destruct (on_key_press_resets pressed t) as (_ & I & _).
  set (t0 := _on_key_press pressed t) in *.
  unfold log_current_activity, build_activity. rewrite I.
  rewrite check_typing_recent; [| simpl; congruence | exact T | simpl; now rewrite P].
  match goal with
  | |- context [merge_or_append ?new ?t'] =>
      destruct (merge_or_append_last new t') as (stored & H1 & H2 & H3);
        [simpl; eauto|]
  end.
  exists stored. split; [exact H1|]. split; [exact H2 | exact H3].
Qed.

Lemma sample_after_key_press_is_typing_witness :
  exists stored,
    last (activities
            (log_current_activity "2024-05-06T09:01:41" 101 (Some editor_file)
               (_on_key_press 100 started)))
    = Some stored
    /\ a_title stored = w_title editor_file +:+ " (typing)"
    /\ a_is_typing stored = Some true.
Proof.
  apply (sample_after_key_press_is_typing 100 101 "2024-05-06T09:01:41"
           editor_file started).
  - reflexivity.
  - vm_compute. discriminate.
Defined.

(** *** Starting again on the same day *)

(** X16. A tracker that starts on a day whose file holds a saved timeline
    takes that timeline over, and its first sample always appends an entry
    after it, also when the window is the one of the last saved entry: a
    restart never continues a span. *)
Theorem restart_appends_first_sample (directory today : string) (conf : config)
    (now later : Q) (listener_starts : bool) (disk : gmap string string)
    (saved : list activity) (timestamp : string)
    (probe : option window_info) :
  disk !! ConfigManager.get_log_path directory today
  = Some (timeline_text saved) ->
  exists t new,
    init directory conf today now listener_starts disk = Returns t
    /\ activities t = saved
    /\ activities (log_current_activity timestamp later probe t)
       = saved ++ [new]
    /\ a_timestamp new = timestamp.
Proof.
  intros Hf. unfold init.
  rewrite (load_saved (blank directory conf today now disk) saved Hf).
  set (t := _start_keyboard_monitoring listener_starts
              (set_activities saved (blank directory conf today now disk))).
  assert (Hl : activities t = saved) by (unfold t; now destruct listener_starts).
  assert (Hc : current_activity t = None)
    by (unfold t; now destruct listener_starts).
  pose proof (build_activity_same_log timestamp later probe t) as (El & Ec & _).
  assert (Ht : a_timestamp (fst (build_activity timestamp later probe t)) = timestamp).
  { unfold build_activity. destruct (is_idle t); [reflexivity|].
    destruct probe as [w|]; [|reflexivity].
    now destruct (_check_typing_status later _). }
  exists t, (fst (build_activity timestamp later probe t)).
  split; [reflexivity|]. split; [exact Hl|]. split; [|exact Ht].
  unfold log_current_activity.
  destruct (build_activity timestamp later probe t) as [new t']. simpl in *.
  assert (C : continues new t' = false).
  { unfold continues. rewrite Ec, Hc. now destruct (is_idle t'). }
  destruct (merge_or_append_appends new t' C) as (-> & _). congruence.
Qed.

Lemma restart_appends_first_sample_witness :
  let before :=
    log_current_activity "2024-05-06T09:00:30" 30 (Some editor_file) started in
  exists t new,
    init (config_path before) ConfigManager.DEFAULT_CONFIG (today_date before)
      500 true (files before) = Returns t
    /\ activities t = activities before
    /\ activities
         (log_current_activity "2024-05-06T09:08:50" 530 (Some editor_file) t)
       = activities before ++ [new]
    /\ a_timestamp new = "2024-05-06T09:08:50".
Proof.
  intros before.
  apply (restart_appends_first_sample (config_path before) (today_date before)
           ConfigManager.DEFAULT_CONFIG 500 530 true (files before)
           (activities before) "2024-05-06T09:08:50" (Some editor_file)).
  reflexivity.
Defined.

(** ** The window probe on macOS *)

Module MacProbeFacts.
Import MacProbe.

Lemma contains_tail (needle : string) (c : ascii) (s : string) :
  Str.contains needle (String c s) = false ->
  Str.startswith needle (String c s) = false /\ Str.contains needle s = false.
Proof.
  rewrite StrFacts.contains_cons. intros H.
  now apply orb_false_iff in H.
Qed.

(** A piece without the separator is closed by the separator that
    follows it. *)
Lemma split_piece (a piece rest : string) :
  Str.contains ", " a = false ->
  split_from ", " 0 piece (a +:+ ", " +:+ rest)
  = (piece +:+ a) :: split_from ", " 0 "" rest.
Proof.
  revert piece. induction a as [|c a IH]; intros piece H.
  - rewrite StrFacts.app_empty_r. reflexivity.
  - apply contains_tail in H as [Hs Hc].
    rewrite StrFacts.app_cons.
    assert (Hn : Str.startswith ", " (String c (a +:+ ", " +:+ rest)) = false).
    { rewrite StrFacts.startswith_cons_cons in Hs |- *.
      destruct (Ascii.eqb "," c); [|reflexivity].
      rewrite andb_true_l in Hs |- *.
      destruct a as [|c' a]; [reflexivity|].
      rewrite StrFacts.app_cons.
      rewrite StrFacts.startswith_cons_cons in Hs |- *.
      destruct (Ascii.eqb " " c'); [discriminate Hs | reflexivity]. }
    change (split_from ", " 0 piece (String c (a +:+ ", " +:+ rest)))
      with (if Str.startswith ", " (String c (a +:+ ", " +:+ rest))
            then piece :: split_from ", " 1 "" (a +:+ ", " +:+ rest)
            else split_from ", " 0 (piece +:+ String c "") (a +:+ ", " +:+ rest)).
    rewrite Hn, IH by exact Hc.
    now rewrite StrFacts.app_assoc.
Qed.

(** A text without the separator is one piece. *)
Lemma split_last (a piece : string) :
  Str.contains ", " a = false ->
  split_from ", " 0 piece a = [piece +:+ a].
Proof.
  revert piece. induction a as [|c a IH]; intros piece H.
  - now rewrite StrFacts.app_empty_r.
  - apply contains_tail in H as [Hs Hc].
    change (split_from ", " 0 piece (String c a))
      with (if Str.startswith ", " (String c a)
            then piece :: split_from ", " 1 "" a
            else split_from ", " 0 (piece +:+ String c "") a).
    rewrite Hs, IH by exact Hc.
    now rewrite StrFacts.app_assoc.
Qed.

End MacProbeFacts.

(** X17. The macOS probe cuts the output of the script at every comma
    followed by a space.  With exit status 0 and a stripped output that
    starts with an application name, the separator and the start of a
    title, both free of the separator, followed by the separator and
    anything else, the probe reports that name and that start only: a
    window title that contains the separator is reported up to its first
    occurrence.  With another exit status, or without a separator in the
    output, the probe reports nothing. *)
Theorem macos_probe_cuts_at_separator :
  (forall (stdout app title more : string),
      Str.contains ", " app = false ->
      Str.contains ", " title = false ->
      MacProbe.strip stdout = app +:+ ", " +:+ title +:+ ", " +:+ more ->
      MacProbe._get_macos_info 0 stdout
      = Some {| w_app := app; w_title := title; w_pid := None |})
  /\ (forall (stdout app title : string),
         Str.contains ", " app = false ->
         Str.contains ", " title = false ->
         MacProbe.strip stdout = app +:+ ", " +:+ title ->
         MacProbe._get_macos_info 0 stdout
         = Some {| w_app := app; w_title := title; w_pid := None |})
  /\ (forall (stdout : string),
         Str.contains ", " (MacProbe.strip stdout) = false ->
         MacProbe._get_macos_info 0 stdout = None)
  /\ (forall (returncode : Z) (stdout : string),
         returncode <> 0 -> MacProbe._get_macos_info returncode stdout = None).
Proof.
  split; [|split; [|split]].
  - intros stdout app title more Ha Ht E.
    unfold MacProbe._get_macos_info, MacProbe.split. simpl Z.eqb. cbv beta iota.
    rewrite E, MacProbeFacts.split_piece by exact Ha.
    rewrite MacProbeFacts.split_piece by exact Ht. reflexivity.
  - intros stdout app title Ha Ht E.
    unfold MacProbe._get_macos_info, MacProbe.split. simpl Z.eqb. cbv beta iota.
    rewrite E, MacProbeFacts.split_piece by exact Ha.
    rewrite MacProbeFacts.split_last by exact Ht. reflexivity.
  - intros stdout H.
    unfold MacProbe._get_macos_info, MacProbe.split. simpl Z.eqb. cbv beta iota.
    rewrite MacProbeFacts.split_last by exact H. reflexivity.
  - intros returncode stdout H. unfold MacProbe._get_macos_info.
    apply Z.eqb_neq in H. now rewrite H.
Qed.

Lemma macos_probe_cuts_at_separator_witness :
  MacProbe._get_macos_info 0 "Mail, Re: budget, final numbers, /Applications/Mail.app
"
  = Some {| w_app := "Mail"; w_title := "Re: budget"; w_pid := None |}
  /\ MacProbe._get_macos_info 0 "Finder, Desktop" = Some (window "Finder" "Desktop")
  /\ MacProbe._get_macos_info 0 "  " = None
  /\ MacProbe._get_macos_info 1 "Finder, Desktop" = None.
Proof.
  destruct macos_probe_cuts_at_separator as (H1 & H2 & H3 & H4).
  split; [|split; [|split]].
  - apply (H1 _ "Mail" "Re: budget" "final numbers, /Applications/Mail.app");
      reflexivity.
  - apply (H2 _ "Finder" "Desktop"); reflexivity.
  - apply H3. reflexivity.
  - apply H4. discriminate.
Defined.
